(** * Kavastu tracker: backtesting and scoring engine

    A shallow embedding of the backtesting core of the repository
    ([src/backtester.py], [src/screener.py], [src/ma_calculator.py],
    [src/fundamentals.py], the sizing functions of
    [src/portfolio_manager.py] and [src/market_regime.py]) together with
    the properties stated about it.

    Numbers.  The Python code computes with binary floating point.  Here a
    float is an exact rational in canonical form ([Qc]): the four operations
    are exact, comparisons are those of the rationals, and the special values
    that pandas produces (NaN for an undefined cell, the infinities of a
    division by zero) are made explicit where the code can produce them.
    Rounding error is therefore outside the model; every branch, guard and
    formula of the code is inside it. *)

From Stdlib Require Import ZArith QArith Qcanon Qround Lqa Lia Sorted.
From stdpp Require Import base option numbers gmap strings fin_maps list.

Local Open Scope Qc_scope.

(** ** Numbers *)

(** A decimal literal of the source, e.g. [num 0.0025]. *)
Definition num (q : Q) : Qc := Q2Qc q.
Arguments num q%_Q.

(** [x < y] and [x <= y] on floats, as booleans. *)
Definition ltb (x y : Qc) : bool :=
  match x ?= y with Lt => true | _ => false end.

Definition leb (x y : Qc) : bool :=
  match x ?= y with Gt => false | _ => true end.

(** Python's built-in [min(a, b)] and [max(a, b)]: the first argument is kept
    unless the second is strictly smaller (resp. larger). *)
Definition py_min (a b : Qc) : Qc := if ltb b a then b else a.
Definition py_max (a b : Qc) : Qc := if ltb a b then b else a.

(** Python's [int(x)] on a float: truncation toward zero. *)
Definition py_int (x : Qc) : Z := Z.quot (Qnum x) (Zpos (Qden x)).

(** [floor(x)], used to state properties only. *)
Definition floor (x : Qc) : Z := Qfloor x.

(** Exceptions the modelled code can raise. *)
Inductive exn := ZeroDivisionError | ValueError | IndexError.

Inductive res (A : Type) :=
| Ok (a : A)
| Raise (e : exn).
Arguments Ok {A} a.
Arguments Raise {A} e.

(** ** [class Portfolio] (backtester.py) *)

Module Portfolio.

(** A value of the [holdings] dict: [{'shares': int, 'entry_price': float}]. *)
Record position := Position {
  shares : Z;
  entry_price : Qc
}.

Record t := Make {
  initial_capital : Qc;
  cash : Qc;
  holdings : gmap string position;
  total_dividends : Qc;
  total_isk_tax : Qc;
  peak_value : Qc
}.

(** [__init__] *)
Definition init (capital : Qc) : t :=
  {| initial_capital := capital;
     cash := capital;
     holdings := ∅;
     total_dividends := 0;
     total_isk_tax := 0;
     peak_value := capital |}.

Definition set_cash (c : Qc) (p : t) : t :=
  {| initial_capital := initial_capital p; cash := c;
     holdings := holdings p; total_dividends := total_dividends p;
     total_isk_tax := total_isk_tax p; peak_value := peak_value p |}.

Definition set_holdings (h : gmap string position) (p : t) : t :=
  {| initial_capital := initial_capital p; cash := cash p;
     holdings := h; total_dividends := total_dividends p;
     total_isk_tax := total_isk_tax p; peak_value := peak_value p |}.

Definition set_total_dividends (d : Qc) (p : t) : t :=
  {| initial_capital := initial_capital p; cash := cash p;
     holdings := holdings p; total_dividends := d;
     total_isk_tax := total_isk_tax p; peak_value := peak_value p |}.

Definition set_total_isk_tax (x : Qc) (p : t) : t :=
  {| initial_capital := initial_capital p; cash := cash p;
     holdings := holdings p; total_dividends := total_dividends p;
     total_isk_tax := x; peak_value := peak_value p |}.

Definition set_peak_value (v : Qc) (p : t) : t :=
  {| initial_capital := initial_capital p; cash := cash p;
     holdings := holdings p; total_dividends := total_dividends p;
     total_isk_tax := total_isk_tax p; peak_value := v |}.

(** [current_prices.get(ticker, 0)] *)
Definition price_or_zero (current_prices : gmap string Qc) (ticker : string) : Qc :=
  default 0 (current_prices !! ticker).

(** The generator summed by [get_total_value]: one term
    [shares * current_prices.get(ticker, 0)] per held ticker. *)
Definition holdings_value (current_prices : gmap string Qc)
    (h : gmap string position) : Qc :=
  map_fold (λ ticker pos acc,
              acc + Qc_of_Z (shares pos) * price_or_zero current_prices ticker)
           0 h.

Definition get_total_value (current_prices : gmap string Qc) (p : t) : Qc :=
  cash p + holdings_value current_prices (holdings p).

Definition get_holdings_count (p : t) : nat := size (holdings p).

(** [buy]: the result is the returned boolean, or the exception raised, and
    the portfolio afterwards.  Both divisions raise [ZeroDivisionError] on a
    zero divisor, before anything is assigned. *)
Definition buy (ticker : string) (amount price transaction_cost : Qc) (p : t)
    : res bool * t :=
  let cost_with_fees := amount * (1 + transaction_cost) in
  if ltb (cash p) cost_with_fees then (Ok false, p)
  else if decide (price = 0) then (Raise ZeroDivisionError, p)
  else
    let shares := py_int (amount / price) in
    if (shares <=? 0)%Z then (Ok false, p)
    else
      let actual_cost := Qc_of_Z shares * price * (1 + transaction_cost) in
      match holdings p !! ticker with
      | Some held =>
          let old_shares := Portfolio.shares held in
          let old_value := Qc_of_Z old_shares * entry_price held in
          let new_value := Qc_of_Z shares * price in
          let total_shares := (old_shares + shares)%Z in
          if decide (total_shares = 0%Z) then (Raise ZeroDivisionError, p)
          else
            let avg_price := (old_value + new_value) / Qc_of_Z total_shares in
            let p1 := set_holdings
                        (<[ticker := Position total_shares avg_price]> (holdings p)) p in
            (Ok true, set_cash (cash p1 - actual_cost) p1)
      | None =>
          let p1 := set_holdings
                      (<[ticker := Position shares price]> (holdings p)) p in
          (Ok true, set_cash (cash p1 - actual_cost) p1)
      end.

(** [sell]: always the whole position. *)
Definition sell (ticker : string) (price transaction_cost : Qc) (p : t) : bool * t :=
  match holdings p !! ticker with
  | None => (false, p)
  | Some held =>
      let proceeds := Qc_of_Z (shares held) * price * (1 - transaction_cost) in
      let p1 := set_cash (cash p + proceeds) p in
      (true, set_holdings (delete ticker (holdings p1)) p1)
  end.

(** [sell_all]: iterates over a copy of the keys. *)
Definition sell_all (current_prices : gmap string Qc) (transaction_cost : Qc) (p : t) : t :=
  foldl (λ q ticker,
           match current_prices !! ticker with
           | Some price => snd (sell ticker price transaction_cost q)
           | None => q
           end)
        p (map fst (map_to_list (holdings p))).

(** A dividend series: ex-date (day number) and amount per share. *)
Definition dividend_series := list (Z * Qc).

(** [collect_dividends]: events with [start < date <= end] of held tickers. *)
Definition collect_dividends (dividend_data : gmap string dividend_series)
    (start_date end_date : Z) (p : t) : Qc * t :=
  foldl (λ '(period_dividends, q) '(ticker, pos),
           match dividend_data !! ticker with
           | None => (period_dividends, q)
           | Some dividends =>
               let period_divs :=
                 filter (λ ev, (start_date <? fst ev)%Z && (fst ev <=? end_date)%Z) dividends in
               foldl (λ '(pd, q1) ev,
                        let div_received := Qc_of_Z (shares pos) * snd ev in
                        (pd + div_received,
                         set_total_dividends (total_dividends q1 + div_received)
                           (set_cash (cash q1 + div_received) q1)))
                     (period_dividends, q) period_divs
           end)
        (0, p) (map_to_list (holdings p)).

(** The year table at the head of [pay_isk_tax]: (tax_rate, tax_free_amount). *)
Definition isk_parameters (year : Z) : Qc * Qc :=
  if (2026 <=? year)%Z then (num 0.01065, num 300000)
  else (num 0.01, num 150000).

Definition pay_isk_tax (portfolio_value : Qc) (year : Z) (p : t) : Qc * t :=
  let '(tax_rate, tax_free_amount) := isk_parameters year in
  if leb portfolio_value tax_free_amount then (0, p)
  else
    let taxable_amount := portfolio_value - tax_free_amount in
    let isk_tax := taxable_amount * tax_rate in
    let p1 := set_cash (cash p - isk_tax) p in
    (isk_tax, set_total_isk_tax (total_isk_tax p1 + isk_tax) p1).

(** The band chain that ends [get_drawdown_adjustment]. *)
Definition drawdown_band (drawdown_pct : Qc) : Qc * string :=
  if ltb drawdown_pct (num 5) then (num 1.0, "NORMAL"%string)
  else if ltb drawdown_pct (num 10) then (num 0.85, "CAUTIOUS"%string)
  else if ltb drawdown_pct (num 15) then (num 0.70, "REDUCE"%string)
  else if ltb drawdown_pct (num 20) then (num 0.60, "DEFENSIVE"%string)
  else (num 0.50, "MAX_DEFENSIVE"%string).

(** [get_drawdown_adjustment] returns (drawdown_pct, size_multiplier,
    risk_level).  The peak is assigned before the division, so it is kept
    when the division raises. *)
Definition get_drawdown_adjustment (current_prices : gmap string Qc) (p : t)
    : res (Qc * Qc * string) * t :=
  let current_value := get_total_value current_prices p in
  let p1 := if ltb (peak_value p) current_value
            then set_peak_value current_value p else p in
  if decide (peak_value p1 = 0) then (Raise ZeroDivisionError, p1)
  else
    let drawdown_pct := (peak_value p1 - current_value) / peak_value p1 * num 100 in
    let '(size_multiplier, risk_level) := drawdown_band drawdown_pct in
    (Ok (drawdown_pct, size_multiplier, risk_level), p1).

(** One mutation of the portfolio by one of its methods. *)
Inductive step : t → t → Prop :=
| step_buy ticker amount price tc p :
    step p (snd (buy ticker amount price tc p))
| step_sell ticker price tc p :
    step p (snd (sell ticker price tc p))
| step_sell_all prices tc p :
    step p (sell_all prices tc p)
| step_collect_dividends data s e p :
    step p (snd (collect_dividends data s e p))
| step_pay_isk_tax value year p :
    step p (snd (pay_isk_tax value year p))
| step_get_drawdown_adjustment prices p :
    step p (snd (get_drawdown_adjustment prices p)).

(** The states of a run: a portfolio opened with a positive capital and
    mutated through its methods only. *)
Inductive reachable : t → Prop :=
| reachable_init capital : 0 < capital → reachable (init capital)
| reachable_step p p' : reachable p → step p p' → reachable p'.

End Portfolio.

(** ** Dates ([datetime] as used by backtester.py) *)

Module Calendar.

(** A [datetime] at midnight, which is all the code builds from a
    ["%Y-%m-%d"] string; the formatted string is identified with it. *)
Record datetime := Datetime {
  year : Z;
  month : Z;
  day : Z
}.

Definition is_leap (y : Z) : bool :=
  (y mod 4 =? 0)%Z && (negb (y mod 100 =? 0)%Z || (y mod 400 =? 0)%Z).

Definition days_in_month (y m : Z) : Z :=
  if (m =? 2)%Z then (if is_leap y then 29 else 28)%Z
  else if (m =? 4)%Z || (m =? 6)%Z || (m =? 9)%Z || (m =? 11)%Z then 30%Z
  else 31%Z.

(** The checks of the [datetime] constructor. *)
Definition valid (d : datetime) : bool :=
  (1 <=? year d)%Z && (year d <=? 9999)%Z &&
  (1 <=? month d)%Z && (month d <=? 12)%Z &&
  (1 <=? day d)%Z && (day d <=? days_in_month (year d) (month d))%Z.

(** [d.replace(year=y, month=m)]: the day is kept and the new date is
    validated; [ValueError] when the day does not exist in that month. *)
Definition replace (y m : Z) (d : datetime) : res datetime :=
  let d' := Datetime y m (day d) in
  if valid d' then Ok d' else Raise ValueError.

(** [d1 <= d2] *)
Definition le (d1 d2 : datetime) : bool :=
  match (year d1 ?= year d2)%Z with
  | Lt => true
  | Gt => false
  | Eq => match (month d1 ?= month d2)%Z with
          | Lt => true
          | Gt => false
          | Eq => (day d1 <=? day d2)%Z
          end
  end.

(** The day after a valid date. *)
Definition next_day (d : datetime) : datetime :=
  if (day d <? days_in_month (year d) (month d))%Z
  then Datetime (year d) (month d) (day d + 1)
  else if (month d <? 12)%Z then Datetime (year d) (month d + 1) 1
  else Datetime (year d + 1) 1 1.

(** [d + timedelta(days=n)]; [OverflowError] past year 9999 is a
    [ValueError] here. *)
Fixpoint add_days (n : nat) (d : datetime) : res datetime :=
  match n with
  | O => Ok d
  | S n' => let d' := next_day d in
            if valid d' then add_days n' d' else Raise ValueError
  end.

(** The proleptic Gregorian day number ([date.toordinal]). *)
Definition days_before_year (y : Z) : Z :=
  ((y - 1) * 365 + (y - 1) / 4 - (y - 1) / 100 + (y - 1) / 400)%Z.

Fixpoint days_before_month_aux (y : Z) (m : nat) : Z :=
  match m with
  | O => 0%Z
  | S m' => (days_before_month_aux y m' + days_in_month y (Z.of_nat m))%Z
  end.

Definition days_before_month (y m : Z) : Z :=
  days_before_month_aux y (Z.to_nat (m - 1)).

Definition toordinal (d : datetime) : Z :=
  (days_before_year (year d) + days_before_month (year d) (month d) + day d)%Z.

End Calendar.

(** ** pandas cells and series *)

(** A float cell that can hold the special values of IEEE arithmetic:
    used where the code divides by a series that can contain zeros. *)
Inductive fval :=
| Fin (q : Qc)
| PInf
| NInf
| NaN.

Definition fneg (a : fval) : fval :=
  match a with
  | Fin x => Fin (- x)
  | PInf => NInf
  | NInf => PInf
  | NaN => NaN
  end.

Definition fadd (a b : fval) : fval :=
  match a, b with
  | NaN, _ | _, NaN => NaN
  | Fin x, Fin y => Fin (x + y)
  | PInf, NInf | NInf, PInf => NaN
  | PInf, _ | _, PInf => PInf
  | NInf, _ | _, NInf => NInf
  end.

Definition fsub (a b : fval) : fval := fadd a (fneg b).

(** Division of numpy floats: a zero divisor gives an infinity of the sign
    of the dividend, or NaN for 0/0, and no exception. *)
Definition fdiv (a b : fval) : fval :=
  match a, b with
  | NaN, _ | _, NaN => NaN
  | Fin x, Fin y =>
      if decide (y = 0) then
        (if decide (x = 0) then NaN else if ltb 0 x then PInf else NInf)
      else Fin (x / y)
  | Fin _, _ => Fin 0
  | _, PInf | _, NInf => NaN
  | PInf, Fin y => if ltb y 0 then NInf else PInf
  | NInf, Fin y => if ltb y 0 then PInf else NInf
  end.

(** Product of numpy floats: an infinity times zero is NaN. *)
Definition fmul (a b : fval) : fval :=
  match a, b with
  | NaN, _ | _, NaN => NaN
  | Fin x, Fin y => Fin (x * y)
  | Fin x, PInf | PInf, Fin x =>
      if decide (x = 0) then NaN else if ltb 0 x then PInf else NInf
  | Fin x, NInf | NInf, Fin x =>
      if decide (x = 0) then NaN else if ltb 0 x then NInf else PInf
  | PInf, PInf | NInf, NInf => PInf
  | PInf, NInf | NInf, PInf => NInf
  end.

(** [a <= b] and [a < b]; false as soon as one side is NaN. *)
Definition fle (a b : fval) : bool :=
  match a, b with
  | NaN, _ | _, NaN => false
  | Fin x, Fin y => leb x y
  | NInf, _ | _, PInf => true
  | _, _ => false
  end.

Definition flt (a b : fval) : bool :=
  match a, b with
  | NaN, _ | _, NaN => false
  | Fin x, Fin y => ltb x y
  | PInf, _ | _, NInf => false
  | _, _ => true
  end.

(** [pd.isna] *)
Definition isna (a : fval) : bool :=
  match a with NaN => true | _ => false end.

(** A cell that is either a number or NaN. *)
Definition cell_to_fval (c : option Qc) : fval :=
  match c with Some x => Fin x | None => NaN end.

Definition sum_list (l : list Qc) : Qc := foldr Qcplus 0 l.

(** Built-in [abs] on a float. *)
Definition py_abs (x : Qc) : Qc := if ltb x 0 then - x else x.

(** [s.tail(n)] and [s.iloc[-k]] *)
Definition tail {A} (n : nat) (l : list A) : list A := drop (length l - n)%nat l.

Definition iloc_neg {A} (k : nat) (l : list A) : option A := l !! (length l - k)%nat.

(** [s.iloc[-days]] for a variable [days]: [-0] is [0], the first row. *)
Definition iloc_minus {A} (days : nat) (l : list A) : option A :=
  match days with
  | O => l !! 0%nat
  | S _ => iloc_neg days l
  end.

(** [s.rolling(window=w).mean()]: NaN until the window is full. *)
Definition rolling_mean (w : nat) (l : list Qc) : list (option Qc) :=
  map (λ i, if (w <=? i + 1)%nat
            then Some (sum_list (take w (drop (i + 1 - w)%nat l)) / Qc_of_Z (Z.of_nat w))
            else None)
      (seq 0 (length l)).

(** [s.diff()]: NaN first, then the differences. *)
Definition diff (l : list Qc) : list (option Qc) :=
  match l with
  | [] => []
  | _ :: rest => None :: zip_with (λ prev cur, Some (cur - prev)) l rest
  end.

(** [s.ewm(span=span, adjust=False).mean()]:
    y0 = x0 and y_t = (1 - alpha) y_(t-1) + alpha x_t, alpha = 2/(span+1). *)
Fixpoint ewm_from (alpha prev : Qc) (l : list Qc) : list Qc :=
  match l with
  | [] => []
  | x :: rest =>
      let y := (1 - alpha) * prev + alpha * x in
      y :: ewm_from alpha y rest
  end.

Definition ewm_mean (span : Z) (l : list Qc) : list Qc :=
  match l with
  | [] => []
  | x :: rest => x :: ewm_from (num 2 / Qc_of_Z (span + 1)) x rest
  end.

(** [round(x, 1)]: the nearest tenth, a tie going to the even digit. *)
Definition round_half_even (x : Qc) : Z :=
  let f := floor x in
  let r := x - Qc_of_Z f in
  if ltb r (num 0.5) then f
  else if ltb (num 0.5) r then (f + 1)%Z
  else if Z.even f then f else (f + 1)%Z.

Definition py_round1 (x : Qc) : Qc :=
  Qc_of_Z (round_half_even (x * num 10)) / num 10.

(** ** ma_calculator.py *)

Module MaCalculator.

(** One row of the price frame returned by the data provider. *)
Record bar := Bar {
  Date : Z;
  Open : Qc;
  High : Qc;
  Low : Qc;
  Close : Qc;
  Volume : Z
}.

(** One row of the frame after [calculate_ma50_ma200]. *)
Record row := Row {
  prices : bar;
  MA50 : option Qc;
  MA100 : option Qc;
  MA200 : option Qc
}.

Definition calculate_ma (prices : list Qc) (window : nat) : list (option Qc) :=
  rolling_mean window prices.

Definition calculate_ma50_ma200 (df : list bar) : list row :=
  let close := map Close df in
  let ma50 := calculate_ma close 50 in
  let ma100 := calculate_ma close 100 in
  let ma200 := calculate_ma close 200 in
  zip_with (λ b '(m50, m100, m200), Row b m50 m100 m200)
           df (zip (zip ma50 ma100) ma200).

Record crossover := Crossover {
  crossed_below_ma200 : bool;
  crossed_above_ma200 : bool;
  current_position : string;
  distance_from_ma200 : Qc;
  ma50_above_ma200 : bool;
  days_since_crossover : option Z
}.

Definition crossover_default : crossover :=
  Crossover false false "unknown" 0 false None.

(** The [for] loop of [detect_crossover] over the pairs of consecutive
    rows of [recent], from index [i] on. *)
Fixpoint scan_crossovers (len : nat) (i : nat) (recent : list row)
    (result : crossover) : crossover :=
  match recent with
  | prev :: (next :: _) as rest =>
      let result' :=
        match MA200 prev, MA200 next with
        | Some prev_ma200, Some next_ma200 =>
            let prev_price := Close (prices prev) in
            let next_price := Close (prices next) in
            let r1 :=
              if leb prev_ma200 prev_price && ltb next_price next_ma200
              then Crossover true (crossed_above_ma200 result)
                     (current_position result) (distance_from_ma200 result)
                     (ma50_above_ma200 result)
                     (Some (Z.of_nat len - Z.of_nat i - 2)%Z)
              else result in
            if leb prev_price prev_ma200 && ltb next_ma200 next_price
            then Crossover (crossed_below_ma200 r1) true
                   (current_position r1) (distance_from_ma200 r1)
                   (ma50_above_ma200 r1)
                   (Some (Z.of_nat len - Z.of_nat i - 2)%Z)
            else r1
        | _, _ => result
        end in
      scan_crossovers len (S i) rest result'
  | _ => result
  end.

Definition detect_crossover (df : list row) (lookback : nat) : crossover :=
  if (length df <? lookback + 1)%nat then crossover_default
  else
    let recent := tail (lookback + 1) df in
    if forallb (λ r, negb (bool_decide (is_Some (MA200 r)))) recent
    then crossover_default
    else
      match last recent with
      | None => crossover_default
      | Some cur =>
          let current_price := Close (prices cur) in
          match MA200 cur with
          | None => crossover_default
          | Some current_ma200 =>
              let position :=
                if ltb current_ma200 current_price
                then "above"%string else "below"%string in
              let distance :=
                (current_price - current_ma200) / current_ma200 * num 100 in
              let above :=
                match MA50 cur with
                | Some current_ma50 => ltb current_ma200 current_ma50
                | None => false
                end in
              scan_crossovers (length recent) 0 recent
                (Crossover false false position distance above None)
          end
      end.

Definition calculate_ma200_slope (df : list row) (lookback : nat) : Qc :=
  if (length df <? lookback)%nat then 0
  else
    let recent_ma200 := tail lookback (map MA200 df) in
    if forallb (λ c, negb (bool_decide (is_Some c))) recent_ma200 then 0
    else
      match head recent_ma200, last recent_ma200 with
      | Some (Some ma200_start), Some (Some ma200_end) =>
          (ma200_end - ma200_start) / Qc_of_Z (Z.of_nat lookback)
      | _, _ => 0
      end.

(** The series [gain] and [loss] of [calculate_rsi]: the first difference
    is NaN and both [where] calls turn it into 0, so neither has a NaN. *)
Definition rsi_gain (close : list Qc) : list Qc :=
  map (λ d, match d with
            | Some x => if ltb 0 x then x else 0
            | None => 0
            end) (diff close).

Definition rsi_loss (close : list Qc) : list Qc :=
  map (λ d, - match d with
              | Some x => if ltb x 0 then x else 0
              | None => 0
              end) (diff close).

(** [avg_gain] and [avg_loss]: NaN until the window is full. *)
Definition rsi_avg_gain (close : list Qc) (period : nat) : list (option Qc) :=
  rolling_mean period (rsi_gain close).

Definition rsi_avg_loss (close : list Qc) (period : nat) : list (option Qc) :=
  rolling_mean period (rsi_loss close).

(** [calculate_rsi]: [rs = avg_gain / avg_loss] is a division of float
    series, which follows [fdiv] and raises nothing. *)
Definition calculate_rsi (close : list Qc) (period : nat) : list fval :=
  let rs := zip_with (λ g l, fdiv (cell_to_fval g) (cell_to_fval l))
                     (rsi_avg_gain close period) (rsi_avg_loss close period) in
  map (λ rs_t, fsub (Fin (num 100)) (fdiv (Fin (num 100)) (fadd (Fin 1) rs_t))) rs.

(** [calculate_macd]: (MACD line, signal line, histogram). *)
Definition calculate_macd (close : list Qc) (fast slow signal : Z)
    : list Qc * list Qc * list Qc :=
  let ema_fast := ewm_mean fast close in
  let ema_slow := ewm_mean slow close in
  let macd_line := zip_with Qcminus ema_fast ema_slow in
  let signal_line := ewm_mean signal macd_line in
  let histogram := zip_with Qcminus macd_line signal_line in
  (macd_line, signal_line, histogram).

Record macd_info := MacdInfo {
  bullish_crossover : bool;
  bearish_crossover : bool;
  macd_positive : bool;
  histogram_rising : bool
}.

(** The [for] loop of [detect_macd_crossover] over (MACD, signal) pairs. *)
Fixpoint scan_macd (recent : list (Qc * Qc)) (result : macd_info) : macd_info :=
  match recent with
  | (prev_macd, prev_signal) :: ((next_macd, next_signal) :: _) as rest =>
      let r1 :=
        if leb prev_macd prev_signal && ltb next_signal next_macd
        then MacdInfo true (bearish_crossover result)
               (macd_positive result) (histogram_rising result)
        else result in
      let r2 :=
        if leb prev_signal prev_macd && ltb next_macd next_signal
        then MacdInfo (bullish_crossover r1) true
               (macd_positive r1) (histogram_rising r1)
        else r1 in
      scan_macd rest r2
  | _ => result
  end.

(** [detect_macd_crossover] on the three MACD columns of the frame. *)
Definition detect_macd_crossover (macd signal hist : list Qc) (lookback : nat)
    : macd_info :=
  if (length macd <? lookback + 1)%nat then MacdInfo false false false false
  else
    let recent := tail (lookback + 1) (zip macd signal) in
    let positive :=
      match last recent with
      | Some (current_macd, _) => ltb 0 current_macd
      | None => false
      end in
    let hist_recent := tail 3 (tail (lookback + 1) hist) in
    let rising :=
      if (2 <=? length hist_recent)%nat then
        match iloc_neg 1 hist_recent, iloc_neg 2 hist_recent with
        | Some h1, Some h2 => ltb h2 h1
        | _, _ => false
        end
      else false in
    scan_macd recent (MacdInfo false false positive rising).

(** [get_52_week_high]: both branches take the maximum of what [tail(252)]
    keeps; NaN ([None]) on an empty frame. *)
Definition get_52_week_high (df : list row) : option Qc :=
  let high := map (λ r, High (prices r)) df in
  let window := if (length df <? 252)%nat then high else tail 252 high in
  match window with
  | [] => None
  | h :: rest => Some (foldl (λ m x, if ltb m x then x else m) h rest)
  end.

(** The series [true_range] of [calculate_atr]: the row-wise maximum of
    [tr1], [tr2] and [tr3].  [close.shift(1)] leaves NaN in the first row
    of [tr2] and [tr3], and [max(axis=1)] skips NaN cells. *)
Definition true_range (df : list bar) : list Qc :=
  zip_with (λ b prev_close,
              let tr1 := High b - Low b in
              match prev_close with
              | None => tr1
              | Some c =>
                  py_max (py_max tr1 (py_abs (High b - c))) (py_abs (Low b - c))
              end)
           df (None :: map (λ b, Some (Close b)) df).

Definition calculate_atr (df : list bar) (period : nat) : list (option Qc) :=
  rolling_mean period (true_range df).

(** [calculate_volatility_percentile].  [atr] is the column ['ATR'] of the
    frame, [None] when the frame has no such column.  The quotient is one
    of numpy numbers, so an empty window gives NaN; the [iloc[-1]] of an
    empty column raises [IndexError]. *)
Definition calculate_volatility_percentile (atr : option (list (option Qc)))
    (lookback : nat) : res fval :=
  match atr with
  | None => Ok (Fin (num 50))
  | Some column =>
      if (length column <? lookback)%nat then Ok (Fin (num 50))
      else
        let recent_atr := tail lookback column in
        match iloc_neg 1 column with
        | None => Raise IndexError
        | Some None => Ok (Fin (num 50))
        | Some (Some current_atr) =>
            let below :=
              length (filter (λ c, from_option (λ x, ltb x current_atr) false c = true)
                             recent_atr) in
            Ok (fmul (fdiv (Fin (Qc_of_Z (Z.of_nat below)))
                           (Fin (Qc_of_Z (Z.of_nat (length recent_atr)))))
                     (Fin (num 100)))
        end
  end.

End MaCalculator.

(** ** fundamentals.py *)

Module Fundamentals.

(** What the data provider reports for a ticker today ([stock.info]); a
    missing key is [None]. *)
Record stock_info := StockInfo {
  revenueGrowth : option Qc;
  profitMargins : option Qc;
  returnOnEquity : option Qc;
  debtToEquity : option Qc;
  trailingPE : option Qc;
  forwardPE : option Qc;
  dividendYield : option Qc
}.

Record t := Make {
  revenue_growth : option Qc;
  profit_margin : option Qc;
  roe : option Qc;
  debt_to_equity : option Qc;
  pe_ratio : option Qc;
  forward_pe : option Qc;
  dividend_yield : option Qc;
  pays_dividend : bool;
  quality_score : Qc
}.

Definition default : t :=
  Make None None None None None None None false 0.

Definition calculate_quality_score (f : t) : Qc :=
  let score := 0 in
  let score :=
    match revenue_growth f with
    | Some rev_growth =>
        if ltb (num 0.15) rev_growth then score + num 8
        else if ltb (num 0.10) rev_growth then score + num 6
        else if ltb (num 0.05) rev_growth then score + num 4
        else if ltb 0 rev_growth then score + num 2
        else score
    | None => score
    end in
  let score :=
    match profit_margin f with
    | Some margin =>
        if ltb (num 0.15) margin then score + num 6
        else if ltb (num 0.10) margin then score + num 4
        else if ltb (num 0.05) margin then score + num 2
        else score
    | None => score
    end in
  let score :=
    match roe f with
    | Some r =>
        if ltb (num 0.20) r then score + num 6
        else if ltb (num 0.15) r then score + num 4
        else if ltb (num 0.10) r then score + num 2
        else score
    | None => score
    end in
  let score := if pays_dividend f then score + num 3 else score in
  match debt_to_equity f with
  | Some d =>
      if ltb d (num 100) then score + num 2
      else if ltb d (num 200) then score + num 1
      else score
  | None => score
  end.

(** [fetch_fundamentals]: [info ticker] is the provider's answer, [None]
    when the request fails (the [except] branch keeps the defaults). *)
Definition fetch_fundamentals (info : string → option stock_info)
    (ticker : string) : t :=
  match info ticker with
  | None => default
  | Some i =>
      let f := Make (revenueGrowth i) (profitMargins i) (returnOnEquity i)
                 (debtToEquity i) (trailingPE i) (forwardPE i)
                 (dividendYield i)
                 (match dividendYield i with
                  | Some y => ltb 0 y
                  | None => false
                  end)
                 0 in
      Make (revenue_growth f) (profit_margin f) (roe f) (debt_to_equity f)
        (pe_ratio f) (forward_pe f) (dividend_yield f) (pays_dividend f)
        (calculate_quality_score f)
  end.

End Fundamentals.
(** ** screener.py *)

Module Screener.
Import MaCalculator.

(** [calculate_stock_return].  Past the guard both reads succeed, except
    on an empty frame with [days = 0], where the code raises [IndexError];
    the scoring passes 60 and 120. *)
Definition calculate_stock_return (df : list row) (days : nat) : Qc :=
  if (length df <? days)%nat then 0
  else
    match iloc_neg 1 df, iloc_minus days df with
    | Some cur, Some past =>
        let current_price := Close (prices cur) in
        let past_price := Close (prices past) in
        (current_price - past_price) / past_price * num 100
    | _, _ => 0
    end.

(** The [metrics] dict.  The last four fields are the keys that only the
    indicator confirmation adds; [None] and [false] stand for an absent
    key. *)
Record metrics := Metrics {
  ticker : string;
  score : Qc;
  price : Qc;
  ma50 : option Qc;
  ma100 : option Qc;
  ma200 : option Qc;
  distance_ma200 : Qc;
  ma50_above_ma200 : bool;
  triple_ma_aligned : bool;
  ma200_rising : bool;
  relative_strength_3m : Qc;
  relative_strength_6m : Qc;
  price_vs_52w_high : Qc;
  high_52w : Qc;
  death_cross : bool;
  days_since_death_cross : option Z;
  revenue_growth : option Qc;
  profit_margin : option Qc;
  roe : option Qc;
  quality_score : Qc;
  rsi : option fval;
  rsi_overbought : bool;
  macd : option macd_info;
  macd_bearish_cross : bool
}.

(** The dict as initialised at the head of [calculate_stock_score]. *)
Definition metrics_init (ticker : string) : metrics :=
  {| ticker := ticker; score := 0; price := 0;
     ma50 := Some 0; ma100 := Some 0; ma200 := Some 0;
     distance_ma200 := 0; ma50_above_ma200 := false;
     triple_ma_aligned := false; ma200_rising := false;
     relative_strength_3m := 0; relative_strength_6m := 0;
     price_vs_52w_high := 0; high_52w := 0;
     death_cross := false; days_since_death_cross := None;
     revenue_growth := None; profit_margin := None; roe := None;
     quality_score := 0;
     rsi := None; rsi_overbought := false; macd := None;
     macd_bearish_cross := false |}.

(** Points of the triple MA system: (points, ma50_above_ma200,
    triple_ma_aligned).  A NaN MA100 takes the dual-MA fallback. *)
Definition trend_alignment (ma50 ma100 : option Qc) (ma200 : Qc)
    : Qc * bool * bool :=
  match ma50 with
  | Some ma50 =>
      match ma100 with
      | Some ma100 =>
          if ltb ma100 ma50 && ltb ma200 ma100 then (num 15, true, true)
          else if ltb ma200 ma50 then (num 10, true, false)
          else (0, false, false)
      | None =>
          if ltb ma200 ma50 then (num 10, true, false) else (0, false, false)
      end
  | None => (0, false, false)
  end.

(** RSI scoring: (points, rsi_overbought). *)
Definition rsi_points (current_rsi : fval) : Qc * bool :=
  if isna current_rsi then (0, false)
  else if fle (Fin (num 50)) current_rsi && fle current_rsi (Fin (num 60))
  then (num 10, false)
  else if flt (Fin (num 60)) current_rsi && fle current_rsi (Fin (num 70))
  then (num 7, false)
  else if fle (Fin (num 40)) current_rsi && flt current_rsi (Fin (num 50))
  then (num 5, false)
  else if flt (Fin (num 70)) current_rsi then (- num 5, true)
  else (0, false).

(** MACD scoring: the bonus chain, then the bearish penalty. *)
Definition macd_points (m : macd_info) : Qc :=
  let bonus :=
    if bullish_crossover m then num 10
    else if macd_positive m && histogram_rising m then num 7
    else if macd_positive m then num 4
    else 0 in
  if bearish_crossover m then bonus - num 10 else bonus.

(** The columns that the indicator confirmation adds to the frame, read
    where the scoring reads them: the last RSI(14) and the MACD(12,26,9)
    crossover summary over five bars. *)
Definition indicator_confirmation (df : list row) : fval * macd_info :=
  let close := map (λ r, Close (prices r)) df in
  let current_rsi := from_option id NaN (iloc_neg 1 (calculate_rsi close 14)) in
  let '(macd_line, signal_line, histogram) := calculate_macd close 12 26 9 in
  (current_rsi, detect_macd_crossover macd_line signal_line histogram 5).

(** [calculate_stock_score].  [info] is the fundamentals service that
    [fetch_fundamentals] queries.  An empty frame raises [IndexError] at the
    first [iloc[-1]], which the [except] clause turns into the initial
    dict.  The divisions by the MA200 and by a past close are those of
    positive prices: a zero divisor, which gives the code an infinity or
    NaN, needs a price that is not positive. *)
Definition calculate_stock_score (info : string → option Fundamentals.stock_info)
    (ticker : string) (df : list row) (benchmark_returns : Qc * Qc)
    (include_fundamentals use_indicator_confirmation : bool) : metrics :=
  let m0 := metrics_init ticker in
  match iloc_neg 1 df with
  | None => m0
  | Some cur =>
      let current_price := Close (prices cur) in
      match MA200 cur with
      | None =>
          {| ticker := ticker; score := 0; price := current_price;
             ma50 := MA50 cur; ma100 := MA100 cur; ma200 := None;
             distance_ma200 := 0; ma50_above_ma200 := false;
             triple_ma_aligned := false; ma200_rising := false;
             relative_strength_3m := 0; relative_strength_6m := 0;
             price_vs_52w_high := 0; high_52w := 0;
             death_cross := false; days_since_death_cross := None;
             revenue_growth := None; profit_margin := None; roe := None;
             quality_score := 0;
             rsi := None; rsi_overbought := false; macd := None;
             macd_bearish_cross := false |}
      | Some ma200_ =>
          let distance := (current_price - ma200_) / ma200_ * num 100 in
          if negb (ltb ma200_ current_price) then
            {| ticker := ticker; score := 0; price := current_price;
               ma50 := MA50 cur; ma100 := MA100 cur; ma200 := Some ma200_;
               distance_ma200 := distance; ma50_above_ma200 := false;
               triple_ma_aligned := false; ma200_rising := false;
               relative_strength_3m := 0; relative_strength_6m := 0;
               price_vs_52w_high := 0; high_52w := 0;
               death_cross := false; days_since_death_cross := None;
               revenue_growth := None; profit_margin := None; roe := None;
               quality_score := 0;
               rsi := None; rsi_overbought := false; macd := None;
               macd_bearish_cross := false |}
          else
            let score := 0 + num 20 in
            let '(alignment, above, triple) :=
              trend_alignment (MA50 cur) (MA100 cur) ma200_ in
            let score := score + alignment in
            let slope := calculate_ma200_slope df 20 in
            let rising := ltb 0 slope in
            let score := if rising then score + num 10 else score in
            let crossover_info := detect_crossover df 7 in
            let dead := crossed_below_ma200 crossover_info in
            let score := if dead then score - num 20 else score in
            let '(bench_3m, bench_6m) := benchmark_returns in
            let stock_return_3m := calculate_stock_return df 60 in
            let rs_3m := stock_return_3m - bench_3m in
            let rs_3m_points := py_min (num 15) (py_max 0 (rs_3m * num 0.5)) in
            let score := score + rs_3m_points in
            let stock_return_6m := calculate_stock_return df 120 in
            let rs_6m := stock_return_6m - bench_6m in
            let rs_6m_points := py_min (num 15) (py_max 0 (rs_6m * num 0.5)) in
            let score := score + rs_6m_points in
            let distance_points := py_min (num 15) (distance * num 1.5) in
            let score := score + distance_points in
            let high := get_52_week_high df in
            let high_ok := match high with Some h => ltb 0 h | None => false end in
            let price_vs_high :=
              match high with
              | Some h => if ltb 0 h then current_price / h else 0
              | None => 0
              end in
            let score :=
              if high_ok
              then score + py_min (num 15) (price_vs_high * num 15)
              else score in
            let fundamentals := Fundamentals.fetch_fundamentals info ticker in
            let score :=
              if include_fundamentals
              then score + Fundamentals.quality_score fundamentals
              else score in
            let confirmation :=
              if use_indicator_confirmation
              then Some (indicator_confirmation df) else None in
            let score :=
              match confirmation with
              | Some (current_rsi, macd_info) =>
                  score + fst (rsi_points current_rsi) + macd_points macd_info
              | None => score
              end in
            {| ticker := ticker; score := py_round1 score;
               price := current_price;
               ma50 := MA50 cur; ma100 := MA100 cur; ma200 := Some ma200_;
               distance_ma200 := distance; ma50_above_ma200 := above;
               triple_ma_aligned := triple; ma200_rising := rising;
               relative_strength_3m := rs_3m; relative_strength_6m := rs_6m;
               price_vs_52w_high := price_vs_high;
               high_52w := if high_ok then from_option id 0 high else 0;
               death_cross := dead;
               days_since_death_cross :=
                 if dead then days_since_crossover crossover_info else None;
               revenue_growth :=
                 if include_fundamentals
                 then Fundamentals.revenue_growth fundamentals else None;
               profit_margin :=
                 if include_fundamentals
                 then Fundamentals.profit_margin fundamentals else None;
               roe :=
                 if include_fundamentals
                 then Fundamentals.roe fundamentals else None;
               quality_score :=
                 if include_fundamentals
                 then Fundamentals.quality_score fundamentals else 0;
               rsi :=
                 match confirmation with
                 | Some (current_rsi, _) =>
                     if isna current_rsi then None else Some current_rsi
                 | None => None
                 end;
               rsi_overbought :=
                 match confirmation with
                 | Some (current_rsi, _) => snd (rsi_points current_rsi)
                 | None => false
                 end;
               macd := snd <$> confirmation;
               macd_bearish_cross :=
                 match confirmation with
                 | Some (_, macd_info) => bearish_crossover macd_info
                 | None => false
                 end |}
      end
  end.

End Screener.

(** ** Functions of backtester.py *)

Module Backtester.
Import Calendar.

(** The body of the [while] loop of [generate_rebalance_dates] after the
    [append]: the next value of [current].  Any other frequency leaves
    [current] as it is. *)
Definition advance (frequency : string) (current : datetime) : res datetime :=
  if decide (frequency = "monthly"%string) then
    if (month current =? 12)%Z
    then replace (year current + 1) 1 current
    else replace (year current) (month current + 1) current
  else if decide (frequency = "weekly"%string) then add_days 7 current
  else Ok current.

(** [generate_rebalance_dates]: [fuel] bounds the iterations of the [while]
    loop; [None] is a loop that has not ended within it. *)
Fixpoint generate_from (fuel : nat) (frequency : string)
    (current end_ : datetime) : option (res (list datetime)) :=
  match fuel with
  | O => None
  | S fuel' =>
      if le current end_ then
        match advance frequency current with
        | Raise e => Some (Raise e)
        | Ok next =>
            match generate_from fuel' frequency next end_ with
            | Some (Ok dates) => Some (Ok (current :: dates))
            | other => other
            end
        end
      else Some (Ok [])
  end.

Definition generate_rebalance_dates (fuel : nat)
    (start_date end_date : datetime) (frequency : string)
    : option (res (list datetime)) :=
  generate_from fuel frequency start_date end_date.

(** The market data service behind [fetch_stock_data] and
    [fetch_fundamentals]: for each ticker its whole price history as known
    today (ascending by date; [None] when the request fails) and today's
    fundamentals. *)
Record provider := Provider {
  history : string → option (list MaCalculator.bar);
  info : string → option Fundamentals.stock_info
}.

(** [fetch_stock_data(ticker, period='max')]: [None] on an empty frame. *)
Definition fetch_stock_data (P : provider) (ticker : string)
    : option (list MaCalculator.bar) :=
  match history P ticker with
  | Some [] => None
  | other => other
  end.

(** [df[df.index <= as_of_date]] *)
Definition up_to (as_of_date : Z) (df : list MaCalculator.bar)
    : list MaCalculator.bar :=
  filter (λ b, (MaCalculator.Date b <= as_of_date)%Z) df.

(** [d[k] = v] on a dict kept in insertion order. *)
Fixpoint dict_set {V} (d : list (string * V)) (k : string) (v : V)
    : list (string * V) :=
  match d with
  | [] => [(k, v)]
  | (k', v') :: rest =>
      if decide (k = k') then (k, v) :: rest else (k', v') :: dict_set rest k v
  end.

Definition fetch_historical_snapshot (P : provider) (stocks : list string)
    (as_of_date : Z) : list (string * list MaCalculator.bar) :=
  foldl (λ stock_data ticker,
           match fetch_stock_data P ticker with
           | Some df =>
               let df := up_to as_of_date df in
               if (200 <=? length df)%nat
               then dict_set stock_data ticker df
               else stock_data
           | None => stock_data
           end)
        [] stocks.

(** [calculate_return].  Past the guard both reads succeed, except on an
    empty frame with [days = 0], where the code raises [IndexError]; the
    callers pass 60 and 120. *)
Definition calculate_return (df : list MaCalculator.bar) (days : nat) : Qc :=
  if (length df <? days)%nat then 0
  else
    match iloc_neg 1 df, iloc_minus days df with
    | Some cur, Some past =>
        (MaCalculator.Close cur - MaCalculator.Close past)
        / MaCalculator.Close past * num 100
    | _, _ => 0
    end.

(** [sort_values('score', ascending=False)], as a stable insertion sort:
    rows of equal score keep the order they had.  [insert_by_score] puts a
    row, which came before those of [l], in front of the first row whose
    score is not above its own. *)
Fixpoint insert_by_score (m : Screener.metrics) (l : list Screener.metrics)
    : list Screener.metrics :=
  match l with
  | [] => [m]
  | x :: rest =>
      if ltb (Screener.score m) (Screener.score x)
      then x :: insert_by_score m rest
      else m :: l
  end.

Definition sort_by_score (l : list Screener.metrics) : list Screener.metrics :=
  foldr insert_by_score [] l.

Definition screen_stocks_historical (P : provider)
    (stock_data : list (string * list MaCalculator.bar)) (as_of_date : Z)
    : list Screener.metrics :=
  let benchmark_returns :=
    match fetch_stock_data P "^OMX" with
    | None => (0, 0)
    | Some benchmark_data =>
        let benchmark_data := up_to as_of_date benchmark_data in
        (calculate_return benchmark_data 60, calculate_return benchmark_data 120)
    end in
  let results :=
    omap (λ '(ticker, df),
            let df := MaCalculator.calculate_ma50_ma200 df in
            let metrics :=
              Screener.calculate_stock_score (info P) ticker df
                benchmark_returns true false in
            if ltb 0 (Screener.score metrics) then Some metrics else None)
         stock_data in
  let df_results :=
    filter (λ m, ltb 0 (Screener.distance_ma200 m) = true) results in
  sort_by_score df_results.

(** [check_market_regime_historical]: the regime read off the index bars
    dated [as_of_date] or before. *)
Definition check_market_regime_historical (P : provider) (as_of_date : Z)
    : res string :=
  match fetch_stock_data P "^OMX" with
  | None => Ok "neutral"%string
  | Some index_data =>
      let index_data := up_to as_of_date index_data in
      if (length index_data <? 200)%nat then Ok "neutral"%string
      else
        let index_data := MaCalculator.calculate_ma50_ma200 index_data in
        match iloc_neg 1 index_data with
        | None => Raise IndexError
        | Some cur =>
            let current_price := MaCalculator.Close (MaCalculator.prices cur) in
            match MaCalculator.MA200 cur with
            | None => Ok "neutral"%string
            | Some ma200 =>
                Ok (if ltb ma200 current_price then "bull" else "bear")%string
            end
        end
  end.

(** Steps 3 and 6 of a rebalance at [rebal_date]: the snapshot, then the
    screening of it. *)
Definition screening_pass (P : provider) (stocks : list string)
    (rebal_date : Z) : list Screener.metrics :=
  screen_stocks_historical P
    (fetch_historical_snapshot P stocks rebal_date) rebal_date.

(** One entry of the equity curve. *)
Record equity_point := EquityPoint {
  date : Calendar.datetime;
  value : Qc;
  point_cash : Qc;
  point_holdings : nat;
  dividends : Qc
}.

(** [s.pct_change()]: NaN first, then value / previous - 1. *)
Definition pct_change (values : list Qc) : list (option Qc) :=
  match values with
  | [] => []
  | _ :: rest => None :: zip_with (λ prev cur, Some (cur / prev - 1)) values rest
  end.

(** [s.var()] (the square of [s.std()]): NaN cells are skipped, the
    divisor is n - 1, and fewer than two values give NaN. *)
Definition var (s : list (option Qc)) : option Qc :=
  let xs := omap id s in
  let n := length xs in
  if (n <? 2)%nat then None
  else
    let mean := sum_list xs / Qc_of_Z (Z.of_nat n) in
    Some (sum_list (map (λ x, (x - mean) * (x - mean)) xs)
          / Qc_of_Z (Z.of_nat (n - 1))).

(** The number under the square root in
    [df['returns'].std() * np.sqrt(12)]. *)
Definition annualization_periods : Qc := num 12.

(** [s.cummax()] *)
Fixpoint cummax_from (peak : Qc) (l : list Qc) : list Qc :=
  match l with
  | [] => []
  | x :: rest => let peak' := py_max peak x in peak' :: cummax_from peak' rest
  end.

Definition cummax (l : list Qc) : list Qc :=
  match l with
  | [] => []
  | x :: rest => x :: cummax_from x rest
  end.

(** The metrics of [calculate_performance_metrics] that need no root or
    power.  [volatility_squared] is the square of the value computed for
    the key ['volatility'] before its scaling by 100: the variance of the
    period returns times [annualization_periods]. *)
Record performance := Performance {
  total_return : Qc;
  price_return : Qc;
  dividend_return : Qc;
  max_drawdown : Qc;
  volatility_squared : option Qc;
  final_value : Qc
}.

(** [calculate_performance_metrics]; [None] is the empty dict returned for
    an empty curve.  The initial capital of a run is not zero: with a zero
    capital the code divides floats by zero, which is outside the model. *)
Definition calculate_performance_metrics (equity_curve : list equity_point)
    (initial_capital total_dividends total_isk_tax : Qc) : option performance :=
  match iloc_neg 1 equity_curve with
  | None => None
  | Some final =>
      let values := map value equity_curve in
      let final_value := value final in
      let drawdown :=
        zip_with (λ v peak, (v - peak) / peak * num 100) values (cummax values) in
      Some {| total_return :=
                (final_value - initial_capital) / initial_capital * num 100;
              price_return :=
                (final_value - total_dividends - initial_capital)
                / initial_capital * num 100;
              dividend_return := total_dividends / initial_capital * num 100;
              max_drawdown :=
                match drawdown with
                | [] => 0
                | d :: rest => foldl py_min d rest
                end;
              volatility_squared :=
                (λ v, v * annualization_periods) <$> var (pct_change values);
              final_value := final_value |}
  end.

(** The call that ends [backtest_strategy]: the metrics of the run.  The
    rebalance frequency of the run is not among the arguments passed on. *)
Definition backtest_strategy_metrics (rebalance_frequency : string)
    (equity_curve : list equity_point)
    (initial_capital total_dividends total_isk_tax : Qc) : option performance :=
  calculate_performance_metrics equity_curve initial_capital
    total_dividends total_isk_tax.

End Backtester.
(** ** Sizing functions of portfolio_manager.py *)

Module PortfolioManager.

(** [calculate_position_size]: (shares, actual weight in percent).  The
    divisions by [stock_price] and by [total_capital] raise
    [ZeroDivisionError] on a zero divisor. *)
Definition calculate_position_size
    (total_capital stock_price target_weight max_weight : Qc) : res (Z * Qc) :=
  let target_value := total_capital * (target_weight / num 100) in
  if decide (stock_price = 0) then Raise ZeroDivisionError
  else
    let shares := py_int (target_value / stock_price) in
    let actual_value := Qc_of_Z shares * stock_price in
    if decide (total_capital = 0) then Raise ZeroDivisionError
    else
      let actual_weight := actual_value / total_capital * num 100 in
      if ltb max_weight actual_weight then
        let max_value := total_capital * (max_weight / num 100) in
        let shares := py_int (max_value / stock_price) in
        let actual_weight := Qc_of_Z shares * stock_price / total_capital * num 100 in
        Ok (shares, actual_weight)
      else Ok (shares, actual_weight).

(** The [debug_info] dict of [calculate_position_size_atr]. *)
Inductive debug_info :=
| Fixed (atr : option Qc)
| Atr (atr risk_dollars stop_distance raw_weight constrained_weight : Qc)
      (constraint_applied : bool).

(** [calculate_position_size_atr]; a NaN [atr] is [None]. *)
Definition calculate_position_size_atr
    (total_capital stock_price : Qc) (atr : option Qc)
    (account_risk_pct atr_multiplier min_weight max_weight target_weight : Qc)
    : res (Z * Qc * debug_info) :=
  match atr with
  | Some atr_ =>
      if leb atr_ 0 then
        match calculate_position_size total_capital stock_price
                target_weight max_weight with
        | Ok (shares, actual_weight) => Ok (shares, actual_weight, Fixed atr)
        | Raise e => Raise e
        end
      else
        let risk_dollars := total_capital * (account_risk_pct / num 100) in
        let stop_distance := atr_ * atr_multiplier in
        if decide (stop_distance = 0) then Raise ZeroDivisionError
        else
          let position_dollars := risk_dollars / stop_distance * stock_price in
          if decide (total_capital = 0) then Raise ZeroDivisionError
          else
            let raw_weight := position_dollars / total_capital * num 100 in
            let constrained_weight :=
              py_max min_weight (py_min max_weight raw_weight) in
            if decide (stock_price = 0) then Raise ZeroDivisionError
            else
              let shares :=
                py_int (total_capital * constrained_weight / num 100 / stock_price) in
              let actual_weight :=
                Qc_of_Z shares * stock_price / total_capital * num 100 in
              Ok (shares, actual_weight,
                  Atr atr_ risk_dollars stop_distance raw_weight constrained_weight
                      (negb (bool_decide (raw_weight = constrained_weight))))
  | None =>
      match calculate_position_size total_capital stock_price
              target_weight max_weight with
      | Ok (shares, actual_weight) => Ok (shares, actual_weight, Fixed atr)
      | Raise e => Raise e
      end
  end.

(** [calculate_conviction_weight]: the target weight, in percent, of the
    stock of rank [stock_rank]. *)
Definition calculate_conviction_weight (stock_rank total_stocks : Z)
    (tier1_count : Z) (tier1_weight_pct : Qc)
    (tier2_count : Z) (tier2_weight_pct : Qc) (tier3_weight_pct : Qc)
    : res Qc :=
  if (stock_rank <=? tier1_count)%Z then
    if decide (tier1_count = 0%Z) then Raise ZeroDivisionError
    else Ok (tier1_weight_pct / Qc_of_Z tier1_count)
  else if (stock_rank <=? tier1_count + tier2_count)%Z then
    if decide (tier2_count = 0%Z) then Raise ZeroDivisionError
    else Ok (tier2_weight_pct / Qc_of_Z tier2_count)
  else
    let tier3_count := Z.max 1 (total_stocks - tier1_count - tier2_count) in
    Ok (tier3_weight_pct / Qc_of_Z tier3_count).

(** [calculate_position_size_conviction]: (shares, actual weight). *)
Definition calculate_position_size_conviction
    (total_capital stock_price conviction_weight max_weight : Qc)
    : res (Z * Qc) :=
  let target_weight := py_min conviction_weight max_weight in
  let position_value := total_capital * (target_weight / num 100) in
  if decide (stock_price = 0) then Raise ZeroDivisionError
  else
    let shares := py_int (position_value / stock_price) in
    if decide (total_capital = 0) then Raise ZeroDivisionError
    else Ok (shares, Qc_of_Z shares * stock_price / total_capital * num 100).

End PortfolioManager.

(** ** market_regime.py *)

Module MarketRegime.
Import MaCalculator.

(** [round(x, 2)] and [round(x, 1)] on a numpy float: an infinity or a NaN
    is returned as it is. *)
Definition py_round2 (x : Qc) : Qc :=
  Qc_of_Z (round_half_even (x * num 100)) / num 100.

Definition fround (round : Qc → Qc) (v : fval) : fval :=
  match v with Fin x => Fin (round x) | other => other end.

(** The index frame passed to [get_market_regime_dynamic]: rows with the
    columns Close, MA50 and MA200, and the two columns the function tests
    for.  The cell [MA100] of a row is read only when [has_MA100] holds;
    [ATR], when present, has one cell per row. *)
Record index_frame := IndexFrame {
  rows : list row;
  has_MA100 : bool;
  ATR : option (list (option Qc))
}.

(** A frame of the stock universe: with or without the MA columns. *)
Inductive universe_frame :=
| Raw (df : list bar)
| WithMA (df : list row).

Record regime_info := RegimeInfo {
  regime : string;
  regime_score : Qc;
  target_stocks : Z;
  description : string;
  index_vs_ma200 : fval;
  breadth_pct : Qc;
  volatility_percentile : fval;
  as_of_date : Z
}.

(** Factor 1: (points, index_vs_ma200).  [ma100] is [None] both for a
    missing column and for a NaN cell. *)
Definition index_factor (index_price : Qc) (ma50 ma100 ma200 : option Qc)
    : Qc * fval :=
  let index_vs_ma200 :=
    match ma200 with
    | Some m => fmul (fdiv (Fin (index_price - m)) (Fin m)) (Fin (num 100))
    | None => Fin 0
    end in
  let above := match ma200 with Some m => ltb m index_price | None => false end in
  let points :=
    if above then
      num 20 +
      match ma100, ma50, ma200 with
      | Some m100, Some m50, Some m200 =>
          if ltb m100 m50 && ltb m200 m100 then num 20
          else if ltb m200 m50 then num 10
          else 0
      | _, _, _ => 0
      end
    else if flt (Fin (- num 5)) index_vs_ma200 then num 5
    else 0 in
  (points, index_vs_ma200).

(** Factor 2, the loop: (stocks_above_ma200, total_stocks). *)
Definition count_breadth (stock_universe_data : list (string * universe_frame))
    : Z * Z :=
  foldl (λ '(stocks_above_ma200, total_stocks) '(ticker, frame),
           match frame with
           | Raw _ => (stocks_above_ma200, total_stocks)
           | WithMA df =>
               match iloc_neg 1 df with
               | None => (stocks_above_ma200, total_stocks)
               | Some cur =>
                   let current_price := Close (prices cur) in
                   match MA200 cur with
                   | Some stock_ma200 =>
                       if ltb stock_ma200 current_price
                       then (stocks_above_ma200 + 1, total_stocks + 1)%Z
                       else (stocks_above_ma200, total_stocks + 1)%Z
                   | None => (stocks_above_ma200, total_stocks + 1)%Z
                   end
               end
           end)
        (0%Z, 0%Z) stock_universe_data.

Definition breadth_points (breadth_pct : Qc) : Qc :=
  if ltb (num 70) breadth_pct then num 30
  else if ltb (num 50) breadth_pct then num 20
  else if ltb (num 30) breadth_pct then num 10
  else if ltb (num 15) breadth_pct then num 5
  else 0.

Definition volatility_points (volatility_pct : fval) : Qc :=
  if flt volatility_pct (Fin (num 30)) then num 30
  else if flt volatility_pct (Fin (num 50)) then num 20
  else if flt volatility_pct (Fin (num 70)) then num 10
  else if flt volatility_pct (Fin (num 85)) then num 5
  else 0.

(** The classification: (regime, target_stocks, description). *)
Definition classify (regime_score : Qc) : string * Z * string :=
  if leb (num 75) regime_score then
    ("STRONG_BULL", 80%Z,
     "Strong bull market - fully invested, maximum diversification")%string
  else if leb (num 55) regime_score then
    ("BULL", 60%Z, "Bull market - mostly invested, good diversification")%string
  else if leb (num 35) regime_score then
    ("NEUTRAL", 40%Z, "Neutral market - moderate positioning, selective")%string
  else if leb (num 20) regime_score then
    ("BEAR", 20%Z, "Bear market - defensive positioning, high quality only")%string
  else
    ("PANIC", 5%Z, "Panic/Crisis - capital preservation, minimal exposure")%string.

(** [get_market_regime_dynamic].  An empty index frame raises [IndexError]
    at the first [iloc[-1]].  The ATR column that the function adds to the
    index frame when it is missing is the one it then reads. *)
Definition get_market_regime_dynamic (index_data : index_frame)
    (stock_universe_data : list (string * universe_frame)) (as_of_date : Z)
    : res regime_info :=
  match iloc_neg 1 (rows index_data) with
  | None => Raise IndexError
  | Some cur =>
      let index_price := Close (prices cur) in
      let ma50 := MA50 cur in
      let ma100 := if has_MA100 index_data then MA100 cur else None in
      let ma200 := MA200 cur in
      let '(points1, index_vs_ma200) := index_factor index_price ma50 ma100 ma200 in
      let regime_score := 0 + points1 in
      let '(stocks_above_ma200, total_stocks) := count_breadth stock_universe_data in
      let breadth_pct :=
        if (0 <? total_stocks)%Z
        then Qc_of_Z stocks_above_ma200 / Qc_of_Z total_stocks * num 100
        else 0 in
      let regime_score := regime_score + breadth_points breadth_pct in
      let atr :=
        match ATR index_data with
        | Some column => column
        | None => calculate_atr (map prices (rows index_data)) 14
        end in
      match calculate_volatility_percentile (Some atr) 252 with
      | Raise e => Raise e
      | Ok volatility_pct =>
          let regime_score := regime_score + volatility_points volatility_pct in
          let '(regime, target_stocks, description) := classify regime_score in
          Ok {| regime := regime;
                regime_score := py_round1 regime_score;
                target_stocks := target_stocks;
                description := description;
                index_vs_ma200 := fround py_round2 index_vs_ma200;
                breadth_pct := py_round1 breadth_pct;
                volatility_percentile := fround py_round1 volatility_pct;
                as_of_date := as_of_date |}
      end
  end.

End MarketRegime.

(** ** Vocabulary of the statements *)

(** The bars of a ticker dated [as_of_date] or before, as the provider
    knows them. *)
Definition known_bars (P : Backtester.provider) (as_of_date : Z)
    (ticker : string) : list MaCalculator.bar :=
  Backtester.up_to as_of_date (default [] (Backtester.history P ticker)).

(** ** Concrete runs *)

(** A portfolio holding ten shares of a ticker that has no quote. *)
Definition unquoted_portfolio : Portfolio.t :=
  Portfolio.set_holdings {[ "SAAB-B.ST"%string := Portfolio.Position 10 (num 400) ]}
    (Portfolio.init (num 1000)).

(** A run that reaches a drawdown of exactly 12 percent: 100 shares bought
    at 250 out of 100,000, then quoted at 130.625. *)
Definition drawdown_portfolio : Portfolio.t :=
  snd (Portfolio.buy "VOLV-B.ST" (num 25000) (num 250) (num 0.0025)
         (Portfolio.init (num 100000))).

Definition drawdown_prices : gmap string Qc :=
  {[ "VOLV-B.ST"%string := num 130.625 ]}.

(** A bar whose four prices are the close. *)
Definition flat_bar (d : Z) (c : Qc) : MaCalculator.bar :=
  MaCalculator.Bar d c c c c 0.

(** Daily bars dated 1, 2, ... for a list of closes. *)
Definition bars_of (closes : list Qc) : list MaCalculator.bar :=
  imap (λ i c, flat_bar (Z.of_nat i + 1) c) closes.

(** A long base at 200, a leg down to 100, a thirteen-day rebound to 300
    and a one-day dip under the 200-day average on the day before last.
    The first bar carries an intraday high of 10,000. *)
Definition whipsaw_closes : list Qc :=
  replicate 150 (num 200) ++ replicate 38 (num 100)
  ++ replicate 13 (num 300) ++ [num 180; num 188].

Definition whipsaw_bars : list MaCalculator.bar :=
  match bars_of whipsaw_closes with
  | [] => []
  | b :: rest =>
      MaCalculator.Bar (MaCalculator.Date b) (MaCalculator.Open b) (num 10000)
        (MaCalculator.Low b) (MaCalculator.Close b) (MaCalculator.Volume b)
      :: rest
  end.

(** Two hundred closes rising by one a day from 100. *)
Definition rising_closes : list Qc :=
  map (λ i, Qc_of_Z (100 + Z.of_nat i)) (seq 0 200).

(** Fifteen equal closes. *)
Definition flat_closes : list Qc := replicate 15 (num 100).

Definition no_info : string → option Fundamentals.stock_info := λ _, None.

(** The equity curve of a weekly run: three consecutive Mondays. *)
Definition weekly_curve : list Backtester.equity_point :=
  [ Backtester.EquityPoint (Calendar.Datetime 2024 1 1) (num 100000) (num 100000) 0 0;
    Backtester.EquityPoint (Calendar.Datetime 2024 1 8) (num 110000) (num 5000) 40 0;
    Backtester.EquityPoint (Calendar.Datetime 2024 1 15) (num 99000) (num 5000) 40 0 ].

(** The same price history of one ticker up to day 200, seen through the
    provider at two moments: on day 200, and ten trading days and one
    earnings report later (revenue growth of 20 percent). *)
Definition later_closes : list Qc :=
  rising_closes ++ replicate 10 (num 50).

Definition provider_on_day_200 : Backtester.provider :=
  Backtester.Provider
    (λ ticker, if decide (ticker = "VOLV-B.ST"%string)
               then Some (bars_of rising_closes) else None)
    no_info.

Definition provider_later : Backtester.provider :=
  Backtester.Provider
    (λ ticker, if decide (ticker = "VOLV-B.ST"%string)
               then Some (bars_of later_closes) else None)
    (λ ticker, if decide (ticker = "VOLV-B.ST"%string)
               then Some (Fundamentals.StockInfo (Some (num 0.20))
                            None None None None None None)
               else None).

(** A portfolio that already holds 100 shares bought at 250. *)
Definition held_portfolio : Portfolio.t :=
  snd (Portfolio.buy "VOLV-B.ST" (num 25000) (num 250) (num 0.0025)
         (Portfolio.init (num 100000))).


(** What a pass of [collect_dividends] keeps true of the running pair of
    the amount collected and the portfolio, against the portfolio [p] it
    started from. *)
Definition dividends_booked (p : Portfolio.t) (r : Qc * Portfolio.t) : Prop :=
  Portfolio.cash r.2 - r.1 = Portfolio.cash p ∧
  Portfolio.total_dividends r.2 - r.1 = Portfolio.total_dividends p ∧
  Portfolio.holdings r.2 = Portfolio.holdings p ∧
  Portfolio.total_isk_tax r.2 = Portfolio.total_isk_tax p ∧
  Portfolio.initial_capital r.2 = Portfolio.initial_capital p.


(** The provider of day 200 ten trading days later, with no earnings
    report in between: more bars, the same fundamentals. *)
Definition provider_later_prices : Backtester.provider :=
  Backtester.Provider
    (λ ticker, if decide (ticker = "VOLV-B.ST"%string)
               then Some (bars_of later_closes) else None)
    no_info.

(** The dynamic regime as a rebalance of day 200 computes it: the index
    frame with its moving averages, and the raw frames of the snapshot as
    the universe. *)
Definition snapshot_regime : MarketRegime.regime_info :=
  match MarketRegime.get_market_regime_dynamic
          (MarketRegime.IndexFrame
             (MaCalculator.calculate_ma50_ma200 (bars_of rising_closes)) true None)
          (prod_map id MarketRegime.Raw
             <$> Backtester.fetch_historical_snapshot provider_on_day_200
                   ["VOLV-B.ST"%string] 200)
          200 with
  | Ok info => info
  | Raise _ => MarketRegime.RegimeInfo "" 0 0 "" NaN 0 NaN 0
  end.
(** * Properties *)

(** ** Arithmetic on [Qc] *)

Ltac qc_unfold :=
  unfold Qcle, Qclt, Qcplus, Qcmult, Qcminus, Qcopp, Qcdiv, Qcinv, num, Q2Qc, Qc_of_Z in *;
  simpl this in *;
  rewrite ?Qred_correct in *.

Lemma ltb_lt (x y : Qc) : ltb x y = true ↔ x < y.
Proof. unfold ltb. rewrite Qclt_alt. destruct (x ?= y); split; congruence. Qed.

Lemma ltb_ge (x y : Qc) : ltb x y = false ↔ y <= x.
Proof.
  rewrite Qcle_ngt, <- ltb_lt. destruct (ltb x y); split; congruence.
Qed.

Lemma leb_le (x y : Qc) : leb x y = true ↔ x <= y.
Proof. unfold leb. rewrite Qcle_alt. destruct (x ?= y); split; congruence. Qed.

Lemma leb_gt (x y : Qc) : leb x y = false ↔ y < x.
Proof.
  rewrite Qclt_nge, <- leb_le. destruct (leb x y); split; congruence.
Qed.

Ltac qc_eq := apply Qc_is_canon; vm_compute; reflexivity.

Lemma Qcdiv_nonneg (a b : Qc) : 0 <= a → 0 <= b → 0 <= a / b.
Proof.
  intros Ha Hb. qc_unfold.
  apply Qmult_le_0_compat; [done|].
  by apply Qinv_le_0_compat.
Qed.

Lemma Qcdiv_pos (a b : Qc) : 0 < a → 0 < b → 0 < a / b.
Proof.
  intros Ha Hb. qc_unfold.
  apply Qmult_lt_0_compat; [done|].
  by apply Qinv_lt_0_compat.
Qed.

Lemma Qcmult_pos (a b : Qc) : 0 < a → 0 < b → 0 < a * b.
Proof. intros Ha Hb. qc_unfold. by apply Qmult_lt_0_compat. Qed.

Lemma Qcmult_nonneg (a b : Qc) : 0 <= a → 0 <= b → 0 <= a * b.
Proof. intros Ha Hb. qc_unfold. by apply Qmult_le_0_compat. Qed.

Lemma Qcminus_nonneg (a b : Qc) : b <= a → 0 <= a - b.
Proof. intros H. qc_unfold. lra. Qed.

(** [int] and [floor] reject the same quotients: both are at most zero
    exactly when the quotient is below one. *)
Lemma py_int_nonpos_iff_floor (x : Qc) : (py_int x <= 0 ↔ floor x <= 0)%Z.
Proof.
  unfold py_int, floor, Qfloor. destruct x as [[n d] Hc]. simpl.
  destruct (Z_lt_le_dec n 0) as [Hn|Hn].
  - split; intros _.
    + pose proof (Z.div_lt_upper_bound n (Z.pos d) 0 ltac:(lia) ltac:(lia)). lia.
    + pose proof (Z.quot_opp_l n (Z.pos d) ltac:(lia)) as Ho.
      pose proof (Z.quot_pos (- n) (Z.pos d) ltac:(lia) ltac:(lia)). lia.
  - by rewrite Z.quot_div_nonneg by lia.
Qed.

(** ** Portfolio valuation *)

Section Valuation.
Context (prices : gmap string Qc).

Lemma holdings_value_empty : Portfolio.holdings_value prices ∅ = 0.
Proof. unfold Portfolio.holdings_value. by rewrite map_fold_empty. Qed.

Lemma holdings_value_insert (h : gmap string Portfolio.position) ticker pos :
  h !! ticker = None →
  Portfolio.holdings_value prices (<[ticker := pos]> h)
  = Portfolio.holdings_value prices h
    + Qc_of_Z (Portfolio.shares pos) * Portfolio.price_or_zero prices ticker.
Proof.
  intros Hfresh. unfold Portfolio.holdings_value.
  rewrite map_fold_insert_L; [done| |done].
  intros. ring.
Qed.

Lemma holdings_value_delete (h : gmap string Portfolio.position) ticker pos :
  h !! ticker = Some pos →
  Portfolio.holdings_value prices h
  = Portfolio.holdings_value prices (delete ticker h)
    + Qc_of_Z (Portfolio.shares pos) * Portfolio.price_or_zero prices ticker.
Proof.
  intros Hheld. unfold Portfolio.holdings_value.
  rewrite (map_fold_delete_L _ _ ticker pos h); [done| |done].
  intros. ring.
Qed.

End Valuation.

(** Dropping every position that has no quote leaves the valuation
    unchanged. *)
Lemma holdings_value_quoted_only (prices : gmap string Qc)
    (h : gmap string Portfolio.position) :
  Portfolio.holdings_value prices
    (filter (λ kv, is_Some (prices !! kv.1)) h)
  = Portfolio.holdings_value prices h.
Proof.
  induction h as [|ticker pos h Hfresh IH] using map_ind.
  - by rewrite map_filter_empty.
  - rewrite holdings_value_insert by done.
    destruct (prices !! ticker) as [q|] eqn:Hq.
    + rewrite map_filter_insert_True by (simpl; rewrite Hq; eauto).
      rewrite holdings_value_insert.
      * by rewrite IH.
      * rewrite map_lookup_filter_None. by left.
    + rewrite map_filter_insert_not by (simpl; intros y; rewrite Hq; by inversion 1).
      rewrite IH. unfold Portfolio.price_or_zero. rewrite Hq. simpl. ring.
Qed.

(** C10.  [get_total_value] is the cash plus one term [shares * price] per
    held ticker: it is the cash alone without holdings, a new position adds
    its shares times its quote, and a held ticker without a quote adds
    exactly zero, so that the total is that of the quoted positions only. *)
Theorem get_total_value_unquoted_is_zero (prices : gmap string Qc)
    (p : Portfolio.t) :
  (Portfolio.holdings p = ∅ →
     Portfolio.get_total_value prices p = Portfolio.cash p) ∧
  (∀ ticker pos, Portfolio.holdings p !! ticker = None →
     Portfolio.get_total_value prices
       (Portfolio.set_holdings (<[ticker := pos]> (Portfolio.holdings p)) p)
     = Portfolio.get_total_value prices p
       + Qc_of_Z (Portfolio.shares pos) * default 0 (prices !! ticker)) ∧
  (∀ ticker pos, Portfolio.holdings p !! ticker = Some pos →
     prices !! ticker = None →
     Portfolio.get_total_value prices p
     = Portfolio.get_total_value prices
         (Portfolio.set_holdings (delete ticker (Portfolio.holdings p)) p)) ∧
  Portfolio.get_total_value prices p
  = Portfolio.cash p
    + Portfolio.holdings_value prices
        (filter (λ kv, is_Some (prices !! kv.1)) (Portfolio.holdings p)).
Proof.
  unfold Portfolio.get_total_value. repeat split.
  - intros ->. rewrite holdings_value_empty. ring.
  - intros ticker pos Hfresh. simpl.
    rewrite holdings_value_insert by done.
    unfold Portfolio.price_or_zero. ring.
  - intros ticker pos Hheld Hquote. simpl.
    rewrite (holdings_value_delete prices _ ticker pos) by done.
    unfold Portfolio.price_or_zero. rewrite Hquote. simpl. ring.
  - by rewrite holdings_value_quoted_only.
Qed.

Lemma get_total_value_unquoted_is_zero_witness :
  Portfolio.holdings unquoted_portfolio !! "SAAB-B.ST"%string
    = Some (Portfolio.Position 10 (num 400)) ∧
  (∅ : gmap string Qc) !! "SAAB-B.ST"%string = None ∧
  Portfolio.get_total_value ∅ unquoted_portfolio
  = Portfolio.get_total_value ∅
      (Portfolio.set_holdings
         (delete "SAAB-B.ST"%string (Portfolio.holdings unquoted_portfolio))
         unquoted_portfolio).
Proof.
  split; [reflexivity|]. split; [reflexivity|].
  apply (proj1 (proj2 (proj2 (get_total_value_unquoted_is_zero ∅ unquoted_portfolio)))
           "SAAB-B.ST"%string (Portfolio.Position 10 (num 400)));
    reflexivity.
Defined.

(** ** Trades *)

(** C2 as stated: the cash after Scenario 1 would be 74,375.00. *)
Lemma scenario_1_cash_is_not_74375 :
  ¬ (let r := Portfolio.buy "VOLV-B.ST" (num 25000) (num 250) (num 0.0025)
                (Portfolio.init (num 100000)) in
     fst r = Ok true ∧
     Portfolio.holdings (snd r) !! "VOLV-B.ST"%string
       = Some (Portfolio.Position 100 (num 250)) ∧
     Portfolio.cash (snd r) = num 100000 - num 100 * num 250 * num 1.0025 ∧
     Portfolio.cash (snd r) = num 74375).
Proof.
  intros (_ & _ & _ & Hcash).
  apply (f_equal (λ x : Qc, Qnum x)) in Hcash. vm_compute in Hcash. discriminate.
Qed.

(** C2, amended.  From a cash of 100,000, [buy] with amount 25,000, price 250
    and cost rate 0.0025 succeeds, the holding is 100 shares at an average
    cost of 250, and the cash left is 100,000 − 100×250×1.0025, which is
    74,937.50. *)
Theorem scenario_1_buy_leaves_74937_50 :
  let r := Portfolio.buy "VOLV-B.ST" (num 25000) (num 250) (num 0.0025)
             (Portfolio.init (num 100000)) in
  fst r = Ok true ∧
  Portfolio.holdings (snd r) !! "VOLV-B.ST"%string
    = Some (Portfolio.Position 100 (num 250)) ∧
  Portfolio.cash (snd r) = num 100000 - num 100 * num 250 * num 1.0025 ∧
  Portfolio.cash (snd r) = num 74937.5.
Proof.
  split; [reflexivity|]. split; [|split].
  - vm_compute. f_equal.
  - qc_eq.
  - qc_eq.
Qed.

(** C8.  Invalid trades are rejected whole: [buy] returns false and leaves
    the portfolio as it was when amount×(1+cost_rate) exceeds the cash or
    when floor(amount/price) is not positive, [sell] returns false and leaves
    the portfolio as it was when the ticker is not held, and a trade is either
    carried out in full (position and cash both updated) or not at all. *)
Theorem invalid_trades_rejected_atomically (ticker : string)
    (amount price cost_rate : Qc) (p : Portfolio.t) :
  (Portfolio.cash p < amount * (1 + cost_rate) ∨
   (price ≠ 0 ∧ (floor (amount / price) <= 0)%Z) →
     Portfolio.buy ticker amount price cost_rate p = (Ok false, p)) ∧
  (Portfolio.holdings p !! ticker = None →
     Portfolio.sell ticker price cost_rate p = (false, p)) ∧
  ((fst (Portfolio.buy ticker amount price cost_rate p) = Ok true ∧
    Portfolio.cash (snd (Portfolio.buy ticker amount price cost_rate p))
    = Portfolio.cash p
      - Qc_of_Z (py_int (amount / price)) * price * (1 + cost_rate) ∧
    ∃ pos,
      Portfolio.holdings (snd (Portfolio.buy ticker amount price cost_rate p))
      = <[ticker := pos]> (Portfolio.holdings p) ∧
      Portfolio.shares pos
      = (from_option Portfolio.shares 0 (Portfolio.holdings p !! ticker)
         + py_int (amount / price))%Z)
   ∨ (fst (Portfolio.buy ticker amount price cost_rate p) ≠ Ok true ∧
      snd (Portfolio.buy ticker amount price cost_rate p) = p)) ∧
  ((fst (Portfolio.sell ticker price cost_rate p) = true ∧
    ∃ held, Portfolio.holdings p !! ticker = Some held ∧
      Portfolio.cash (snd (Portfolio.sell ticker price cost_rate p))
      = Portfolio.cash p
        + Qc_of_Z (Portfolio.shares held) * price * (1 - cost_rate) ∧
      Portfolio.holdings (snd (Portfolio.sell ticker price cost_rate p))
      = delete ticker (Portfolio.holdings p))
   ∨ (fst (Portfolio.sell ticker price cost_rate p) = false ∧
      snd (Portfolio.sell ticker price cost_rate p) = p)).
Proof.
  split; [|split; [|split]].
  - intros [Hcash|[Hprice Hfloor]]; unfold Portfolio.buy.
    + apply ltb_lt in Hcash. by rewrite Hcash.
    + destruct (ltb _ _); [done|].
      destruct (decide (price = 0)); [done|].
      apply py_int_nonpos_iff_floor, Z.leb_le in Hfloor. by rewrite Hfloor.
  - intros Hheld. unfold Portfolio.sell. by rewrite Hheld.
  - unfold Portfolio.buy.
    destruct (ltb _ _); [by right|].
    destruct (decide (price = 0)); [by right|].
    destruct (_ <=? 0)%Z; [by right|].
    destruct (Portfolio.holdings p !! ticker) as [held|] eqn:Hheld; simpl.
    + destruct (decide _); [by right|]. left. simpl. eauto.
    + left. simpl. eauto.
  - unfold Portfolio.sell.
    destruct (Portfolio.holdings p !! ticker) as [held|] eqn:Hheld; simpl.
    + left. eauto.
    + by right.
Qed.

Lemma invalid_trades_rejected_atomically_witness :
  (Portfolio.cash (Portfolio.init (num 1000)) < num 2000 * (1 + num 0.0025) ∧
   Portfolio.buy "ABB.ST" (num 2000) (num 250) (num 0.0025)
     (Portfolio.init (num 1000)) = (Ok false, Portfolio.init (num 1000))) ∧
  (num 250 ≠ 0 ∧ (floor (num 100 / num 250) <= 0)%Z ∧
   Portfolio.buy "ABB.ST" (num 100) (num 250) (num 0.0025)
     (Portfolio.init (num 1000)) = (Ok false, Portfolio.init (num 1000))) ∧
  (Portfolio.holdings (Portfolio.init (num 1000)) !! "ABB.ST"%string = None ∧
   Portfolio.sell "ABB.ST" (num 250) (num 0.0025)
     (Portfolio.init (num 1000)) = (false, Portfolio.init (num 1000))).
Proof.
  split; [|split].
  - split; [reflexivity|].
    apply (proj1 (invalid_trades_rejected_atomically
                    "ABB.ST" (num 2000) (num 250) (num 0.0025)
                    (Portfolio.init (num 1000)))).
    left. reflexivity.
  - split; [discriminate|]. split; [vm_compute; discriminate|].
    apply (proj1 (invalid_trades_rejected_atomically
                    "ABB.ST" (num 100) (num 250) (num 0.0025)
                    (Portfolio.init (num 1000)))).
    right. split; [discriminate|vm_compute; discriminate].
  - split; [reflexivity|].
    apply (proj1 (proj2 (invalid_trades_rejected_atomically
                    "ABB.ST" (num 100) (num 250) (num 0.0025)
                    (Portfolio.init (num 1000))))).
    reflexivity.
Defined.

(** ** ISK tax *)

(** C5.  [pay_isk_tax] charges max(0, value − threshold) × rate, debits
    exactly that from the cash and adds it to the tax paid; at or below the
    threshold it charges nothing and changes nothing; the parameters of 2026
    are rate 0.01065 and threshold 300,000, for which a value of 400,000 is
    taxed 1,065. *)
Theorem pay_isk_tax_charges_flat_rate (value : Qc) (year : Z) (p : Portfolio.t) :
  let rate := fst (Portfolio.isk_parameters year) in
  let threshold := snd (Portfolio.isk_parameters year) in
  let tax := fst (Portfolio.pay_isk_tax value year p) in
  let p' := snd (Portfolio.pay_isk_tax value year p) in
  tax = py_max 0 (value - threshold) * rate ∧
  Portfolio.cash p' = Portfolio.cash p - tax ∧
  Portfolio.total_isk_tax p' = Portfolio.total_isk_tax p + tax ∧
  Portfolio.holdings p' = Portfolio.holdings p ∧
  (value <= threshold → tax = 0 ∧ p' = p) ∧
  Portfolio.isk_parameters 2026 = (num 0.01065, num 300000) ∧
  fst (Portfolio.pay_isk_tax (num 400000) 2026 p) = num 1065.
Proof.
  unfold Portfolio.pay_isk_tax.
  destruct (Portfolio.isk_parameters year) as [rate threshold] eqn:Hpar. simpl.
  assert (Hmax : py_max 0 (value - threshold)
                 = if leb value threshold then 0 else value - threshold).
  { unfold py_max.
    destruct (leb value threshold) eqn:Hle.
    - apply leb_le in Hle.
      destruct (ltb 0 (value - threshold)) eqn:Hlt; [|done].
      apply ltb_lt in Hlt. exfalso. qc_unfold. lra.
    - apply leb_gt in Hle.
      destruct (ltb 0 (value - threshold)) eqn:Hlt; [done|].
      apply ltb_ge in Hlt. exfalso. qc_unfold. lra. }
  rewrite Hmax.
  destruct (leb value threshold) eqn:Hle; simpl.
  - split; [ring|]. split; [ring|]. split; [ring|]. split; [done|].
    split; [done|]. split; [done|]. qc_eq.
  - split; [ring|]. split; [done|]. split; [done|]. split; [done|].
    split; [|split; [done|qc_eq]].
    intros Hle'. apply leb_gt in Hle. exfalso. qc_unfold. lra.
Qed.

Lemma pay_isk_tax_charges_flat_rate_witness :
  num 100000 <= snd (Portfolio.isk_parameters 2025) ∧
  fst (Portfolio.pay_isk_tax (num 100000) 2025 (Portfolio.init (num 100000))) = 0 ∧
  snd (Portfolio.pay_isk_tax (num 100000) 2025 (Portfolio.init (num 100000)))
  = Portfolio.init (num 100000).
Proof.
  assert (H : num 100000 <= snd (Portfolio.isk_parameters 2025))
    by (vm_compute; discriminate).
  split; [exact H|].
  exact (proj1 (proj2 (proj2 (proj2 (proj2
           (pay_isk_tax_charges_flat_rate (num 100000) 2025
              (Portfolio.init (num 100000))))))) H).
Defined.

(** ** Drawdown *)

Lemma buy_peak_value ticker amount price tc p :
  Portfolio.peak_value (snd (Portfolio.buy ticker amount price tc p))
  = Portfolio.peak_value p.
Proof.
  unfold Portfolio.buy.
  repeat (case_match; simpl; try done).
Qed.

Lemma sell_peak_value ticker price tc p :
  Portfolio.peak_value (snd (Portfolio.sell ticker price tc p))
  = Portfolio.peak_value p.
Proof. unfold Portfolio.sell. by case_match. Qed.

Lemma sell_all_peak_value prices tc p :
  Portfolio.peak_value (Portfolio.sell_all prices tc p) = Portfolio.peak_value p.
Proof.
  unfold Portfolio.sell_all.
  generalize (map fst (map_to_list (Portfolio.holdings p))). intros tickers.
  revert p. induction tickers as [|ticker tickers IH]; intros p; simpl; [done|].
  rewrite IH. case_match; [apply sell_peak_value|done].
Qed.

Lemma collect_dividends_peak_value data s e p :
  Portfolio.peak_value (snd (Portfolio.collect_dividends data s e p))
  = Portfolio.peak_value p.
Proof.
  unfold Portfolio.collect_dividends.
  generalize (map_to_list (Portfolio.holdings p)). intros held.
  generalize (0 : Qc) as acc. revert p.
  induction held as [|[ticker pos] held IH]; intros p acc; simpl; [done|].
  destruct (data !! ticker) as [dividends|]; [|apply IH].
  generalize (filter (λ ev, (s <? ev.1)%Z && (ev.1 <=? e)%Z) dividends).
  intros events. revert p acc.
  induction events as [|ev events IHev]; intros p acc; simpl; [apply IH|].
  by rewrite IHev.
Qed.

Lemma pay_isk_tax_peak_value value year p :
  Portfolio.peak_value (snd (Portfolio.pay_isk_tax value year p))
  = Portfolio.peak_value p.
Proof.
  unfold Portfolio.pay_isk_tax.
  destruct (Portfolio.isk_parameters year). by case_match.
Qed.

Lemma get_drawdown_adjustment_peak_value prices p :
  Portfolio.peak_value p
  <= Portfolio.peak_value (snd (Portfolio.get_drawdown_adjustment prices p)).
Proof.
  unfold Portfolio.get_drawdown_adjustment.
  set (current_value := Portfolio.get_total_value prices p).
  set (p1 := if ltb (Portfolio.peak_value p) current_value
             then Portfolio.set_peak_value current_value p else p).
  assert (Hp1 : Portfolio.peak_value p <= Portfolio.peak_value p1).
  { subst p1. destruct (ltb (Portfolio.peak_value p) current_value) eqn:Hnew.
    - by apply ltb_lt, Qclt_le_weak in Hnew.
    - apply Qcle_refl. }
  destruct (decide (Portfolio.peak_value p1 = 0)); [done|].
  by destruct (Portfolio.drawdown_band _).
Qed.

(** The high-water mark never decreases, whatever method mutates the
    portfolio. *)
Lemma step_peak_value_monotone p p' :
  Portfolio.step p p' → Portfolio.peak_value p <= Portfolio.peak_value p'.
Proof.
  destruct 1.
  - rewrite buy_peak_value. apply Qcle_refl.
  - rewrite sell_peak_value. apply Qcle_refl.
  - rewrite sell_all_peak_value. apply Qcle_refl.
  - rewrite collect_dividends_peak_value. apply Qcle_refl.
  - rewrite pay_isk_tax_peak_value. apply Qcle_refl.
  - apply get_drawdown_adjustment_peak_value.
Qed.

Lemma reachable_peak_value_pos p :
  Portfolio.reachable p → 0 < Portfolio.peak_value p.
Proof.
  induction 1 as [capital Hpos|p p' _ IH Hstep]; [done|].
  eapply Qclt_le_trans; [exact IH|]. by apply step_peak_value_monotone.
Qed.

Lemma ltb_num_false (x : Qc) (a b : Q) :
  (a <= b)%Q → ltb x (num b) = false → ltb x (num a) = false.
Proof.
  intros Hab. rewrite !ltb_ge. intros H. qc_unfold. lra.
Qed.

Lemma ltb_num_true (x : Qc) (a b : Q) :
  (a <= b)%Q → ltb x (num a) = true → ltb x (num b) = true.
Proof.
  intros Hab. rewrite !ltb_lt. intros H. qc_unfold. lra.
Qed.

Lemma drawdown_band_cases (dd : Qc) :
  let mult := fst (Portfolio.drawdown_band dd) in
  (dd < num 5 → mult = num 1.00) ∧
  (num 5 <= dd → dd < num 10 → mult = num 0.85) ∧
  (num 10 <= dd → dd < num 15 → mult = num 0.70) ∧
  (num 15 <= dd → dd < num 20 → mult = num 0.60) ∧
  (num 20 <= dd → mult = num 0.50) ∧
  num 0.50 <= mult ∧
  (dd = num 12 → Portfolio.drawdown_band dd = (num 0.70, "REDUCE"%string)).
Proof.
  assert (Hle : ∀ a b : Q, Qle_bool a b = true → (a <= b)%Q)
    by (intros a b; apply Qle_bool_iff).
  unfold Portfolio.drawdown_band. simpl.
  split; [|split; [|split; [|split; [|split; [|split]]]]].
  - intros H%ltb_lt. rewrite H. simpl. qc_eq.
  - intros H5%ltb_ge H10%ltb_lt. rewrite H5, H10. simpl. qc_eq.
  - intros H10%ltb_ge H15%ltb_lt.
    rewrite (ltb_num_false dd 5 10), H10, H15 by (done || by apply Hle).
    simpl. qc_eq.
  - intros H15%ltb_ge H20%ltb_lt.
    rewrite (ltb_num_false dd 5 15), (ltb_num_false dd 10 15), H15, H20
      by (done || by apply Hle).
    simpl. qc_eq.
  - intros H20%ltb_ge.
    rewrite (ltb_num_false dd 5 20), (ltb_num_false dd 10 20),
      (ltb_num_false dd 15 20), H20 by (done || by apply Hle).
    simpl. qc_eq.
  - repeat case_match; simpl; vm_compute; discriminate.
  - intros ->. apply injective_projections; [qc_eq|reflexivity].
Qed.

(** C4.  On every reachable portfolio [get_drawdown_adjustment] returns; the
    peak afterwards is at least the peak before, the drawdown returned is
    not negative, the multiplier is the band value of that drawdown (1.00
    below 5, 0.85 below 10, 0.70 below 15, 0.60 below 20, else 0.50) and is
    never below 0.50; a drawdown of 12 gives 0.70 and "REDUCE". *)
Theorem drawdown_adjustment_invariants (prices : gmap string Qc) (p : Portfolio.t) :
  Portfolio.reachable p →
  ∃ dd mult risk p',
    Portfolio.get_drawdown_adjustment prices p = (Ok (dd, mult, risk), p') ∧
    Portfolio.peak_value p <= Portfolio.peak_value p' ∧
    0 <= dd ∧
    (dd < num 5 → mult = num 1.00) ∧
    (num 5 <= dd → dd < num 10 → mult = num 0.85) ∧
    (num 10 <= dd → dd < num 15 → mult = num 0.70) ∧
    (num 15 <= dd → dd < num 20 → mult = num 0.60) ∧
    (num 20 <= dd → mult = num 0.50) ∧
    num 0.50 <= mult ∧
    (dd = num 12 → mult = num 0.70 ∧ risk = "REDUCE"%string).
Proof.
  intros Hreach.
  pose proof (reachable_peak_value_pos p Hreach) as Hpeak.
  pose proof (get_drawdown_adjustment_peak_value prices p) as Hmono.
  revert Hmono. unfold Portfolio.get_drawdown_adjustment.
  set (current_value := Portfolio.get_total_value prices p).
  set (p1 := if ltb (Portfolio.peak_value p) current_value
             then Portfolio.set_peak_value current_value p else p).
  assert (Hcur : current_value <= Portfolio.peak_value p1).
  { subst p1. destruct (ltb (Portfolio.peak_value p) current_value) eqn:Hnew.
    - apply Qcle_refl.
    - by apply ltb_ge in Hnew. }
  assert (Hpos : 0 < Portfolio.peak_value p1).
  { subst p1. destruct (ltb (Portfolio.peak_value p) current_value) eqn:Hnew;
      [|done].
    apply ltb_lt in Hnew. simpl. by eapply Qclt_trans. }
  destruct (decide (Portfolio.peak_value p1 = 0)) as [Hzero|_].
  { rewrite Hzero in Hpos. by apply Qclt_not_eq in Hpos. }
  set (dd := (Portfolio.peak_value p1 - current_value)
             / Portfolio.peak_value p1 * num 100).
  pose proof (drawdown_band_cases dd) as Hband. cbv zeta in Hband.
  destruct (Portfolio.drawdown_band dd) as [mult risk] eqn:Heq.
  cbn [fst snd] in *. intros Hmono.
  exists dd, mult, risk, p1. split; [done|]. split; [done|].
  split.
  { subst dd. apply Qcmult_nonneg; [|vm_compute; discriminate].
    apply Qcdiv_nonneg; [by apply Qcminus_nonneg|by apply Qclt_le_weak]. }
  destruct Hband as (H1 & H2 & H3 & H4 & H5 & H6 & H7).
  repeat (split; [done|]).
  intros H12. specialize (H7 H12). by inversion H7.
Qed.

Lemma drawdown_portfolio_reachable : Portfolio.reachable drawdown_portfolio.
Proof.
  eapply Portfolio.reachable_step;
    [apply (Portfolio.reachable_init (num 100000)); reflexivity|].
  apply Portfolio.step_buy.
Defined.

Lemma drawdown_adjustment_invariants_witness :
  ∃ dd mult risk p',
    Portfolio.get_drawdown_adjustment drawdown_prices drawdown_portfolio
    = (Ok (dd, mult, risk), p') ∧
    Portfolio.peak_value drawdown_portfolio <= Portfolio.peak_value p' ∧
    0 <= dd ∧
    (dd < num 5 → mult = num 1.00) ∧
    (num 5 <= dd → dd < num 10 → mult = num 0.85) ∧
    (num 10 <= dd → dd < num 15 → mult = num 0.70) ∧
    (num 15 <= dd → dd < num 20 → mult = num 0.60) ∧
    (num 20 <= dd → mult = num 0.50) ∧
    num 0.50 <= mult ∧
    (dd = num 12 → mult = num 0.70 ∧ risk = "REDUCE"%string).
Proof.
  apply (drawdown_adjustment_invariants drawdown_prices drawdown_portfolio).
  exact drawdown_portfolio_reachable.
Defined.

Example drawdown_of_twelve_percent :
  match fst (Portfolio.get_drawdown_adjustment drawdown_prices drawdown_portfolio) with
  | Ok (dd, mult, risk) => dd = num 12 ∧ mult = num 0.70 ∧ risk = "REDUCE"%string
  | Raise _ => False
  end.
Proof. vm_compute. split; [|split]; [qc_eq|qc_eq|reflexivity]. Qed.

(** A position without a quote is valued at zero, and the drawdown is
    computed from that valuation: the same run with an empty price map
    reports a drawdown of 25.0625 percent. *)
Example unquoted_position_shows_as_drawdown :
  Portfolio.get_total_value ∅ drawdown_portfolio = num 74937.5 ∧
  match fst (Portfolio.get_drawdown_adjustment ∅ drawdown_portfolio) with
  | Ok (dd, mult, risk) =>
      dd = num 25.0625 ∧ mult = num 0.50 ∧ risk = "MAX_DEFENSIVE"%string
  | Raise _ => False
  end.
Proof.
  split; [qc_eq|]. vm_compute. split; [|split]; [qc_eq|qc_eq|reflexivity].
Qed.

(** ** Rebalance dates *)

Section RebalanceDates.
Import Calendar Backtester.

Lemma days_before_month_succ (y m : Z) :
  (1 <= m)%Z →
  days_before_month y (m + 1) = (days_before_month y m + days_in_month y m)%Z.
Proof.
  intros Hm. unfold days_before_month.
  replace (Z.to_nat (m + 1 - 1)) with (S (Z.to_nat (m - 1))) by lia.
  simpl days_before_month_aux. do 2 f_equal. lia.
Qed.

Lemma days_before_year_succ (y : Z) :
  days_before_year (y + 1)
  = (days_before_year y + if is_leap y then 366 else 365)%Z.
Proof.
  unfold days_before_year, is_leap.
  replace (y + 1 - 1)%Z with y by lia.
  destruct (Z.eqb_spec (y mod 4) 0) as [H4|H4];
    destruct (Z.eqb_spec (y mod 100) 0) as [H100|H100];
    destruct (Z.eqb_spec (y mod 400) 0) as [H400|H400]; simpl;
    Z.div_mod_to_equations; lia.
Qed.

Lemma days_before_month_13 (y : Z) :
  days_before_month y 13 = if is_leap y then 366%Z else 365%Z.
Proof.
  unfold days_before_month. simpl. unfold days_in_month. simpl.
  by destruct (is_leap y).
Qed.

(** [next_day] moves the day number by one. *)
Lemma toordinal_next_day (d : datetime) :
  valid d = true → toordinal (next_day d) = (toordinal d + 1)%Z.
Proof.
  unfold valid. rewrite !andb_true_iff, !Z.leb_le.
  intros [[[[[Hy1 Hy2] Hm1] Hm2] Hd1] Hd2].
  unfold next_day, toordinal.
  destruct (Z.ltb_spec (day d) (days_in_month (year d) (month d))) as [Hlt|Hge];
    simpl; [lia|].
  destruct (Z.ltb_spec (month d) 12) as [Hm|Hm]; simpl.
  - rewrite days_before_month_succ by done.
    change (days_before_month (year d) 1) with 0%Z. lia.
  - assert (month d = 12%Z) as Hm12 by lia.
    rewrite days_before_year_succ.
    pose proof (days_before_month_13 (year d)) as H13.
    change 13%Z with (12 + 1)%Z in H13.
    rewrite days_before_month_succ in H13 by done.
    rewrite Hm12 in *.
    change (days_before_month (year d + 1) 1) with 0%Z. lia.
Qed.

Lemma toordinal_add_days (n : nat) (d d' : datetime) :
  valid d = true → add_days n d = Ok d' →
  toordinal d' = (toordinal d + Z.of_nat n)%Z.
Proof.
  revert d. induction n as [|n IH]; intros d Hvalid; simpl.
  - intros [= <-]. lia.
  - destruct (valid (next_day d)) eqn:Hnext; [|done].
    intros Hadd. rewrite (IH _ Hnext Hadd), toordinal_next_day by done. lia.
Qed.

Lemma add_days_valid (n : nat) (d d' : datetime) :
  valid d = true → add_days n d = Ok d' → valid d' = true.
Proof.
  revert d. induction n as [|n IH]; intros d Hvalid; simpl.
  - by intros [= <-].
  - destruct (valid (next_day d)) eqn:Hnext; [|done]. by apply IH.
Qed.

(** Weekly stepping: each generated date is the seventh day after the one
    before it. *)
Lemma weekly_dates_seven_days_apart (fuel : nat) (start end_ : datetime)
    (dates : list datetime) :
  valid start = true →
  generate_rebalance_dates fuel start end_ "weekly" = Some (Ok dates) →
  ∀ i a b, dates !! i = Some a → dates !! S i = Some b →
    add_days 7 a = Ok b ∧ toordinal b = (toordinal a + 7)%Z.
Proof.
  unfold generate_rebalance_dates.
  revert start dates. induction fuel as [|fuel IH]; intros cur dates Hvalid;
    [done|].
  simpl. destruct (le cur end_); [|by intros [= <-] i a b Hi].
  change (advance "weekly" cur) with (add_days 7 cur).
  destruct (add_days 7 cur) as [next|e] eqn:Hnext; [|done].
  destruct (generate_from fuel "weekly" next end_) as [[rest|e]|] eqn:Hrest;
    [|done..].
  intros [= <-].
  pose proof (add_days_valid 7 _ _ Hvalid Hnext) as Hvalid'.
  intros [|i] a b Ha Hb.
  - simpl in Ha. injection Ha as <-.
    assert (b = next) as ->.
    { revert Hrest Hb. clear. destruct fuel as [|fuel]; [done|]. simpl.
      destruct (le next end_); [|by intros [= <-]].
      destruct (advance "weekly" next); [|done].
      destruct (generate_from fuel "weekly" a end_) as [[r|]|]; [|done..].
      intros [= <-]. simpl. by intros [= <-]. }
    split; [done|]. by apply (toordinal_add_days 7).
  - exact (IH next rest Hvalid' Hrest i a b Ha Hb).
Qed.

(** Monthly stepping keeps the day of the month of the start date. *)
Lemma monthly_dates_keep_day (fuel : nat) (start end_ : datetime)
    (dates : list datetime) :
  generate_rebalance_dates fuel start end_ "monthly" = Some (Ok dates) →
  Forall (λ d, day d = day start) dates.
Proof.
  unfold generate_rebalance_dates.
  revert start dates. induction fuel as [|fuel IH]; intros cur dates; [done|].
  simpl. destruct (le cur end_); [|intros [= <-]; constructor].
  destruct (advance "monthly" cur) as [next|e] eqn:Hnext; [|done].
  destruct (generate_from fuel "monthly" next end_) as [[rest|e]|] eqn:Hrest;
    [|done..].
  intros [= <-]. constructor; [done|].
  assert (day next = day cur) as <-; [|by apply IH].
  revert Hnext. unfold advance, replace. simpl.
  repeat case_match; by intros [= <-].
Qed.

Lemma le_false_of_month_index (d1 d2 : datetime) :
  (1 <= month d1 <= 12)%Z → (1 <= month d2 <= 12)%Z →
  (year d2 * 12 + month d2 < year d1 * 12 + month d1)%Z →
  le d1 d2 = false.
Proof.
  intros H1 H2 Hlt. unfold le.
  destruct (Z.compare_spec (year d1) (year d2)) as [Hy|Hy|Hy]; [|lia|done].
  destruct (Z.compare_spec (month d1) (month d2)) as [Hm|Hm|Hm]; [lia|lia|done].
Qed.

Lemma le_true_year (d1 d2 : datetime) : le d1 d2 = true → (year d1 <= year d2)%Z.
Proof.
  unfold le. destruct (Z.compare_spec (year d1) (year d2)); [lia|lia|done].
Qed.

Lemma valid_first_of_month (y m : Z) :
  (1 <= y <= 9999)%Z → (1 <= m <= 12)%Z → valid (Datetime y m 1) = true.
Proof.
  intros Hy Hm. unfold valid. simpl.
  rewrite !andb_true_iff, !Z.leb_le. repeat split; try lia.
  unfold days_in_month. repeat case_match; lia.
Qed.

(** Started on the first of a month, monthly generation ends without an
    error and every date is a first of a month. *)
Lemma monthly_from_first_of_month (n : nat) (start end_ : datetime) :
  valid start = true → valid end_ = true → day start = 1%Z →
  (year end_ < 9999)%Z →
  (year end_ * 12 + month end_ - (year start * 12 + month start) < Z.of_nat n)%Z →
  ∃ dates, generate_rebalance_dates (S n) start end_ "monthly" = Some (Ok dates)
           ∧ Forall (λ d, day d = 1%Z) dates.
Proof.
  intros Hstart Hend Hday Hyear Hfuel.
  cut (∃ dates, generate_rebalance_dates (S n) start end_ "monthly"
                = Some (Ok dates)).
  { intros [dates Hgen]. exists dates. split; [done|].
    rewrite <- Hday. by eapply monthly_dates_keep_day. }
  unfold generate_rebalance_dates.
  assert (Hend12 : (1 <= month end_ <= 12)%Z).
  { revert Hend. unfold valid. rewrite !andb_true_iff, !Z.leb_le. lia. }
  revert start Hstart Hday Hfuel.
  induction n as [|n IH]; intros cur Hcur Hday Hfuel.
  - simpl. rewrite le_false_of_month_index; [eauto|..|lia]; [|done].
    revert Hcur. unfold valid. rewrite !andb_true_iff, !Z.leb_le. lia.
  - assert (Hcur' : (1 <= year cur)%Z ∧ (1 <= month cur <= 12)%Z).
    { revert Hcur. unfold valid. rewrite !andb_true_iff, !Z.leb_le. lia. }
    change (generate_from (S (S n)) "monthly" cur end_)
      with (if le cur end_ then
              match advance "monthly" cur with
              | Raise e => Some (Raise e)
              | Ok next =>
                  match generate_from (S n) "monthly" next end_ with
                  | Some (Ok dates) => Some (Ok (cur :: dates))
                  | other => other
                  end
              end
            else Some (Ok [])).
    destruct (le cur end_) eqn:Hle; [|eauto].
    apply le_true_year in Hle.
    assert (∃ next, advance "monthly" cur = Ok next ∧ valid next = true
                    ∧ day next = 1%Z
                    ∧ (year next * 12 + month next
                       = year cur * 12 + month cur + 1)%Z)
      as (next & -> & Hnext & Hday' & Hidx).
    { unfold advance, replace. simpl. rewrite Hday.
      destruct (Z.eqb_spec (month cur) 12) as [H12|H12].
      - rewrite valid_first_of_month by lia.
        eexists. split; [done|]. simpl.
        rewrite valid_first_of_month by lia. repeat split; lia.
      - rewrite valid_first_of_month by lia.
        eexists. split; [done|]. simpl.
        rewrite valid_first_of_month by lia. repeat split; lia. }
    destruct (IH next Hnext Hday' ltac:(lia)) as [rest ->]. eauto.
Qed.

(** C6.  Monthly stepping replaces the month and keeps the day of the start
    date: started on the 15th it yields the 15th of each month, not the
    first, and started on the 31st of January it raises [ValueError] at
    February instead of producing the dates. *)
Theorem monthly_stepping_keeps_start_day :
  generate_rebalance_dates 4 (Datetime 2020 1 15) (Datetime 2020 3 20) "monthly"
  = Some (Ok [Datetime 2020 1 15; Datetime 2020 2 15; Datetime 2020 3 15]) ∧
  valid (Datetime 2020 1 31) = true ∧
  le (Datetime 2020 1 31) (Datetime 2020 12 31) = true ∧
  ∀ fuel, generate_rebalance_dates (S fuel) (Datetime 2020 1 31)
            (Datetime 2020 12 31) "monthly" = Some (Raise ValueError).
Proof. repeat split. Qed.

Example weekly_dates_of_january_2020 :
  generate_rebalance_dates 6 (Datetime 2020 1 27) (Datetime 2020 2 29) "weekly"
  = Some (Ok [Datetime 2020 1 27; Datetime 2020 2 3; Datetime 2020 2 10;
              Datetime 2020 2 17; Datetime 2020 2 24]).
Proof. reflexivity. Qed.

(** A frequency that is neither "monthly" nor "weekly" never advances. *)
Example other_frequency_does_not_end :
  ∀ fuel, generate_rebalance_dates fuel (Datetime 2020 1 1) (Datetime 2020 1 1)
            "daily" = None.
Proof.
  unfold generate_rebalance_dates.
  induction fuel as [|fuel IH]; [done|].
  change (generate_from (S fuel) "daily" (Datetime 2020 1 1) (Datetime 2020 1 1))
    with (match generate_from fuel "daily" (Datetime 2020 1 1) (Datetime 2020 1 1) with
          | Some (Ok dates) => Some (Ok (Datetime 2020 1 1 :: dates))
          | other => other
          end).
  by rewrite IH.
Qed.

End RebalanceDates.

(** ** Series *)

Ltac qc_cell_eq :=
  vm_compute;
  repeat (apply (f_equal (@Some _)) || apply (f_equal Fin));
  apply Qc_is_canon; reflexivity.

Lemma rolling_mean_length (w : nat) (l : list Qc) :
  length (rolling_mean w l) = length l.
Proof. unfold rolling_mean. by rewrite length_map, length_seq. Qed.

Lemma rolling_mean_lookup (w : nat) (l : list Qc) (i : nat) :
  (i < length l)%nat →
  rolling_mean w l !! i
  = Some (if (w <=? i + 1)%nat
          then Some (sum_list (take w (drop (i + 1 - w)%nat l))
                     / Qc_of_Z (Z.of_nat w))
          else None).
Proof.
  intros Hi. unfold rolling_mean.
  by rewrite list_lookup_fmap, lookup_seq_lt.
Qed.

Lemma rolling_mean_lookup_Some (w : nat) (l : list Qc) (i : nat) (c : option Qc) :
  rolling_mean w l !! i = Some c → (i < length l)%nat.
Proof.
  intros H%lookup_lt_Some. by rewrite rolling_mean_length in H.
Qed.

Lemma sum_list_nonneg (l : list Qc) : Forall (λ x, 0 <= x) l → 0 <= sum_list l.
Proof.
  induction 1 as [|x l Hx _ IH]; simpl; [apply Qcle_refl|].
  by apply Qcplus_nonneg_nonneg.
Qed.

Lemma sum_list_pos (l : list Qc) :
  l ≠ [] → Forall (λ x, 0 < x) l → 0 < sum_list l.
Proof.
  intros Hne Hall. destruct Hall as [|x l Hx Hl]; [done|]. simpl.
  apply Qcplus_pos_nonneg; [done|].
  apply sum_list_nonneg. eapply Forall_impl; [exact Hl|].
  intros y. apply Qclt_le_weak.
Qed.

Lemma Qc_of_Z_nonneg (n : nat) : 0 <= Qc_of_Z (Z.of_nat n).
Proof. qc_unfold. unfold Qle. simpl. lia. Qed.

Lemma Qc_of_Z_pos (n : nat) : (0 < n)%nat → 0 < Qc_of_Z (Z.of_nat n).
Proof. intros Hn. qc_unfold. unfold Qlt. simpl. lia. Qed.

(** A moving average of positive prices is positive wherever defined. *)
Lemma rolling_mean_pos (w : nat) (l : list Qc) (i : nat) (m : Qc) :
  (0 < w)%nat → Forall (λ x, 0 < x) l →
  rolling_mean w l !! i = Some (Some m) → 0 < m.
Proof.
  intros Hw Hall Hm.
  pose proof (rolling_mean_lookup_Some _ _ _ _ Hm) as Hi.
  rewrite rolling_mean_lookup in Hm by done.
  destruct (Nat.leb_spec w (i + 1)) as [Hle|]; [|done].
  apply (inj Some), (inj Some) in Hm. subst m.
  apply Qcdiv_pos; [|by apply Qc_of_Z_pos].
  apply sum_list_pos.
  - intros Hnil%(f_equal length). rewrite length_take, length_drop in Hnil.
    simpl in Hnil. lia.
  - by apply Forall_take, Forall_drop.
Qed.

(** ** RSI *)

Section RSI.
Import MaCalculator.

Lemma diff_length (l : list Qc) : length (diff l) = length l.
Proof.
  destruct l as [|x rest]; [done|]. unfold diff. cbn [length].
  rewrite length_zip_with. cbn [length]. lia.
Qed.

Lemma rsi_gain_length (close : list Qc) :
  length (rsi_gain close) = length close.
Proof. unfold rsi_gain. by rewrite length_map, diff_length. Qed.

Lemma rsi_loss_length (close : list Qc) :
  length (rsi_loss close) = length close.
Proof. unfold rsi_loss. by rewrite length_map, diff_length. Qed.

Lemma rsi_gain_nonneg (close : list Qc) : Forall (λ x, 0 <= x) (rsi_gain close).
Proof.
  unfold rsi_gain. apply Forall_fmap, Forall_forall. intros [x|] _; simpl.
  - destruct (ltb 0 x) eqn:Hx; [by apply ltb_lt, Qclt_le_weak in Hx|].
    apply Qcle_refl.
  - apply Qcle_refl.
Qed.

(** The value of RSI when the average loss is zero and the average gain is
    [g]. *)
Lemma rsi_of_zero_loss (g : Qc) :
  fsub (Fin (num 100))
    (fdiv (Fin (num 100)) (fadd (Fin 1) (fdiv (Fin g) (Fin 0))))
  = if decide (g = 0) then NaN else Fin (num 100).
Proof.
  unfold fdiv at 2. rewrite decide_True by done.
  destruct (decide (g = 0)); [done|].
  destruct (ltb 0 g); simpl; f_equal; qc_eq.
Qed.

(** C9, amended.  [calculate_rsi] raises nothing.  Where the average loss
    over the window is zero, the average gain is defined and not negative,
    and the RSI of that bar is 100 when the average gain is positive and
    NaN when the average gain is zero as well (a flat window). *)
Theorem rsi_when_average_loss_is_zero (close : list Qc) (period i : nat) :
  rsi_avg_loss close period !! i = Some (Some 0) →
  ∃ g, rsi_avg_gain close period !! i = Some (Some g) ∧ 0 <= g ∧
       calculate_rsi close period !! i
       = Some (if decide (g = 0) then NaN else Fin (num 100)).
Proof.
  intros Hloss. unfold rsi_avg_loss in Hloss.
  pose proof (rolling_mean_lookup_Some _ _ _ _ Hloss) as Hi.
  rewrite rsi_loss_length in Hi.
  rewrite rolling_mean_lookup in Hloss by by rewrite rsi_loss_length.
  destruct (Nat.leb_spec period (i + 1)) as [Hfull|]; [|done].
  set (g := sum_list (take period (drop (i + 1 - period)%nat (rsi_gain close)))
            / Qc_of_Z (Z.of_nat period)).
  assert (Hgain : rsi_avg_gain close period !! i = Some (Some g)).
  { unfold rsi_avg_gain. rewrite rolling_mean_lookup by by rewrite rsi_gain_length.
    destruct (Nat.leb_spec period (i + 1)); [done|lia]. }
  exists g. split; [done|]. split.
  { apply Qcdiv_nonneg; [|apply Qc_of_Z_nonneg].
    apply sum_list_nonneg, Forall_take, Forall_drop, rsi_gain_nonneg. }
  unfold calculate_rsi. rewrite list_lookup_fmap, lookup_zip_with.
  rewrite Hgain. unfold rsi_avg_loss.
  rewrite rolling_mean_lookup by by rewrite rsi_loss_length.
  destruct (Nat.leb_spec period (i + 1)); [|lia].
  apply (inj Some), (inj Some) in Hloss. rewrite Hloss.
  simpl. f_equal. apply rsi_of_zero_loss.
Qed.

Lemma rsi_when_average_loss_is_zero_witness :
  rsi_avg_loss (take 15 rising_closes) 14 !! 14%nat = Some (Some 0) ∧
  ∃ g, rsi_avg_gain (take 15 rising_closes) 14 !! 14%nat = Some (Some g) ∧
       0 <= g ∧
       calculate_rsi (take 15 rising_closes) 14 !! 14%nat
       = Some (if decide (g = 0) then NaN else Fin (num 100)).
Proof.
  assert (H : rsi_avg_loss (take 15 rising_closes) 14 !! 14%nat = Some (Some 0))
    by qc_cell_eq.
  split; [exact H|].
  exact (rsi_when_average_loss_is_zero (take 15 rising_closes) 14 14 H).
Defined.

Example rsi_of_rising_window :
  calculate_rsi (take 15 rising_closes) 14 !! 14%nat = Some (Fin (num 100)).
Proof. qc_cell_eq. Qed.

(** C9 as stated: a window without losses would always give 100.  Fifteen
    equal closes have a zero average loss at the last bar, and their RSI
    there is NaN. *)
Lemma rsi_of_flat_window_is_nan :
  rsi_avg_loss flat_closes 14 !! 14%nat = Some (Some 0) ∧
  calculate_rsi flat_closes 14 !! 14%nat = Some NaN ∧
  calculate_rsi flat_closes 14 !! 14%nat ≠ Some (Fin (num 100)).
Proof.
  split; [qc_cell_eq|]. split; [reflexivity|]. vm_compute. discriminate.
Qed.

End RSI.

(** ** Composite score *)

Section CompositeScore.
Import MaCalculator Screener.

Lemma py_min_le_l (a b : Qc) : py_min a b <= a.
Proof.
  unfold py_min. destruct (ltb b a) eqn:H.
  - by apply ltb_lt, Qclt_le_weak in H.
  - apply Qcle_refl.
Qed.

Lemma py_min_glb (c a b : Qc) : c <= a → c <= b → c <= py_min a b.
Proof. intros Ha Hb. unfold py_min. by destruct (ltb b a). Qed.

Lemma py_max_ge_l (a b : Qc) : a <= py_max a b.
Proof.
  unfold py_max. destruct (ltb a b) eqn:H.
  - by apply ltb_lt, Qclt_le_weak in H.
  - apply Qcle_refl.
Qed.

Ltac closed_le := vm_compute; (reflexivity || discriminate).

Lemma relative_strength_points_bounds (rs : Qc) :
  0 <= py_min (num 15) (py_max 0 (rs * num 0.5))
  ∧ py_min (num 15) (py_max 0 (rs * num 0.5)) <= num 15.
Proof.
  split; [|apply py_min_le_l].
  apply py_min_glb; [closed_le|apply py_max_ge_l].
Qed.

Lemma trend_alignment_bounds (ma50 ma100 : option Qc) (ma200 : Qc) :
  0 <= (trend_alignment ma50 ma100 ma200).1.1
  ∧ (trend_alignment ma50 ma100 ma200).1.1 <= num 15.
Proof.
  unfold trend_alignment. repeat case_match; simpl; split; closed_le.
Qed.

Lemma rsi_points_bounds (current_rsi : fval) :
  - num 5 <= (rsi_points current_rsi).1 ∧ (rsi_points current_rsi).1 <= num 10.
Proof.
  unfold rsi_points. repeat case_match; simpl; split; closed_le.
Qed.

Lemma macd_points_bounds (m : macd_info) :
  - num 10 <= macd_points m ∧ macd_points m <= num 10.
Proof.
  unfold macd_points. destruct m as [[] [] [] []]; simpl; split; closed_le.
Qed.

Lemma quality_score_bounds (f : Fundamentals.t) :
  0 <= Fundamentals.calculate_quality_score f
  ∧ Fundamentals.calculate_quality_score f <= num 25.
Proof.
  unfold Fundamentals.calculate_quality_score.
  destruct (Fundamentals.revenue_growth f), (Fundamentals.profit_margin f),
    (Fundamentals.roe f), (Fundamentals.pays_dividend f),
    (Fundamentals.debt_to_equity f);
    repeat case_match; split; closed_le.
Qed.

Lemma fetched_quality_score_bounds info ticker :
  0 <= Fundamentals.quality_score (Fundamentals.fetch_fundamentals info ticker)
  ∧ Fundamentals.quality_score (Fundamentals.fetch_fundamentals info ticker)
    <= num 25.
Proof.
  unfold Fundamentals.fetch_fundamentals.
  destruct (info ticker); [apply quality_score_bounds|split; closed_le].
Qed.

Lemma floor_spec (x : Qc) :
  (inject_Z (floor x) <= x)%Q ∧ (x < inject_Z (floor x + 1))%Q.
Proof. unfold floor. split; [apply Qfloor_le|apply Qlt_floor]. Qed.

Lemma round_half_even_ge (x : Qc) (a : Z) :
  Qc_of_Z a <= x → (a <= round_half_even x)%Z.
Proof.
  intros Ha. destruct (floor_spec x) as [_ Hlt].
  assert (a <= floor x)%Z.
  { apply Z.lt_succ_r. unfold Z.succ. rewrite Zlt_Qlt.
    eapply Qle_lt_trans; [|exact Hlt]. exact Ha. }
  unfold round_half_even. repeat case_match; lia.
Qed.

Lemma round_half_even_le (x : Qc) (b : Z) :
  x <= Qc_of_Z b → (round_half_even x <= b)%Z.
Proof.
  intros Hb. destruct (floor_spec x) as [Hle _].
  assert (Hfb : (floor x <= b)%Z).
  { rewrite Zle_Qle. eapply Qle_trans; [exact Hle|exact Hb]. }
  unfold round_half_even.
  destruct (ltb (x - Qc_of_Z (floor x)) (num 0.5)) eqn:Hr; [done|].
  apply ltb_ge in Hr.
  assert (floor x < b)%Z; [|repeat case_match; lia].
  rewrite Zlt_Qlt. set (f := floor x) in *. clearbody f.
  qc_unfold. lra.
Qed.

Lemma py_round1_bounds (x : Qc) (a b : Z) :
  Qc_of_Z a <= x * num 10 → x * num 10 <= Qc_of_Z b →
  Qc_of_Z a / num 10 <= py_round1 x ∧ py_round1 x <= Qc_of_Z b / num 10.
Proof.
  intros Ha%round_half_even_ge Hb%round_half_even_le. unfold py_round1.
  generalize dependent (round_half_even (x * num 10)). intros r Ha Hb.
  rewrite Zle_Qle in Ha, Hb. qc_unfold.
  change (/ 10)%Q with (1 # 10)%Q. split; lra.
Qed.

Lemma distance_pos (price m : Qc) :
  0 < m → m < price → 0 < (price - m) / m * num 100.
Proof.
  intros Hm Hgate. apply Qcmult_pos; [|closed_le].
  apply Qcdiv_pos; [|done]. qc_unfold. lra.
Qed.

Lemma distance_points_bounds (distance : Qc) :
  0 < distance →
  0 <= py_min (num 15) (distance * num 1.5)
  ∧ py_min (num 15) (distance * num 1.5) <= num 15.
Proof.
  intros Hd. split; [|apply py_min_le_l].
  apply py_min_glb; [closed_le|].
  apply Qclt_le_weak, Qcmult_pos; [done|closed_le].
Qed.

Lemma high_points_bounds (price h : Qc) :
  0 < price → 0 < h →
  0 <= py_min (num 15) (price / h * num 15)
  ∧ py_min (num 15) (price / h * num 15) <= num 15.
Proof.
  intros Hp Hh. split; [|apply py_min_le_l].
  apply py_min_glb; [closed_le|].
  apply Qclt_le_weak, Qcmult_pos; [by apply Qcdiv_pos|closed_le].
Qed.

Lemma py_round1_between (x lo hi : Qc) (a b : Z) :
  lo = Qc_of_Z a / num 10 → hi = Qc_of_Z b / num 10 →
  lo <= x → x <= hi → lo <= py_round1 x ∧ py_round1 x <= hi.
Proof.
  intros -> -> Hlo Hhi. apply py_round1_bounds.
  - qc_unfold. change (/ 10)%Q with (1 # 10)%Q in Hlo. lra.
  - qc_unfold. change (/ 10)%Q with (1 # 10)%Q in Hhi. lra.
Qed.

(** The bounds of the score on any frame whose last 200-day average, when
    defined, is positive. *)
Lemma score_bounds_of_frame info ticker (df : list row) bench incl ind :
  (∀ cur m, iloc_neg 1 df = Some cur → MA200 cur = Some m → 0 < m) →
  - num 15 <= score (calculate_stock_score info ticker df bench incl ind)
  ∧ score (calculate_stock_score info ticker df bench incl ind) <= num 150
  ∧ (ind = false →
     0 <= score (calculate_stock_score info ticker df bench incl ind)).
Proof.
  intros Hpos. unfold calculate_stock_score.
  destruct (iloc_neg 1 df) as [cur|] eqn:Hcur; [|repeat split; closed_le].
  destruct (MA200 cur) as [m|] eqn:Hma; [|repeat split; closed_le].
  destruct (ltb m (Close (prices cur))) eqn:Hgate; cbn [negb];
    [|repeat split; closed_le].
  apply ltb_lt in Hgate. pose proof (Hpos cur m eq_refl Hma) as Hm.
  assert (Hprice : 0 < Close (prices cur)) by by eapply Qclt_trans.
  pose proof (trend_alignment_bounds (MA50 cur) (MA100 cur) m) as Hal.
  destruct (trend_alignment (MA50 cur) (MA100 cur) m) as [[al ab] tr].
  destruct bench as [b3 b6].
  cbn [score fst snd] in *.
  match goal with |- context [py_round1 ?S] => set (raw := S) end.
  cut (- num 15 <= raw ∧ raw <= num 150 ∧ (ind = false → 0 <= raw)).
  { intros (Hlo & Hhi & Hzero). split; [|split].
    - eapply (py_round1_between raw (- num 15) (num 150) (-150) 1500);
        [qc_eq|qc_eq|done|done].
    - eapply (py_round1_between raw (- num 15) (num 150) (-150) 1500);
        [qc_eq|qc_eq|done|done].
    - intros Hind.
      eapply (py_round1_between raw 0 (num 150) 0 1500);
        [qc_eq|qc_eq|by apply Hzero|done]. }
  subst raw.
  pose proof (relative_strength_points_bounds (calculate_stock_return df 60 - b3))
    as H3.
  set (r3 := py_min (num 15) (py_max 0 ((calculate_stock_return df 60 - b3) * num 0.5)))
    in *. clearbody r3.
  pose proof (relative_strength_points_bounds (calculate_stock_return df 120 - b6))
    as H6.
  set (r6 := py_min (num 15) (py_max 0 ((calculate_stock_return df 120 - b6) * num 0.5)))
    in *. clearbody r6.
  pose proof (distance_points_bounds _ (distance_pos _ _ Hm Hgate)) as Hdp.
  set (dp := py_min (num 15) ((Close (prices cur) - m) / m * num 100 * num 1.5))
    in *. clearbody dp.
  pose proof (fetched_quality_score_bounds info ticker) as Hq.
  set (q := Fundamentals.quality_score (Fundamentals.fetch_fundamentals info ticker))
    in *. clearbody q.
  assert (Hhp : ∀ h, 0 < h →
            0 <= py_min (num 15) (Close (prices cur) / h * num 15)
            ∧ py_min (num 15) (Close (prices cur) / h * num 15) <= num 15)
    by (intros h Hh; by apply high_points_bounds).
  destruct (get_52_week_high df) as [h|];
    [destruct (ltb 0 h) eqn:Hh;
       [apply ltb_lt in Hh; specialize (Hhp h Hh);
        set (hp := py_min (num 15) (Close (prices cur) / h * num 15)) in *;
        clearbody hp
       |clear Hhp]
    |clear Hhp];
    clear Hpos Hcur Hma;
    generalize dependent (Close (prices cur)); intros price _ _;
    (destruct ind;
     [pose proof (rsi_points_bounds (indicator_confirmation df).1) as Hrsi;
      pose proof (macd_points_bounds (indicator_confirmation df).2) as Hmacd;
      destruct (indicator_confirmation df) as [current_rsi macd_info];
      cbn [fst snd] in *;
      set (ip := (rsi_points current_rsi).1) in *; clearbody ip;
      set (mp := macd_points macd_info) in *; clearbody mp
     |]);
    destruct incl, (crossed_below_ma200 (detect_crossover df 7)),
      (ltb 0 (calculate_ma200_slope df 20));
    (split; [|split]; [| |try discriminate; intros _]);
    clear -Hal H3 H6 Hdp Hq Hhp Hrsi Hmacd || clear -Hal H3 H6 Hdp Hq Hrsi Hmacd
    || clear -Hal H3 H6 Hdp Hq Hhp || clear -Hal H3 H6 Hdp Hq;
    qc_unfold; lra.
Qed.

Lemma calculate_ma50_ma200_ma200_pos (bars : list bar) (i : nat) (cur : row) (m : Qc) :
  Forall (λ b, 0 < Close b) bars →
  calculate_ma50_ma200 bars !! i = Some cur → MA200 cur = Some m → 0 < m.
Proof.
  intros Hall Hcur Hm. unfold calculate_ma50_ma200 in Hcur.
  apply lookup_zip_with_Some in Hcur as (b & [[m50 m100] m200] & -> & _ & Hz).
  unfold zip in Hz.
  apply lookup_zip_with_Some in Hz as (x & y & [= <- <-] & _ & H200).
  simpl in Hm. subst m200.
  apply (rolling_mean_pos 200 (map Close bars) i m); [lia| |done].
  by apply Forall_fmap.
Qed.

(** What does hold of the score: for every ticker, series of bars with
    positive closes, benchmark returns, fundamentals and flag setting, it
    is at most 150 and at least −15, and it is at least 0 when the
    indicator confirmation is switched off. *)
Theorem composite_score_bounds info ticker (bars : list bar)
    (benchmark_returns : Qc * Qc)
    (include_fundamentals use_indicator_confirmation : bool) :
  Forall (λ b, 0 < Close b) bars →
  - num 15
    <= score (calculate_stock_score info ticker (calculate_ma50_ma200 bars)
                benchmark_returns include_fundamentals
                use_indicator_confirmation)
  ∧ score (calculate_stock_score info ticker (calculate_ma50_ma200 bars)
             benchmark_returns include_fundamentals
             use_indicator_confirmation) <= num 150
  ∧ (use_indicator_confirmation = false →
     0 <= score (calculate_stock_score info ticker (calculate_ma50_ma200 bars)
                   benchmark_returns include_fundamentals
                   use_indicator_confirmation)).
Proof.
  intros Hall. apply score_bounds_of_frame.
  intros cur m Hcur Hm.
  by eapply calculate_ma50_ma200_ma200_pos.
Qed.

Lemma positive_closes_of_forallb (bars : list bar) :
  forallb (λ b, ltb 0 (Close b)) bars = true → Forall (λ b, 0 < Close b) bars.
Proof.
  induction bars as [|b bars IH]; simpl; [constructor|].
  rewrite andb_true_iff, ltb_lt. intros [Hb Hrest]. constructor; auto.
Qed.

Lemma whipsaw_bars_positive : Forall (λ b, 0 < Close b) whipsaw_bars.
Proof. apply positive_closes_of_forallb. vm_compute. reflexivity. Defined.

Lemma composite_score_bounds_witness :
  - num 15
    <= score (calculate_stock_score no_info "ERIC-B.ST"
                (calculate_ma50_ma200 whipsaw_bars) (0, 0) true true)
  ∧ score (calculate_stock_score no_info "ERIC-B.ST"
             (calculate_ma50_ma200 whipsaw_bars) (0, 0) true true) <= num 150
  ∧ (true = false →
     0 <= score (calculate_stock_score no_info "ERIC-B.ST"
                   (calculate_ma50_ma200 whipsaw_bars) (0, 0) true true)).
Proof.
  apply (composite_score_bounds no_info "ERIC-B.ST" whipsaw_bars (0, 0) true true).
  exact whipsaw_bars_positive.
Defined.

Example composite_score_of_whipsaw_without_indicators :
  score (calculate_stock_score no_info "ERIC-B.ST"
           (calculate_ma50_ma200 whipsaw_bars) (0, 0) true false)
  = num 0.8.
Proof. qc_eq. Qed.

(** C3.  The docstring of [calculate_stock_score] promises a score from 0
    to 150, and its comments give the indicator confirmation as "0-20 bonus
    points" with "RSI Scoring (0-10 points)" and "MACD Scoring (0-10
    points)".  On the whipsaw series, whose closes are all positive, the
    score with the indicator confirmation on is −5.2, outside that range.
    The death cross takes back the 20 points of the gate; the RSI scoring
    adds nothing and the MACD scoring counts −6 (4 for a positive MACD less
    10 for the bearish cross), so the confirmation lowers the 0.8 that the
    same series scores without it. *)
Theorem composite_score_falls_below_zero :
  Forall (λ b, 0 < Close b) whipsaw_bars ∧
  score (calculate_stock_score no_info "ERIC-B.ST"
           (calculate_ma50_ma200 whipsaw_bars) (0, 0) true true)
  = - num 5.2 ∧
  ¬ (0 <= score (calculate_stock_score no_info "ERIC-B.ST"
                   (calculate_ma50_ma200 whipsaw_bars) (0, 0) true true)
     ∧ score (calculate_stock_score no_info "ERIC-B.ST"
                (calculate_ma50_ma200 whipsaw_bars) (0, 0) true true)
       <= num 150) ∧
  score (calculate_stock_score no_info "ERIC-B.ST"
           (calculate_ma50_ma200 whipsaw_bars) (0, 0) true false)
  = num 0.8 ∧
  death_cross (calculate_stock_score no_info "ERIC-B.ST"
                 (calculate_ma50_ma200 whipsaw_bars) (0, 0) true true) = true ∧
  fst (rsi_points
         (fst (indicator_confirmation (calculate_ma50_ma200 whipsaw_bars)))) = 0 ∧
  macd_points (snd (indicator_confirmation (calculate_ma50_ma200 whipsaw_bars)))
  = - num 6.
Proof.
  assert (Hscore : score (calculate_stock_score no_info "ERIC-B.ST"
                     (calculate_ma50_ma200 whipsaw_bars) (0, 0) true true)
                   = - num 5.2) by qc_eq.
  split; [exact whipsaw_bars_positive|]. split; [exact Hscore|].
  split; [rewrite Hscore; intros [Hneg _]; apply Hneg; reflexivity|].
  split; [exact composite_score_of_whipsaw_without_indicators|].
  split; [vm_compute; reflexivity|].
  split; qc_eq.
Qed.

End CompositeScore.

(** ** Volatility *)

Section Volatility.
Import Backtester.

(** C7.  The volatility of a run is the deviation of its period returns
    annualized with the factor of monthly sampling whatever the rebalance
    frequency: [backtest_strategy] does not pass the frequency on, and a
    weekly curve gets the variance of its returns times 12, not times
    52. *)
Theorem volatility_annualized_as_monthly_for_every_frequency :
  (∀ frequency curve capital dividends tax,
     volatility_squared <$> backtest_strategy_metrics frequency curve
                              capital dividends tax
     = volatility_squared <$> backtest_strategy_metrics "monthly" curve
                                capital dividends tax) ∧
  (∀ curve capital dividends tax m,
     backtest_strategy_metrics "weekly" curve capital dividends tax = Some m →
     volatility_squared m
     = (λ v, v * num 12) <$> var (pct_change (map value curve))) ∧
  var (pct_change (map value weekly_curve)) = Some (num 0.02) ∧
  (volatility_squared <$> backtest_strategy_metrics "weekly" weekly_curve
                            (num 100000) 0 0)
  = Some (Some (num 0.02 * num 12)) ∧
  num 0.02 * num 12 ≠ num 0.02 * num 52.
Proof.
  split; [done|]. split; [|split; [|split]].
  - intros curve capital dividends tax m.
    unfold backtest_strategy_metrics, calculate_performance_metrics.
    destruct (iloc_neg 1 curve); [|done]. by intros [= <-].
  - qc_cell_eq.
  - qc_cell_eq.
  - intros H%(f_equal (λ x : Qc, Qnum x)). vm_compute in H. discriminate.
Qed.

End Volatility.

(** ** No lookahead *)

Section NoLookahead.
Import MaCalculator Screener Backtester.

Lemma fetch_up_to (P : provider) (as_of_date : Z) (ticker : string) :
  from_option (up_to as_of_date) [] (fetch_stock_data P ticker)
  = known_bars P as_of_date ticker.
Proof.
  unfold fetch_stock_data, known_bars.
  by destruct (history P ticker) as [[|b df]|].
Qed.

Lemma snapshot_step_known (P : provider) (as_of_date : Z) ticker
    (stock_data : list (string * list bar)) :
  match fetch_stock_data P ticker with
  | Some df =>
      let df := up_to as_of_date df in
      if (200 <=? length df)%nat then dict_set stock_data ticker df
      else stock_data
  | None => stock_data
  end
  = if (200 <=? length (known_bars P as_of_date ticker))%nat
    then dict_set stock_data ticker (known_bars P as_of_date ticker)
    else stock_data.
Proof.
  rewrite <- fetch_up_to. by destruct (fetch_stock_data P ticker).
Qed.

Lemma foldl_ext_all {A B} (f g : A → B → A) (l : list B) (a : A) :
  (∀ a b, f a b = g a b) → foldl f a l = foldl g a l.
Proof.
  intros Hfg. revert a. induction l as [|b l IH]; intros a; simpl; [done|].
  by rewrite Hfg, IH.
Qed.

Lemma omap_ext_all {A B} (f g : A → option B) (l : list A) :
  (∀ a, f a = g a) → omap f l = omap g l.
Proof.
  intros Hfg. induction l as [|a l IH]; [done|].
  csimpl. rewrite Hfg. destruct (g a); [|done]. by f_equal.
Qed.

(** The snapshot is a function of the bars known at the date. *)
Lemma fetch_historical_snapshot_known (P1 P2 : provider) stocks as_of_date :
  (∀ ticker, known_bars P1 as_of_date ticker = known_bars P2 as_of_date ticker) →
  fetch_historical_snapshot P1 stocks as_of_date
  = fetch_historical_snapshot P2 stocks as_of_date.
Proof.
  intros Hknown. unfold fetch_historical_snapshot.
  apply foldl_ext_all. intros acc ticker.
  by rewrite !snapshot_step_known, Hknown.
Qed.

Lemma calculate_stock_score_info_ext info1 info2 ticker df bench incl ind :
  info1 ticker = info2 ticker →
  calculate_stock_score info1 ticker df bench incl ind
  = calculate_stock_score info2 ticker df bench incl ind.
Proof.
  intros Hinfo. unfold calculate_stock_score, Fundamentals.fetch_fundamentals.
  by rewrite Hinfo.
Qed.

(** Given the same fundamentals, the screening pass at a date is a function
    of the bars dated at or before it: later bars change nothing. *)
Lemma screening_pass_ignores_later_bars (P1 P2 : provider) stocks as_of_date :
  (∀ ticker, known_bars P1 as_of_date ticker = known_bars P2 as_of_date ticker) →
  (∀ ticker, info P1 ticker = info P2 ticker) →
  screening_pass P1 stocks as_of_date = screening_pass P2 stocks as_of_date.
Proof.
  intros Hknown Hinfo. unfold screening_pass.
  rewrite (fetch_historical_snapshot_known P1 P2) by done.
  generalize (fetch_historical_snapshot P2 stocks as_of_date). intros data.
  unfold screen_stocks_historical.
  assert (Hbench :
    match fetch_stock_data P1 "^OMX" with
    | None => (0, 0)
    | Some benchmark_data =>
        (calculate_return (up_to as_of_date benchmark_data) 60,
         calculate_return (up_to as_of_date benchmark_data) 120)
    end
    = match fetch_stock_data P2 "^OMX" with
      | None => (0, 0)
      | Some benchmark_data =>
          (calculate_return (up_to as_of_date benchmark_data) 60,
           calculate_return (up_to as_of_date benchmark_data) 120)
      end).
  { transitivity (calculate_return (known_bars P1 as_of_date "^OMX") 60,
                  calculate_return (known_bars P1 as_of_date "^OMX") 120).
    - rewrite <- fetch_up_to. by destruct (fetch_stock_data P1 "^OMX").
    - rewrite Hknown, <- fetch_up_to. by destruct (fetch_stock_data P2 "^OMX"). }
  cbv zeta. rewrite Hbench. do 2 f_equal.
  apply omap_ext_all. intros [ticker df].
  by rewrite (calculate_stock_score_info_ext (info P1) (info P2)).
Qed.

(** C1.  Two states of the provider that agree on every bar dated day 200
    or before, for every ticker, and differ only by what was published
    afterwards give different screening results as of day 200: the score of
    the ticker is 92.3 with the one and 100.3 with the other, because the
    screening adds the quality points of the fundamentals of today. *)
Theorem screening_reads_fundamentals_of_today :
  (∀ ticker, known_bars provider_on_day_200 200 ticker
             = known_bars provider_later 200 ticker) ∧
  map score (screening_pass provider_on_day_200 ["VOLV-B.ST"%string] 200)
  = [num 92.3] ∧
  map score (screening_pass provider_later ["VOLV-B.ST"%string] 200)
  = [num 100.3] ∧
  screening_pass provider_on_day_200 ["VOLV-B.ST"%string] 200
  ≠ screening_pass provider_later ["VOLV-B.ST"%string] 200.
Proof.
  assert (H1 : map score (screening_pass provider_on_day_200 ["VOLV-B.ST"%string] 200)
               = [num 92.3]).
  { vm_compute. f_equal; try (apply Qc_is_canon; reflexivity). }
  assert (H2 : map score (screening_pass provider_later ["VOLV-B.ST"%string] 200)
               = [num 100.3]).
  { vm_compute. f_equal; try (apply Qc_is_canon; reflexivity). }
  split; [|split; [done|split; [done|]]].
  - intros ticker. unfold known_bars, provider_on_day_200, provider_later.
    simpl. destruct (decide (ticker = "VOLV-B.ST"%string)); [|done].
    vm_compute. reflexivity.
  - intros Heq. rewrite Heq, H2 in H1.
    apply (f_equal (λ l : list Qc, option_map (λ x : Qc, Qnum x) (head l))) in H1.
    vm_compute in H1. discriminate H1.
Qed.

End NoLookahead.

(** * Further properties *)

Ltac closed_cmp := vm_compute; (reflexivity || discriminate).

(** ** Trades of the portfolio *)

Lemma Qc_of_Z_eq_0 (z : Z) : Qc_of_Z z = 0 → z = 0%Z.
Proof.
  intros H. apply (f_equal (λ x : Qc, Qnum x)) in H. exact H.
Qed.

(** A positive [int(x)] is at most [x]. *)
Lemma py_int_pos_le (x : Qc) : (0 < py_int x)%Z → Qc_of_Z (py_int x) <= x.
Proof.
  unfold py_int. destruct x as [[n d] Hc]. simpl. intros Hpos.
  assert (Hn : (0 <= n)%Z).
  { destruct (Z_lt_le_dec n 0) as [Hneg|]; [|done].
    pose proof (Z.quot_opp_l n (Z.pos d) ltac:(lia)).
    pose proof (Z.quot_pos (- n) (Z.pos d) ltac:(lia) ltac:(lia)). lia. }
  rewrite Z.quot_div_nonneg by lia.
  unfold Qcle. simpl. apply (Qfloor_le (n # d)).
Qed.

Lemma Qc_pos_neq_0 (x : Qc) : 0 < x → x ≠ 0.
Proof. intros H ->. by apply Qclt_not_eq in H. Qed.

(** What a successful [buy] pays is at most the amount asked for plus
    fees. *)
Lemma buy_actual_cost_le (amount price tc : Qc) :
  0 < price → 0 <= tc → (0 < py_int (amount / price))%Z →
  Qc_of_Z (py_int (amount / price)) * price * (1 + tc) <= amount * (1 + tc).
Proof.
  intros Hprice Htc Hshares.
  apply Qcmult_le_compat_r; [|qc_unfold; lra].
  rewrite <- (Qcmult_div_r amount price) at 2 by by apply Qc_pos_neq_0.
  rewrite (Qcmult_comm price).
  apply Qcmult_le_compat_r; [by apply py_int_pos_le|by apply Qclt_le_weak].
Qed.

(** The three outcomes of [buy], with the state each leaves. *)
Lemma buy_Ok_true_inv ticker amount price tc p :
  fst (Portfolio.buy ticker amount price tc p) = Ok true →
  amount * (1 + tc) <= Portfolio.cash p ∧ price ≠ 0 ∧
  (0 < py_int (amount / price))%Z ∧
  Portfolio.cash (snd (Portfolio.buy ticker amount price tc p))
  = Portfolio.cash p - Qc_of_Z (py_int (amount / price)) * price * (1 + tc) ∧
  Portfolio.holdings (snd (Portfolio.buy ticker amount price tc p))
  = <[ticker :=
        match Portfolio.holdings p !! ticker with
        | Some held =>
            Portfolio.Position
              (Portfolio.shares held + py_int (amount / price))
              ((Qc_of_Z (Portfolio.shares held) * Portfolio.entry_price held
                + Qc_of_Z (py_int (amount / price)) * price)
               / Qc_of_Z (Portfolio.shares held + py_int (amount / price)))
        | None => Portfolio.Position (py_int (amount / price)) price
        end]> (Portfolio.holdings p) ∧
  (∀ held, Portfolio.holdings p !! ticker = Some held →
     (Portfolio.shares held + py_int (amount / price))%Z ≠ 0%Z).
Proof.
  unfold Portfolio.buy.
  destruct (ltb (Portfolio.cash p) (amount * (1 + tc))) eqn:Hcash; [done|].
  apply ltb_ge in Hcash.
  destruct (decide (price = 0)) as [|Hprice]; [done|].
  destruct (Z.leb_spec (py_int (amount / price)) 0) as [|Hshares]; [done|].
  destruct (Portfolio.holdings p !! ticker) as [held|] eqn:Hheld.
  - destruct (decide _) as [|Htotal]; [done|]. intros _.
    repeat split; try done. by intros ? [= <-].
  - intros _. repeat split; try done.
Qed.

(** A successful [buy] at a positive price and a fee rate that is not
    negative never overdraws: the cash afterwards is at most what it was
    and at least zero. *)
Theorem buy_never_overdraws ticker amount price tc p :
  0 < price → 0 <= tc →
  fst (Portfolio.buy ticker amount price tc p) = Ok true →
  0 <= Portfolio.cash (snd (Portfolio.buy ticker amount price tc p))
  ∧ Portfolio.cash (snd (Portfolio.buy ticker amount price tc p))
    <= Portfolio.cash p.
Proof.
  intros Hprice Htc Hbuy.
  destruct (buy_Ok_true_inv _ _ _ _ _ Hbuy) as (Hcash & _ & Hshares & -> & _).
  pose proof (buy_actual_cost_le amount price tc Hprice Htc Hshares) as Hcost.
  assert (Hpaid : 0 <= Qc_of_Z (py_int (amount / price)) * price * (1 + tc)).
  { apply Qcmult_nonneg; [|qc_unfold; lra].
    apply Qcmult_nonneg; [|by apply Qclt_le_weak].
    qc_unfold. unfold Qle. simpl. lia. }
  set (paid := Qc_of_Z (py_int (amount / price)) * price * (1 + tc)) in *.
  clearbody paid. set (cost := amount * (1 + tc)) in *. clearbody cost.
  split; qc_unfold; lra.
Qed.

Lemma buy_never_overdraws_witness :
  0 <= Portfolio.cash (snd (Portfolio.buy "VOLV-B.ST" (num 25000) (num 250)
                              (num 0.0025) (Portfolio.init (num 100000))))
  ∧ Portfolio.cash (snd (Portfolio.buy "VOLV-B.ST" (num 25000) (num 250)
                           (num 0.0025) (Portfolio.init (num 100000))))
    <= Portfolio.cash (Portfolio.init (num 100000)).
Proof.
  apply (buy_never_overdraws "VOLV-B.ST" (num 25000) (num 250) (num 0.0025)
           (Portfolio.init (num 100000))); reflexivity || closed_cmp.
Defined.

(** Buying more of a held ticker keeps the cost basis: the new average
    cost times the new share count is the old basis plus what the new lot
    cost before fees. *)
Theorem buy_averages_cost_basis ticker amount price tc p held :
  Portfolio.holdings p !! ticker = Some held →
  fst (Portfolio.buy ticker amount price tc p) = Ok true →
  ∃ pos,
    Portfolio.holdings (snd (Portfolio.buy ticker amount price tc p)) !! ticker
    = Some pos ∧
    Portfolio.shares pos
    = (Portfolio.shares held + py_int (amount / price))%Z ∧
    Portfolio.entry_price pos * Qc_of_Z (Portfolio.shares pos)
    = Qc_of_Z (Portfolio.shares held) * Portfolio.entry_price held
      + Qc_of_Z (py_int (amount / price)) * price.
Proof.
  intros Hheld Hbuy.
  destruct (buy_Ok_true_inv _ _ _ _ _ Hbuy) as (_ & _ & _ & _ & -> & Htotal).
  specialize (Htotal held Hheld). rewrite Hheld, lookup_insert_eq.
  eexists. split; [done|]. split; [done|]. simpl.
  rewrite Qcmult_comm. apply Qcmult_div_r.
  intros H0%Qc_of_Z_eq_0. done.
Qed.

Lemma held_portfolio_position :
  Portfolio.holdings held_portfolio !! "VOLV-B.ST"%string
  = Some (Portfolio.Position 100 (num 250)).
Proof. vm_compute. f_equal. Qed.

Lemma buy_averages_cost_basis_witness :
  ∃ pos,
    Portfolio.holdings
      (snd (Portfolio.buy "VOLV-B.ST" (num 15000) (num 300) (num 0.0025)
              held_portfolio)) !! "VOLV-B.ST"%string = Some pos ∧
    Portfolio.shares pos = (100 + py_int (num 15000 / num 300))%Z ∧
    Portfolio.entry_price pos * Qc_of_Z (Portfolio.shares pos)
    = Qc_of_Z 100 * num 250 + Qc_of_Z (py_int (num 15000 / num 300)) * num 300.
Proof.
  apply (buy_averages_cost_basis "VOLV-B.ST" (num 15000) (num 300) (num 0.0025)
           held_portfolio (Portfolio.Position 100 (num 250))).
  - exact held_portfolio_position.
  - reflexivity.
Defined.

(** After a sale the ticker is gone and the count of holdings is one less;
    buying it again opens a fresh position at the new price, with nothing
    of the old average cost. *)
Theorem sell_then_buy_opens_fresh_position ticker price tc amount price' tc' p held :
  Portfolio.holdings p !! ticker = Some held →
  let sold := snd (Portfolio.sell ticker price tc p) in
  fst (Portfolio.sell ticker price tc p) = true ∧
  Portfolio.holdings sold !! ticker = None ∧
  S (Portfolio.get_holdings_count sold) = Portfolio.get_holdings_count p ∧
  (fst (Portfolio.buy ticker amount price' tc' sold) = Ok true →
   Portfolio.holdings (snd (Portfolio.buy ticker amount price' tc' sold)) !! ticker
   = Some (Portfolio.Position (py_int (amount / price')) price')).
Proof.
  intros Hheld. unfold Portfolio.sell. rewrite Hheld. cbn [fst snd].
  split; [done|]. split; [apply lookup_delete_eq|]. split.
  - unfold Portfolio.get_holdings_count. cbn [Portfolio.holdings Portfolio.set_holdings Portfolio.set_cash].
    rewrite map_size_delete_Some by (by exists held).
    assert (size (Portfolio.holdings p) ≠ 0%nat).
    { apply map_size_non_empty_iff. intros He. rewrite He in Hheld.
      by rewrite lookup_empty in Hheld. }
    lia.
  - intros Hbuy.
    destruct (buy_Ok_true_inv _ _ _ _ _ Hbuy) as (_ & _ & _ & _ & -> & _).
    cbn [Portfolio.holdings Portfolio.set_holdings Portfolio.set_cash].
    by rewrite lookup_delete_eq, lookup_insert_eq.
Qed.

Lemma sell_then_buy_opens_fresh_position_witness :
  let sold := snd (Portfolio.sell "VOLV-B.ST" (num 260) (num 0.0025) held_portfolio) in
  fst (Portfolio.sell "VOLV-B.ST" (num 260) (num 0.0025) held_portfolio) = true ∧
  Portfolio.holdings sold !! "VOLV-B.ST"%string = None ∧
  S (Portfolio.get_holdings_count sold) = Portfolio.get_holdings_count held_portfolio ∧
  (fst (Portfolio.buy "VOLV-B.ST" (num 15000) (num 300) (num 0.0025) sold) = Ok true →
   Portfolio.holdings
     (snd (Portfolio.buy "VOLV-B.ST" (num 15000) (num 300) (num 0.0025) sold))
     !! "VOLV-B.ST"%string
   = Some (Portfolio.Position (py_int (num 15000 / num 300)) (num 300))).
Proof.
  apply (sell_then_buy_opens_fresh_position "VOLV-B.ST" (num 260) (num 0.0025)
           (num 15000) (num 300) (num 0.0025) held_portfolio
           (Portfolio.Position 100 (num 250))).
  exact held_portfolio_position.
Defined.

(** At the price of the trade, a purchase lowers the value of the
    portfolio by the fee and by nothing else. *)
Theorem buy_costs_only_the_fee (prices : gmap string Qc) ticker amount price tc p :
  prices !! ticker = Some price →
  fst (Portfolio.buy ticker amount price tc p) = Ok true →
  Portfolio.get_total_value prices (snd (Portfolio.buy ticker amount price tc p))
  = Portfolio.get_total_value prices p
    - Qc_of_Z (py_int (amount / price)) * price * tc.
Proof.
  intros Hquote Hbuy.
  destruct (buy_Ok_true_inv _ _ _ _ _ Hbuy) as (_ & _ & _ & Hcash & Hhold & _).
  unfold Portfolio.get_total_value. rewrite Hcash, Hhold. clear Hcash Hhold Hbuy.
  set (n := Qc_of_Z (py_int (amount / price))).
  destruct (Portfolio.holdings p !! ticker) as [held|] eqn:Hheld.
  - rewrite <- (insert_delete_eq (Portfolio.holdings p)).
    rewrite holdings_value_insert by apply lookup_delete_eq.
    rewrite (holdings_value_delete prices (Portfolio.holdings p) ticker held)
      by done.
    unfold Portfolio.price_or_zero. rewrite Hquote.
    cbn [Portfolio.shares default]. 
    replace (Qc_of_Z (Portfolio.shares held + py_int (amount / price)))
      with (Qc_of_Z (Portfolio.shares held) + n).
    + unfold id. ring.
    + subst n. apply Qc_is_canon. unfold Qc_of_Z, Qcplus, Q2Qc. cbn [this].
      rewrite Qred_correct. by rewrite inject_Z_plus.
  - rewrite holdings_value_insert by done.
    unfold Portfolio.price_or_zero. rewrite Hquote.
    cbn [Portfolio.shares default]. unfold id. fold n. ring.
Qed.

Lemma buy_costs_only_the_fee_witness :
  Portfolio.get_total_value drawdown_prices
    (snd (Portfolio.buy "VOLV-B.ST" (num 15000) (num 130.625) (num 0.0025)
            held_portfolio))
  = Portfolio.get_total_value drawdown_prices held_portfolio
    - Qc_of_Z (py_int (num 15000 / num 130.625)) * num 130.625 * num 0.0025.
Proof.
  apply (buy_costs_only_the_fee drawdown_prices "VOLV-B.ST" (num 15000)
           (num 130.625) (num 0.0025) held_portfolio); reflexivity.
Defined.

(** At the price of the trade, a sale lowers the value of the portfolio by
    the fee and by nothing else. *)
Theorem sell_costs_only_the_fee (prices : gmap string Qc) ticker price tc p held :
  prices !! ticker = Some price →
  Portfolio.holdings p !! ticker = Some held →
  Portfolio.get_total_value prices (snd (Portfolio.sell ticker price tc p))
  = Portfolio.get_total_value prices p
    - Qc_of_Z (Portfolio.shares held) * price * tc.
Proof.
  intros Hquote Hheld. unfold Portfolio.sell. rewrite Hheld.
  unfold Portfolio.get_total_value.
  cbn [snd Portfolio.holdings Portfolio.cash Portfolio.set_holdings Portfolio.set_cash].
  rewrite (holdings_value_delete prices (Portfolio.holdings p) ticker held) by done.
  unfold Portfolio.price_or_zero. rewrite Hquote. cbn [default]. unfold id. ring.
Qed.

Lemma sell_costs_only_the_fee_witness :
  Portfolio.get_total_value drawdown_prices
    (snd (Portfolio.sell "VOLV-B.ST" (num 130.625) (num 0.0025) held_portfolio))
  = Portfolio.get_total_value drawdown_prices held_portfolio
    - Qc_of_Z 100 * num 130.625 * num 0.0025.
Proof.
  apply (sell_costs_only_the_fee drawdown_prices "VOLV-B.ST" (num 130.625)
           (num 0.0025) held_portfolio (Portfolio.Position 100 (num 250)));
    [reflexivity|exact held_portfolio_position].
Defined.

(** ** Liquidation, dividends and the drawdown reading *)

Lemma sell_all_fold (prices : gmap string Qc) (tc : Qc)
    (l : list (string * Portfolio.position)) :
  NoDup l.*1 →
  ∀ q, (∀ k pos, (k, pos) ∈ l → Portfolio.holdings q !! k = Some pos) →
  let r := foldl (λ q ticker,
                    match prices !! ticker with
                    | Some price => snd (Portfolio.sell ticker price tc q)
                    | None => q
                    end) q l.*1 in
  Portfolio.cash r
  = Portfolio.cash q
    + (1 - tc) * foldr (uncurry (λ ticker pos acc,
                                   acc + Qc_of_Z (Portfolio.shares pos)
                                         * Portfolio.price_or_zero prices ticker)) 0 l
  ∧ ∀ k, Portfolio.holdings r !! k
         = if decide (k ∈ l.*1 ∧ is_Some (prices !! k)) then None
           else Portfolio.holdings q !! k.
Proof.
  induction l as [|[t pos] l IH]; intros Hnd q Hl;
    rewrite ?fmap_nil, ?fmap_cons in *; cbn [foldl foldr fst snd uncurry] in *.
  - split; [ring|]. intros k. case_decide as Hk; [|done].
    destruct Hk as [Hk _]. by apply elem_of_nil in Hk.
  - apply NoDup_cons in Hnd as [Hnot Hnd].
    assert (Hpos : Portfolio.holdings q !! t = Some pos) by (apply Hl; left).
    destruct (prices !! t) as [price|] eqn:Hquote.
    + cbv zeta.
      assert (Hsell : ∃ q1, snd (Portfolio.sell t price tc q) = q1 ∧
                q1 = Portfolio.set_holdings (delete t (Portfolio.holdings q))
                       (Portfolio.set_cash
                          (Portfolio.cash q
                           + Qc_of_Z (Portfolio.shares pos) * price * (1 - tc)) q)).
      { unfold Portfolio.sell. rewrite Hpos. eauto. }
      destruct Hsell as (q1 & -> & Hq1).
      destruct (IH Hnd q1) as [Hcash Hhold].
      { intros k pos' Hin. rewrite Hq1. cbn.
        rewrite lookup_delete_ne; [apply Hl; by right|].
        intros ->. apply Hnot. apply list_elem_of_fmap. by exists (k, pos'). }
      cbv zeta in Hcash, Hhold. rewrite Hcash. split.
      * rewrite Hq1. cbn [Portfolio.cash Portfolio.set_holdings Portfolio.set_cash].
        replace (Portfolio.price_or_zero prices t) with price
          by (unfold Portfolio.price_or_zero; by rewrite Hquote).
        ring.
      * intros k. rewrite Hhold, Hq1.
        cbn [Portfolio.holdings Portfolio.set_holdings Portfolio.set_cash].
        destruct (decide (k = t)) as [->|Hne].
        -- rewrite lookup_delete_eq, Hquote.
           rewrite (decide_True (P := t ∈ t :: l.*1 ∧ _)) by (split; [left|eauto]).
           by case_decide.
        -- rewrite lookup_delete_ne by done.
           repeat case_decide; try done.
           ++ exfalso. destruct H as [? ?]. apply H0. split; [by right|done].
           ++ exfalso. destruct H0 as [Hin ?]. apply H. split; [|done].
              apply elem_of_cons in Hin as [?|?]; done.
    + destruct (IH Hnd q) as [Hcash Hhold].
      { intros k pos' Hin. apply Hl. by right. }
      cbv zeta in Hcash, Hhold. rewrite Hcash. split.
      * replace (Portfolio.price_or_zero prices t) with (0 : Qc)
          by (unfold Portfolio.price_or_zero; by rewrite Hquote).
        ring.
      * intros k. rewrite Hhold.
        repeat case_decide; try done.
        -- exfalso. destruct H as [? ?]. apply H0. split; [by right|done].
        -- exfalso. destruct H0 as [Hin Hq]. apply H. split; [|done].
           apply elem_of_cons in Hin as [->|?]; [|done].
           rewrite Hquote in Hq. by destruct Hq.
Qed.

(** [sell_all] sells every holding that has a quote and keeps the others:
    a quoted ticker is gone afterwards, an unquoted one keeps its position,
    and the cash grows by the quoted value of the holdings less the fee. *)
Theorem sell_all_liquidates_quoted_holdings (prices : gmap string Qc) tc p :
  (∀ k, Portfolio.holdings (Portfolio.sell_all prices tc p) !! k
        = match prices !! k with
          | Some _ => None
          | None => Portfolio.holdings p !! k
          end) ∧
  Portfolio.cash (Portfolio.sell_all prices tc p)
  = Portfolio.cash p
    + (1 - tc) * Portfolio.holdings_value prices (Portfolio.holdings p).
Proof.
  unfold Portfolio.sell_all.
  change (map fst (map_to_list (Portfolio.holdings p)))
    with ((map_to_list (Portfolio.holdings p)).*1).
  destruct (sell_all_fold prices tc (map_to_list (Portfolio.holdings p))
              (NoDup_fst_map_to_list _) p) as [Hcash Hhold].
  { intros k pos. apply elem_of_map_to_list. }
  cbv zeta in Hcash, Hhold. split.
  - intros k. rewrite Hhold. case_decide as Hk.
    + destruct Hk as [_ [x ->]]. done.
    + destruct (prices !! k) as [x|] eqn:Hq; [|done].
      destruct (Portfolio.holdings p !! k) as [pos|] eqn:Hpos; [|done].
      exfalso. apply Hk. split; [|eauto].
      apply list_elem_of_fmap. exists (k, pos). split; [done|].
      by apply elem_of_map_to_list.
  - rewrite Hcash. unfold Portfolio.holdings_value. by rewrite map_fold_foldr.
Qed.

Lemma dividends_of_ticker_booked (p : Portfolio.t) (n : Qc)
    (evs : list (Z * Qc)) (r : Qc * Portfolio.t) :
  dividends_booked p r →
  dividends_booked p
    (foldl (λ '(pd, q1) ev,
              let div_received := n * ev.2 in
              (pd + div_received,
               Portfolio.set_total_dividends
                 (Portfolio.total_dividends q1 + div_received)
                 (Portfolio.set_cash (Portfolio.cash q1 + div_received) q1)))
           r evs).
Proof.
  revert r. induction evs as [|ev evs IH]; intros [pd q] Hr; [done|].
  cbn [foldl]. apply IH.
  destruct Hr as (Hc & Hd & Hh & Hi & Hk). unfold dividends_booked.
  cbn [fst snd Portfolio.cash Portfolio.total_dividends Portfolio.holdings
       Portfolio.total_isk_tax Portfolio.initial_capital
       Portfolio.set_total_dividends Portfolio.set_cash] in *.
  repeat split; try done.
  - rewrite <- Hc. ring.
  - rewrite <- Hd. ring.
Qed.

Lemma dividends_of_holdings_booked (data : gmap string Portfolio.dividend_series)
    (s e : Z) (p : Portfolio.t) (l : list (string * Portfolio.position))
    (r : Qc * Portfolio.t) :
  dividends_booked p r →
  dividends_booked p
    (foldl (λ '(period_dividends, q) '(ticker, pos),
              match data !! ticker with
              | None => (period_dividends, q)
              | Some dividends =>
                  let period_divs :=
                    filter (λ ev, (s <? fst ev)%Z && (fst ev <=? e)%Z) dividends in
                  foldl (λ '(pd, q1) ev,
                           let div_received := Qc_of_Z (Portfolio.shares pos) * snd ev in
                           (pd + div_received,
                            Portfolio.set_total_dividends
                              (Portfolio.total_dividends q1 + div_received)
                              (Portfolio.set_cash (Portfolio.cash q1 + div_received) q1)))
                        (period_dividends, q) period_divs
              end)
           r l).
Proof.
  revert r. induction l as [|[ticker pos] l IH]; intros [pd q] Hr; [done|].
  cbn [foldl]. apply IH.
  destruct (data !! ticker) as [dividends|]; [|done].
  by apply dividends_of_ticker_booked.
Qed.

(** The amount that [collect_dividends] returns is exactly what it adds to
    the cash and to the running total of dividends; the holdings, the tax
    total and the initial capital are left as they were. *)
Theorem collect_dividends_books_what_it_returns
    (data : gmap string Portfolio.dividend_series) (s e : Z) (p : Portfolio.t) :
  let r := Portfolio.collect_dividends data s e p in
  Portfolio.cash r.2 = Portfolio.cash p + r.1 ∧
  Portfolio.total_dividends r.2 = Portfolio.total_dividends p + r.1 ∧
  Portfolio.holdings r.2 = Portfolio.holdings p ∧
  Portfolio.total_isk_tax r.2 = Portfolio.total_isk_tax p ∧
  Portfolio.initial_capital r.2 = Portfolio.initial_capital p.
Proof.
  intros r.
  assert (H : dividends_booked p r).
  { apply dividends_of_holdings_booked. repeat split; cbn [fst snd]; ring. }
  destruct H as (Hc & Hd & Hh & Hi & Hk).
  repeat split; try done.
  - rewrite <- Hc. ring.
  - rewrite <- Hd. ring.
Qed.

(** Reading the drawdown twice at the same prices gives the same answer
    and leaves the portfolio as the first reading left it: the peak moves
    at most once. *)
Theorem get_drawdown_adjustment_idempotent (prices : gmap string Qc) (p : Portfolio.t) :
  Portfolio.get_drawdown_adjustment prices
    (snd (Portfolio.get_drawdown_adjustment prices p))
  = Portfolio.get_drawdown_adjustment prices p.
Proof.
  unfold Portfolio.get_drawdown_adjustment at 2 3. cbv zeta.
  set (v := Portfolio.get_total_value prices p).
  set (p1 := if ltb (Portfolio.peak_value p) v
             then Portfolio.set_peak_value v p else p).
  assert (Hv : Portfolio.get_total_value prices p1 = v).
  { subst p1. by destruct (ltb _ _). }
  assert (Hpk : ltb (Portfolio.peak_value p1) v = false).
  { subst p1. destruct (ltb (Portfolio.peak_value p) v) eqn:Hlt; [|done].
    cbn [Portfolio.peak_value Portfolio.set_peak_value].
    apply ltb_ge. apply Qcle_refl. }
  assert (Hsnd : ∀ A (x : res A) B (y z : B) (b : bool), snd (if b then (x, p1) else (x, p1)) = p1)
    by (by intros ? ? ? ? ? []).
  assert (Hagain : Portfolio.get_drawdown_adjustment prices p1
                   = (if decide (Portfolio.peak_value p1 = 0)
                      then (Raise ZeroDivisionError, p1)
                      else
                        let '(size_multiplier, risk_level) :=
                          Portfolio.drawdown_band
                            ((Portfolio.peak_value p1 - v) / Portfolio.peak_value p1 * num 100) in
                        (Ok ((Portfolio.peak_value p1 - v) / Portfolio.peak_value p1 * num 100,
                             size_multiplier, risk_level), p1))).
  { unfold Portfolio.get_drawdown_adjustment. cbv zeta. rewrite Hv, Hpk. done. }
  destruct (decide (Portfolio.peak_value p1 = 0)) as [Hz|Hz].
  - cbn [snd]. exact Hagain.
  - destruct (Portfolio.drawdown_band _) as [m lvl]. cbn [snd]. exact Hagain.
Qed.

(** ** Rebalance dates, continued *)

Section RebalanceDatesFurther.
Import Calendar Backtester.

Lemma monthly_from_first_of_month_witness :
  ∃ dates,
    generate_rebalance_dates 4 (Datetime 2020 11 1) (Datetime 2021 1 15) "monthly"
    = Some (Ok dates)
    ∧ Forall (λ d, day d = 1%Z) dates.
Proof.
  apply (monthly_from_first_of_month 3 (Datetime 2020 11 1) (Datetime 2021 1 15));
    (reflexivity || (simpl; lia)).
Defined.

(** Whatever the frequency, a finished generation starts with the start
    date when that is not after the end date and is empty otherwise, and no
    generated date is after the end date. *)
Theorem rebalance_dates_start_and_range (fuel : nat) (start end_ : datetime)
    (frequency : string) (dates : list datetime) :
  generate_rebalance_dates fuel start end_ frequency = Some (Ok dates) →
  Forall (λ d, le d end_ = true) dates ∧
  (le start end_ = true → head dates = Some start) ∧
  (le start end_ = false → dates = []).
Proof.
  unfold generate_rebalance_dates.
  revert start dates. induction fuel as [|fuel IH]; intros cur dates; [done|].
  cbn [generate_from].
  destruct (le cur end_) eqn:Hle.
  - destruct (advance frequency cur) as [next|e]; [|done].
    destruct (generate_from fuel frequency next end_) as [[rest|e]|] eqn:Hrest;
      [|done..].
    intros [= <-]. destruct (IH _ _ Hrest) as (Hall & _ & _).
    split; [by constructor|]. split; [done|]. intros Hf. discriminate Hf.
  - intros [= <-]. split; [constructor|]. split; [intros Hf; discriminate Hf|done].
Qed.

Lemma rebalance_dates_start_and_range_witness :
  Forall (λ d, le d (Datetime 2020 2 29) = true)
    [Datetime 2020 1 27; Datetime 2020 2 3; Datetime 2020 2 10;
     Datetime 2020 2 17; Datetime 2020 2 24] ∧
  (le (Datetime 2020 1 27) (Datetime 2020 2 29) = true →
   head [Datetime 2020 1 27; Datetime 2020 2 3; Datetime 2020 2 10;
         Datetime 2020 2 17; Datetime 2020 2 24] = Some (Datetime 2020 1 27)) ∧
  (le (Datetime 2020 1 27) (Datetime 2020 2 29) = false →
   [Datetime 2020 1 27; Datetime 2020 2 3; Datetime 2020 2 10;
    Datetime 2020 2 17; Datetime 2020 2 24] = []).
Proof.
  apply (rebalance_dates_start_and_range 6 (Datetime 2020 1 27)
           (Datetime 2020 2 29) "weekly").
  reflexivity.
Defined.

(** With a frequency that is neither "monthly" nor "weekly" the loop never
    moves its date: from a start date that is not after the end date it
    does not end, whatever the number of iterations allowed. *)
Theorem unknown_frequency_never_ends (start end_ : datetime) (frequency : string) :
  frequency ≠ "monthly"%string → frequency ≠ "weekly"%string →
  le start end_ = true →
  ∀ fuel, generate_rebalance_dates fuel start end_ frequency = None.
Proof.
  intros Hm Hw Hle. unfold generate_rebalance_dates.
  induction fuel as [|fuel IH]; [done|].
  cbn [generate_from]. rewrite Hle.
  unfold advance. rewrite decide_False, decide_False by done.
  by rewrite IH.
Qed.

Lemma unknown_frequency_never_ends_witness :
  le (Datetime 2020 1 1) (Datetime 2020 12 31) = true ∧
  ∀ fuel, generate_rebalance_dates fuel (Datetime 2020 1 1) (Datetime 2020 12 31)
            "quarterly" = None.
Proof.
  split; [reflexivity|].
  apply (unknown_frequency_never_ends (Datetime 2020 1 1) (Datetime 2020 12 31)
           "quarterly"); [discriminate|discriminate|reflexivity].
Defined.

End RebalanceDatesFurther.

(** ** Snapshot and screening *)

Section Screening.
Import MaCalculator Screener Backtester.

Lemma screening_pass_ignores_later_bars_witness :
  screening_pass provider_on_day_200 ["VOLV-B.ST"%string] 200
  = screening_pass provider_later_prices ["VOLV-B.ST"%string] 200.
Proof.
  apply (screening_pass_ignores_later_bars provider_on_day_200
           provider_later_prices ["VOLV-B.ST"%string] 200).
  - intros ticker. unfold known_bars, provider_on_day_200, provider_later_prices.
    simpl. destruct (decide (ticker = "VOLV-B.ST"%string)); [|reflexivity].
    vm_compute. reflexivity.
  - intros ticker. reflexivity.
Defined.

Lemma dict_set_keys {V} (d : list (string * V)) k v k' :
  k' ∈ (dict_set d k v).*1 ↔ k' = k ∨ k' ∈ d.*1.
Proof.
  induction d as [|[k0 v0] d IH]; cbn [dict_set].
  - rewrite fmap_cons, fmap_nil, elem_of_cons, elem_of_nil. cbn. tauto.
  - destruct (decide (k = k0)) as [->|Hne].
    + rewrite !fmap_cons, !elem_of_cons. cbn. tauto.
    + rewrite !fmap_cons, !elem_of_cons, IH. cbn. tauto.
Qed.

Lemma dict_set_NoDup {V} (d : list (string * V)) k v :
  NoDup d.*1 → NoDup (dict_set d k v).*1.
Proof.
  induction d as [|[k0 v0] d IH]; cbn [dict_set]; intros Hnd.
  - rewrite fmap_cons, fmap_nil. apply NoDup_singleton.
  - rewrite fmap_cons in Hnd. apply NoDup_cons in Hnd as [Hnot Hnd].
    destruct (decide (k = k0)) as [->|Hne].
    + rewrite fmap_cons. by apply NoDup_cons.
    + rewrite fmap_cons. apply NoDup_cons. split; [|by apply IH].
      rewrite dict_set_keys. cbn in *. intros [?|?]; [congruence|done].
Qed.

Lemma elem_of_dict_set {V} (d : list (string * V)) k v k' v' :
  NoDup d.*1 →
  (k', v') ∈ dict_set d k v ↔ (k' = k ∧ v' = v) ∨ (k' ≠ k ∧ (k', v') ∈ d).
Proof.
  induction d as [|[k0 v0] d IH]; cbn [dict_set]; intros Hnd.
  - rewrite list_elem_of_singleton, elem_of_nil. split.
    + intros [= -> ->]. by left.
    + intros [[-> ->]|[_ []]]. done.
  - rewrite fmap_cons in Hnd. apply NoDup_cons in Hnd as [Hnot Hnd]. cbn in Hnot.
    destruct (decide (k = k0)) as [->|Hne].
    + rewrite !elem_of_cons. split.
      * intros [[= -> ->]|Hin]; [by left|]. right. split; [|by right].
        intros ->. apply Hnot. apply list_elem_of_fmap. by exists (k0, v').
      * intros [[-> ->]|[Hk [[= -> ->]|Hin]]]; [by left|done|by right].
    + rewrite !elem_of_cons, IH by done. split.
      * intros [[= -> ->]|[[-> ->]|[Hk Hin]]].
        -- right. split; [congruence|by left].
        -- by left.
        -- right. split; [done|by right].
      * intros [[-> ->]|[Hk [[= -> ->]|Hin]]].
        -- right. by left.
        -- by left.
        -- right. right. done.
Qed.

Lemma snapshot_characterised (P : provider) (as_of_date : Z) (stocks : list string) :
  NoDup (fetch_historical_snapshot P stocks as_of_date).*1 ∧
  ∀ k v, (k, v) ∈ fetch_historical_snapshot P stocks as_of_date
         ↔ k ∈ stocks ∧ v = known_bars P as_of_date k ∧ (200 <= length v)%nat.
Proof.
  unfold fetch_historical_snapshot.
  induction stocks as [|t stocks IH] using rev_ind.
  - split; [constructor|]. intros k v. cbn. rewrite !elem_of_nil. tauto.
  - rewrite foldl_snoc. cbv zeta in *. rewrite snapshot_step_known.
    destruct IH as [Hnd IH].
    destruct (200 <=? length (known_bars P as_of_date t))%nat eqn:Hlen.
    + apply Nat.leb_le in Hlen. split; [by apply dict_set_NoDup|].
      intros k v. rewrite elem_of_dict_set by done. rewrite IH, elem_of_app,
        list_elem_of_singleton.
      split.
      * intros [[-> ->]|[Hk (Hin & Hv & Hl)]]; [by auto|by auto].
      * intros ([Hin| ->] & Hv & Hl).
        -- destruct (decide (k = t)) as [->|Hne]; [by left|right]. done.
        -- by left.
    + apply Nat.leb_gt in Hlen. split; [done|].
      intros k v. rewrite IH, elem_of_app, list_elem_of_singleton. split.
      * intros (Hin & Hv & Hl). auto.
      * intros ([Hin| ->] & Hv & Hl); [done|]. subst v. lia.
Qed.

(** The snapshot of a date holds each ticker at most once; every frame in
    it belongs to a requested ticker, is exactly the bars of that ticker
    dated at or before the date, and has at least 200 of them; and a
    requested ticker is in the snapshot exactly when it has 200 such bars. *)
Theorem snapshot_holds_the_known_bars (P : provider) (stocks : list string)
    (as_of_date : Z) :
  let snapshot := fetch_historical_snapshot P stocks as_of_date in
  NoDup snapshot.*1 ∧
  Forall (λ kv, kv.1 ∈ stocks ∧ kv.2 = known_bars P as_of_date kv.1 ∧
                (200 <= length kv.2)%nat ∧
                Forall (λ b, (Date b <= as_of_date)%Z) kv.2) snapshot ∧
  Forall (λ t, if (200 <=? length (known_bars P as_of_date t))%nat
               then (t, known_bars P as_of_date t) ∈ snapshot
               else t ∉ snapshot.*1) stocks.
Proof.
  intros snapshot.
  destruct (snapshot_characterised P as_of_date stocks) as [Hnd Hin].
  fold snapshot in Hnd, Hin. split; [done|]. split.
  - apply Forall_forall. intros [k v] Hkv. apply Hin in Hkv as (Hk & Hv & Hl).
    cbn [fst snd]. repeat split; try done.
    subst v. unfold known_bars, up_to. apply Forall_forall.
    intros b Hb. by apply list_elem_of_filter in Hb as [Hb _].
  - apply Forall_forall. intros t Ht.
    destruct (200 <=? length (known_bars P as_of_date t))%nat eqn:Hlen.
    + apply Nat.leb_le in Hlen. by apply Hin.
    + apply Nat.leb_gt in Hlen. intros Hkey.
      apply list_elem_of_fmap in Hkey as ([k v] & -> & Hkv).
      apply Hin in Hkv as (_ & -> & Hl). cbn in Hlen. lia.
Qed.

Lemma calculate_stock_score_gate info t (df : list row) bench incl ind :
  let m := calculate_stock_score info t df bench incl ind in
  ticker m = t ∧
  (score m ≠ 0 →
   ∃ cur ma, iloc_neg 1 df = Some cur ∧ MA200 cur = Some ma ∧
             ma < Close (prices cur) ∧
             price m = Close (prices cur) ∧ ma200 m = Some ma ∧
             distance_ma200 m = (Close (prices cur) - ma) / ma * num 100).
Proof.
  unfold calculate_stock_score.
  destruct (iloc_neg 1 df) as [cur|] eqn:Hcur; [|by split].
  destruct (MA200 cur) as [m|] eqn:Hma; [|by split].
  destruct (ltb m (Close (prices cur))) eqn:Hgate; cbn [negb]; [|by split].
  apply ltb_lt in Hgate.
  destruct (trend_alignment (MA50 cur) (MA100 cur) m) as [[al ab] tr].
  destruct bench as [b3 b6].
  cbv zeta. cbn [ticker score price ma200 distance_ma200].
  split; [done|]. intros _. by exists cur, m.
Qed.

Lemma insert_by_score_elem (m x : metrics) (l : list metrics) :
  x ∈ insert_by_score m l ↔ x = m ∨ x ∈ l.
Proof.
  induction l as [|y l IH]; cbn [insert_by_score].
  - rewrite list_elem_of_singleton, elem_of_nil. tauto.
  - destruct (ltb (score m) (score y)).
    + rewrite !elem_of_cons, IH. tauto.
    + by rewrite elem_of_cons.
Qed.

Lemma sort_by_score_elem (x : metrics) (l : list metrics) :
  x ∈ sort_by_score l ↔ x ∈ l.
Proof.
  unfold sort_by_score. induction l as [|y l IH]; cbn [foldr]; [done|].
  rewrite insert_by_score_elem, elem_of_cons, IH. done.
Qed.

Lemma insert_by_score_sorted (m : metrics) (l : list metrics) :
  StronglySorted (λ a b, score b <= score a) l →
  StronglySorted (λ a b, score b <= score a) (insert_by_score m l).
Proof.
  induction 1 as [|y l Hs IH Hall]; cbn [insert_by_score].
  - repeat constructor.
  - destruct (ltb (score m) (score y)) eqn:Hlt.
    + apply ltb_lt in Hlt. constructor; [done|].
      apply Forall_forall. intros z Hz.
      apply (proj1 (insert_by_score_elem _ _ _)) in Hz as [->|Hz].
      * by apply Qclt_le_weak.
      * by eapply Forall_forall in Hall.
    + apply ltb_ge in Hlt. constructor; [by constructor|].
      constructor; [done|].
      eapply Forall_impl; [exact Hall|]. intros z Hz. cbn in *.
      by eapply Qcle_trans.
Qed.

Lemma sort_by_score_sorted (l : list metrics) :
  StronglySorted (λ a b, score b <= score a) (sort_by_score l).
Proof.
  unfold sort_by_score. induction l as [|y l IH]; cbn [foldr]; [constructor|].
  by apply insert_by_score_sorted.
Qed.

(** The screening returns its results by descending score.  Every result
    belongs to a ticker of the snapshot, has a positive score and a
    positive distance to the 200-day average, and its last close is above
    that average: a stock at or below it is never returned. *)
Theorem screening_returns_only_stocks_above_ma200 (P : provider)
    (stock_data : list (string * list bar)) (as_of_date : Z) :
  let results := screen_stocks_historical P stock_data as_of_date in
  StronglySorted (λ a b, score b <= score a) results ∧
  Forall (λ m, ticker m ∈ stock_data.*1 ∧ 0 < score m ∧ 0 < distance_ma200 m ∧
               ∃ ma, ma200 m = Some ma ∧ ma < price m) results.
Proof.
  intros results. split; [apply sort_by_score_sorted|].
  apply Forall_forall. intros m Hm. subst results.
  unfold screen_stocks_historical in Hm. cbv zeta in Hm.
  apply (proj1 (sort_by_score_elem _ _)) in Hm.
  apply list_elem_of_filter in Hm as [Hdist Hm]. apply ltb_lt in Hdist.
  apply list_elem_of_omap in Hm as ([t df] & Hin & Hsome).
  match type of Hsome with
  | context [calculate_stock_score ?i ?t ?d ?b ?f ?g] =>
      pose proof (calculate_stock_score_gate i t d b f g) as [Htick Hgate];
      set (m' := calculate_stock_score i t d b f g) in *
  end.
  destruct (ltb 0 (score m')) eqn:Hscore; [|discriminate Hsome].
  injection Hsome as <-. apply ltb_lt in Hscore.
  destruct Hgate as (cur & ma & _ & _ & Hab & Hprice & Hma & _).
  { intros Hz. rewrite Hz in Hscore. by apply Qclt_not_eq in Hscore. }
  split; [|split; [done|split; [done|]]].
  - rewrite Htick. apply list_elem_of_fmap. by exists (t, df).
  - exists ma. by rewrite Hprice.
Qed.

End Screening.

(** ** Indicators *)

Lemma Qcdiv_le_upper (a b c : Qc) : 0 < b → a <= c * b → a / b <= c.
Proof.
  intros Hb H. apply (Qcmult_lt_0_le_reg_r _ _ b); [done|].
  replace (a / b * b) with a; [done|].
  field. by apply Qc_pos_neq_0.
Qed.

Lemma Qcdiv_le_lower (a b c : Qc) : 0 < b → c * b <= a → c <= a / b.
Proof.
  intros Hb H. apply (Qcmult_lt_0_le_reg_r _ _ b); [done|].
  replace (a / b * b) with a; [done|].
  field. by apply Qc_pos_neq_0.
Qed.

Lemma Qcdiv_lt_upper (a b c : Qc) : 0 < b → a < c * b → a / b < c.
Proof.
  intros Hb H. apply Qcnot_le_lt. intros Hle.
  apply (Qclt_not_le _ _ H).
  replace a with (a / b * b) by (field; by apply Qc_pos_neq_0).
  apply Qcmult_le_compat_r; [done|by apply Qclt_le_weak].
Qed.

Lemma sum_list_bounds (lo hi : Qc) (l : list Qc) :
  Forall (λ x, lo <= x ∧ x <= hi) l →
  Qc_of_Z (Z.of_nat (length l)) * lo <= sum_list l ∧
  sum_list l <= Qc_of_Z (Z.of_nat (length l)) * hi.
Proof.
  induction 1 as [|x l [Hlo Hhi] _ [IHlo IHhi]].
  - cbn [length sum_list foldr].
    replace (Qc_of_Z (Z.of_nat 0)) with (0 : Qc) by (apply Qc_is_canon; reflexivity).
    rewrite !Qcmult_0_l. split; apply Qcle_refl.
  - cbn [length sum_list foldr]. fold (sum_list l).
    replace (Qc_of_Z (Z.of_nat (S (length l))))
      with (1 + Qc_of_Z (Z.of_nat (length l))).
    + split.
      * replace ((1 + Qc_of_Z (Z.of_nat (length l))) * lo)
          with (lo + Qc_of_Z (Z.of_nat (length l)) * lo) by ring.
        by apply Qcplus_le_compat.
      * replace ((1 + Qc_of_Z (Z.of_nat (length l))) * hi)
          with (hi + Qc_of_Z (Z.of_nat (length l)) * hi) by ring.
        by apply Qcplus_le_compat.
    + apply Qc_is_canon. rewrite Nat2Z.inj_succ. unfold Z.succ.
      unfold Qc_of_Z, Qcplus, Q2Qc. cbn [this]. rewrite !Qred_correct.
      rewrite inject_Z_plus. ring.
Qed.

Section Indicators.
Import MaCalculator.

(** A moving average over a positive window has one cell per price; the
    cell of a bar is NaN exactly while the window is not full; and a
    defined average lies between any two bounds of the prices. *)
Theorem moving_average_is_bounded_by_the_prices (prices : list Qc) (window : nat)
    (lo hi : Qc) :
  (0 < window)%nat →
  Forall (λ p, lo <= p ∧ p <= hi) prices →
  length (calculate_ma prices window) = length prices ∧
  ∀ i, (i < length prices)%nat →
    ∃ c, calculate_ma prices window !! i = Some c ∧
         (c = None ↔ (i + 1 < window)%nat) ∧
         ∀ m, c = Some m → lo <= m ∧ m <= hi.
Proof.
  intros Hw Hall. unfold calculate_ma. split; [apply rolling_mean_length|].
  intros i Hi. rewrite rolling_mean_lookup by done.
  eexists. split; [done|].
  destruct (Nat.leb_spec window (i + 1)) as [Hfull|Hshort].
  - split; [split; [done|lia]|]. intros m [= <-].
    set (w := take window (drop (i + 1 - window) prices)).
    assert (Hlen : length w = window).
    { subst w. rewrite length_take, length_drop. lia. }
    destruct (sum_list_bounds lo hi w) as [Hlo Hhi].
    { subst w. by apply Forall_take, Forall_drop. }
    rewrite Hlen in Hlo, Hhi.
    pose proof (Qc_of_Z_pos window Hw) as Hpos.
    split.
    + apply Qcdiv_le_lower; [done|]. by rewrite Qcmult_comm.
    + apply Qcdiv_le_upper; [done|]. by rewrite (Qcmult_comm hi).
  - split; [done|]. intros m Hm. discriminate Hm.
Qed.

Lemma moving_average_is_bounded_by_the_prices_witness :
  length (calculate_ma rising_closes 50) = length rising_closes ∧
  ∀ i, (i < length rising_closes)%nat →
    ∃ c, calculate_ma rising_closes 50 !! i = Some c ∧
         (c = None ↔ (i + 1 < 50)%nat) ∧
         ∀ m, c = Some m → num 1 <= m ∧ m <= num 1000.
Proof.
  apply (moving_average_is_bounded_by_the_prices rising_closes 50 (num 1) (num 1000)).
  - lia.
  - apply (bool_decide_unpack _). vm_compute. reflexivity.
Defined.

Lemma rsi_loss_nonneg (close : list Qc) : Forall (λ x, 0 <= x) (rsi_loss close).
Proof.
  unfold rsi_loss. apply Forall_fmap, Forall_forall. intros [x|] _; cbn.
  - destruct (ltb x 0) eqn:Hx.
    + apply ltb_lt in Hx. qc_unfold. lra.
    + qc_unfold. lra.
  - qc_unfold. lra.
Qed.

Lemma rolling_mean_nonneg (w : nat) (l : list Qc) (i : nat) (m : Qc) :
  Forall (λ x, 0 <= x) l → rolling_mean w l !! i = Some (Some m) → 0 <= m.
Proof.
  intros Hall Hm.
  pose proof (rolling_mean_lookup_Some _ _ _ _ Hm) as Hi.
  rewrite rolling_mean_lookup in Hm by done.
  destruct (Nat.leb_spec w (i + 1)) as [Hle|]; [|done].
  apply (inj Some), (inj Some) in Hm. subst m.
  apply Qcdiv_nonneg; [|apply Qc_of_Z_nonneg].
  by apply sum_list_nonneg, Forall_take, Forall_drop.
Qed.

Lemma rsi_cell_range (g l : Qc) :
  0 <= g → 0 <= l →
  let v := fsub (Fin (num 100))
             (fdiv (Fin (num 100)) (fadd (Fin 1) (fdiv (Fin g) (Fin l)))) in
  v = NaN ∨ ∃ r, v = Fin r ∧ 0 <= r ∧ r <= num 100.
Proof.
  intros Hg Hl v. subst v.
  destruct (decide (l = 0)) as [->|Hne].
  - rewrite rsi_of_zero_loss. destruct (decide (g = 0)); [by left|right].
    exists (num 100). split; [done|]. split; closed_cmp.
  - right. assert (Hlpos : 0 < l).
    { apply Qcnot_le_lt. intros Hle. apply Hne. by apply Qcle_antisym. }
    assert (Hrs : 0 <= g / l) by (apply Qcdiv_nonneg; [done|by apply Qclt_le_weak]).
    set (rs := g / l) in *.
    assert (Hone : 0 < 1 + rs).
    { apply Qclt_le_trans with 1; [closed_cmp|].
      replace 1 with (1 + 0) at 1 by ring. apply Qcplus_le_compat; [apply Qcle_refl|done]. }
    unfold fdiv at 2. rewrite decide_False by done. fold rs. cbn [fadd].
    unfold fdiv. rewrite decide_False by (by apply Qc_pos_neq_0).
    cbn [fsub fneg fadd].
    eexists. split; [done|].
    assert (Hy1 : 0 <= num 100 / (1 + rs)).
    { apply Qcdiv_nonneg; [closed_cmp|by apply Qclt_le_weak]. }
    assert (Hy2 : num 100 / (1 + rs) <= num 100).
    { apply Qcdiv_le_upper; [done|].
      replace (num 100 * (1 + rs)) with (num 100 + num 100 * rs) by ring.
      replace (num 100) with (num 100 + 0) at 1 by ring.
      apply Qcplus_le_compat; [apply Qcle_refl|].
      apply Qcmult_nonneg; [closed_cmp|done]. }
    set (y := num 100 / (1 + rs)) in *. clearbody y.
    split; qc_unfold; lra.
Qed.

(** [calculate_rsi] has one value per close, and every value is either
    NaN or a number from 0 to 100. *)
Theorem rsi_is_nan_or_between_0_and_100 (close : list Qc) (period : nat) :
  length (calculate_rsi close period) = length close ∧
  Forall (λ v, v = NaN ∨ ∃ r, v = Fin r ∧ 0 <= r ∧ r <= num 100)
         (calculate_rsi close period).
Proof.
  unfold calculate_rsi. split.
  - rewrite length_map, length_zip_with.
    unfold rsi_avg_gain, rsi_avg_loss.
    rewrite !rolling_mean_length, rsi_gain_length, rsi_loss_length. lia.
  - apply Forall_forall. intros v Hv.
    apply list_elem_of_fmap in Hv as (rs & -> & Hrs).
    apply list_elem_of_lookup in Hrs as [i Hi].
    apply lookup_zip_with_Some in Hi as (g & l & -> & Hg & Hl).
    destruct g as [g|], l as [l|]; cbn [cell_to_fval]; try (by left).
    apply rsi_cell_range.
    + eapply rolling_mean_nonneg; [apply rsi_gain_nonneg|exact Hg].
    + eapply rolling_mean_nonneg; [apply rsi_loss_nonneg|exact Hl].
Qed.

Lemma py_abs_nonneg (x : Qc) : 0 <= py_abs x.
Proof.
  unfold py_abs. destruct (ltb x 0) eqn:Hx.
  - apply ltb_lt in Hx. qc_unfold. lra.
  - by apply ltb_ge in Hx.
Qed.

Lemma py_max_ge_r (a b : Qc) : b <= py_max a b.
Proof.
  unfold py_max. destruct (ltb a b) eqn:H; [apply Qcle_refl|].
  by apply ltb_ge in H.
Qed.

Lemma true_range_nonneg (df : list bar) :
  Forall (λ b, Low b <= High b) df → Forall (λ x, 0 <= x) (true_range df).
Proof.
  intros Hall. unfold true_range. apply Forall_forall. intros x Hx.
  apply list_elem_of_lookup in Hx as [i Hi].
  apply lookup_zip_with_Some in Hi as (b & prev & -> & Hb & _).
  assert (Hrange : 0 <= High b - Low b).
  { apply Qcminus_nonneg. eapply (Forall_lookup_1 _ _ _ _ Hall Hb). }
  destruct prev as [c|]; [|done].
  eapply Qcle_trans; [apply py_abs_nonneg|apply py_max_ge_r].
Qed.

(** On bars whose low is not above their high, the ATR has one cell per
    bar, the true range of a bar is at least its high less its low, and no
    ATR value is negative. *)
Theorem atr_is_never_negative (df : list bar) (period : nat) :
  Forall (λ b, Low b <= High b) df →
  length (calculate_atr df period) = length df ∧
  Forall2 (λ b tr, High b - Low b <= tr) df (true_range df) ∧
  Forall (λ c, ∀ a, c = Some a → 0 <= a) (calculate_atr df period).
Proof.
  intros Hall.
  assert (Hlen : length (true_range df) = length df).
  { unfold true_range. rewrite length_zip_with. cbn [length].
    rewrite length_map. lia. }
  split; [|split].
  - unfold calculate_atr. by rewrite rolling_mean_length.
  - apply Forall2_same_length_lookup_2; [done|].
    intros i b tr Hb Htr. unfold true_range in Htr.
    apply lookup_zip_with_Some in Htr as (b' & prev & -> & Hb' & _).
    rewrite Hb in Hb'. injection Hb' as <-.
    destruct prev as [c|]; [|apply Qcle_refl].
    eapply Qcle_trans; [|apply py_max_ge_l]. apply py_max_ge_l.
  - apply Forall_forall. intros c Hc a ->.
    apply list_elem_of_lookup in Hc as [i Hi].
    eapply rolling_mean_nonneg; [|exact Hi]. by apply true_range_nonneg.
Qed.

Lemma atr_is_never_negative_witness :
  length (calculate_atr whipsaw_bars 14) = length whipsaw_bars ∧
  Forall2 (λ b tr, High b - Low b <= tr) whipsaw_bars (true_range whipsaw_bars) ∧
  Forall (λ c, ∀ a, c = Some a → 0 <= a) (calculate_atr whipsaw_bars 14).
Proof.
  apply (atr_is_never_negative whipsaw_bars 14).
  apply (bool_decide_unpack _). vm_compute. reflexivity.
Defined.

Lemma length_filter_lt {A} (P : A → Prop) `{∀ x, Decision (P x)} (l : list A) (x : A) :
  x ∈ l → ¬ P x → (length (filter P l) < length l)%nat.
Proof.
  intros Hin Hnot. induction l as [|y l IH]; [by apply elem_of_nil in Hin|].
  pose proof (length_filter P l) as Hle.
  apply elem_of_cons in Hin as [->|Hin].
  - rewrite filter_cons_False by done. cbn [length]. lia.
  - specialize (IH Hin). destruct (decide (P y)).
    + rewrite filter_cons_True by done. cbn [length]. lia.
    + rewrite filter_cons_False by done. cbn [length]. lia.
Qed.

Lemma Qc_of_Z_lt (a b : Z) : (a < b)%Z → Qc_of_Z a < Qc_of_Z b.
Proof. intros H. qc_unfold. by rewrite <- Zlt_Qlt. Qed.

(** With a positive lookback [calculate_volatility_percentile] raises
    nothing and returns a number from 0 up to, but never reaching, 100: the
    current ATR is not below itself.  It returns 50 when the column is
    missing, shorter than the lookback, or ends in NaN. *)
Theorem volatility_percentile_is_below_100 (atr : option (list (option Qc)))
    (lookback : nat) :
  (0 < lookback)%nat →
  ∃ p, calculate_volatility_percentile atr lookback = Ok (Fin p) ∧
       0 <= p ∧ p < num 100 ∧
       (match atr with
        | None => True
        | Some column =>
            (length column < lookback)%nat ∨ last column = Some None
        end → p = num 50).
Proof.
  intros Hlb. unfold calculate_volatility_percentile.
  destruct atr as [column|];
    [|exists (num 50); split; [done|]; split; [closed_cmp|split; [closed_cmp|done]]].
  destruct (Nat.ltb_spec (length column) lookback) as [Hshort|Hlong];
    [exists (num 50); split; [done|]; split; [closed_cmp|split; [closed_cmp|done]]|].
  unfold iloc_neg.
  assert (Hlast : last column = column !! (length column - 1)%nat).
  { rewrite last_lookup. f_equal. lia. }
  rewrite <- Hlast.
  destruct (last column) as [[cur|]|] eqn:Hcur.
  - cbv zeta.
    set (recent := tail lookback column).
    set (P := λ c : option Qc, from_option (λ x, ltb x cur) false c = true).
    assert (Hlen : length recent = lookback).
    { subst recent. unfold tail. rewrite length_drop. lia. }
    assert (Hin : Some cur ∈ recent).
    { subst recent. unfold tail. apply (list_elem_of_lookup_2 _ (lookback - 1)).
      rewrite lookup_drop, Hlast. f_equal. lia. }
    assert (Hnot : ¬ P (Some cur)).
    { subst P. cbn. intros Hlt%ltb_lt. by apply Qclt_not_eq in Hlt. }
    pose proof (length_filter_lt P recent (Some cur) Hin Hnot) as Hbelow.
    set (below := length (filter P recent)) in *. clearbody below.
    rewrite Hlen in *. clear Hin Hnot.
    pose proof (Qc_of_Z_pos lookback Hlb) as Hpos.
    unfold fdiv. rewrite decide_False by (by apply Qc_pos_neq_0).
    cbn [fmul]. eexists. split; [done|]. split; [|split].
    + apply Qcmult_nonneg; [|closed_cmp].
      apply Qcdiv_nonneg; [apply Qc_of_Z_nonneg|by apply Qclt_le_weak].
    + replace (num 100) with (1 * num 100) at 2 by ring.
      apply Qcmult_lt_compat_r; [closed_cmp|].
      apply Qcdiv_lt_upper; [done|]. rewrite Qcmult_1_l.
      apply Qc_of_Z_lt. lia.
    + intros [Hc|Hc]; [lia|discriminate Hc].
  - exists (num 50). split; [done|]. split; [closed_cmp|split; [closed_cmp|done]].
  - apply last_None in Hcur. subst column. cbn in Hlong. lia.
Qed.

Lemma volatility_percentile_is_below_100_witness :
  ∃ p, calculate_volatility_percentile (Some (calculate_atr whipsaw_bars 14)) 252
       = Ok (Fin p) ∧
       0 <= p ∧ p < num 100 ∧
       ((length (calculate_atr whipsaw_bars 14) < 252)%nat
        ∨ last (calculate_atr whipsaw_bars 14) = Some None → p = num 50).
Proof.
  apply (volatility_percentile_is_below_100
           (Some (calculate_atr whipsaw_bars 14)) 252).
  lia.
Defined.

Lemma foldl_max_spec (h : Qc) (rest : list Qc) :
  let m := foldl (λ m x, if ltb m x then x else m) h rest in
  m ∈ h :: rest ∧ Forall (λ x, x <= m) (h :: rest).
Proof.
  revert h. induction rest as [|x rest IH]; intros h; cbn [foldl].
  - split; [left|]. constructor; [apply Qcle_refl|constructor].
  - destruct (IH (if ltb h x then x else h)) as [Hin Hall].
    apply Forall_cons in Hall as [Hfirst Hall]. split.
    + apply elem_of_cons in Hin as [Hin|Hin].
      * rewrite Hin. destruct (ltb h x); [right; left|left].
      * right. by right.
    + destruct (ltb h x) eqn:Hlt.
      * apply ltb_lt in Hlt. constructor; [|by constructor].
        eapply Qcle_trans; [by apply Qclt_le_weak|done].
      * apply ltb_ge in Hlt. constructor; [done|]. constructor; [|done].
        by eapply Qcle_trans.
Qed.

(** [get_52_week_high] is the greatest High among the last 252 rows (all
    the rows when there are fewer): it is one of them and none is above
    it.  Only an empty frame has no high. *)
Theorem high_52w_is_the_maximum_of_the_window (df : list row) :
  match get_52_week_high df with
  | Some h =>
      h ∈ tail 252 (map (λ r, High (prices r)) df) ∧
      Forall (λ x, x <= h) (tail 252 (map (λ r, High (prices r)) df))
  | None => df = []
  end.
Proof.
  unfold get_52_week_high. cbv zeta.
  set (high := map (λ r, High (prices r)) df).
  assert (Hwin : (if (length df <? 252)%nat then high else tail 252 high)
                 = tail 252 high).
  { destruct (Nat.ltb_spec (length df) 252) as [Hlt|]; [|done].
    unfold tail. subst high. rewrite length_map.
    replace (length df - 252)%nat with 0%nat by lia. done. }
  rewrite Hwin.
  destruct (tail 252 high) as [|h rest] eqn:Htail.
  - apply (f_equal length) in Htail. unfold tail in Htail.
    subst high. rewrite length_drop, length_map in Htail. cbn in Htail.
    destruct df; [done|]. cbn in Htail. lia.
  - apply foldl_max_spec.
Qed.

(** What the loop of [detect_crossover] calls a cross below the MA200: a
    close at or above the average followed by a close below it. *)
Lemma scan_crossovers_below (len i : nat) (recent : list row) (result : crossover) :
  crossed_below_ma200 (scan_crossovers len i recent result) = true ↔
  crossed_below_ma200 result = true ∨
  ∃ j prev next pm nm,
    recent !! j = Some prev ∧ recent !! S j = Some next ∧
    MA200 prev = Some pm ∧ MA200 next = Some nm ∧
    pm <= Close (prices prev) ∧ Close (prices next) < nm.
Proof.
  revert i result. induction recent as [|prev rest IH]; intros i result.
  - cbn. split; [by left|]. intros [?|(j & ? & ? & ? & ? & Hj & _)]; [done|].
    by rewrite lookup_nil in Hj.
  - destruct rest as [|next rest].
    + cbn. split; [by left|].
      intros [?|(j & ? & ? & ? & ? & _ & Hj & _)]; [done|]. by destruct j.
    + change (scan_crossovers len i (prev :: next :: rest) result)
        with (scan_crossovers len (S i) (next :: rest)
                match MA200 prev, MA200 next with
                | Some prev_ma200, Some next_ma200 =>
                    let prev_price := Close (prices prev) in
                    let next_price := Close (prices next) in
                    let r1 :=
                      if leb prev_ma200 prev_price && ltb next_price next_ma200
                      then Crossover true (crossed_above_ma200 result)
                             (current_position result) (distance_from_ma200 result)
                             (ma50_above_ma200 result)
                             (Some (Z.of_nat len - Z.of_nat i - 2)%Z)
                      else result in
                    if leb prev_price prev_ma200 && ltb next_ma200 next_price
                    then Crossover (crossed_below_ma200 r1) true
                           (current_position r1) (distance_from_ma200 r1)
                           (ma50_above_ma200 r1)
                           (Some (Z.of_nat len - Z.of_nat i - 2)%Z)
                    else r1
                | _, _ => result
                end).
      match goal with
      | |- context [scan_crossovers len (S i) (next :: rest) ?r] => set (r' := r)
      end.
      rewrite IH. clear IH.
      set (cond := λ p n : row, ∃ pm nm,
             MA200 p = Some pm ∧ MA200 n = Some nm ∧
             pm <= Close (prices p) ∧ Close (prices n) < nm).
      assert (Hstep :
        crossed_below_ma200 r' = true
        ↔ crossed_below_ma200 result = true ∨ cond prev next).
      { subst cond r'. cbv beta.
        destruct (MA200 prev) as [pm|], (MA200 next) as [nm|];
          try (split; [by left|intros [?|(? & ? & ? & ? & _)]; done]).
        cbv zeta.
        destruct (leb pm (Close (prices prev))) eqn:H1,
                 (ltb (Close (prices next)) nm) eqn:H2; cbn [andb];
          destruct (leb (Close (prices prev)) pm && ltb nm (Close (prices next)));
          cbn [crossed_below_ma200];
          try apply leb_le in H1; try apply ltb_lt in H2;
          try apply leb_gt in H1; try apply ltb_ge in H2.
        all: split; [intros H; (by left) || (right; by exists pm, nm)
                    |intros [H|(pm' & nm' & [= <-] & [= <-] & Ha & Hb)]; try done].
        all: try (exfalso; eapply Qclt_not_le; [exact Hb|exact H2]).
        all: try (exfalso; eapply Qclt_not_le; [exact H1|exact Ha]). }
      rewrite Hstep. subst cond. cbv beta. split.
      * intros [[H|(pm & nm & Hc)]|(j & p & n & pm & nm & Hp & Hn & Hc)].
        -- by left.
        -- right. by exists 0%nat, prev, next, pm, nm.
        -- right. by exists (S j), p, n, pm, nm.
      * intros [H|(j & p & n & pm & nm & Hp & Hn & Hc)]; [by left; left|].
        destruct j as [|j].
        -- cbn in Hp, Hn. injection Hp as <-. injection Hn as <-.
           left. right. by exists pm, nm.
        -- right. by exists j, p, n, pm, nm.
Qed.

(** On a frame with more rows than the lookback whose last MA200 is
    defined, [detect_crossover] reports a cross below the MA200 exactly
    when, among the last lookback + 1 rows, some close at or above its
    MA200 is followed by a close below its MA200.  On a shorter frame it
    reports nothing. *)
Theorem death_cross_is_a_close_falling_through_ma200 (df : list row)
    (lookback : nat) (cur : row) (m : Qc) :
  (lookback + 1 <= length df)%nat →
  last df = Some cur → MA200 cur = Some m →
  (crossed_below_ma200 (detect_crossover df lookback) = true ↔
   ∃ j prev next pm nm,
     tail (lookback + 1) df !! j = Some prev ∧
     tail (lookback + 1) df !! S j = Some next ∧
     MA200 prev = Some pm ∧ MA200 next = Some nm ∧
     pm <= Close (prices prev) ∧ Close (prices next) < nm) ∧
  detect_crossover (take lookback df) lookback = crossover_default.
Proof.
  intros Hlen Hlast Hma. split.
  - unfold detect_crossover.
    destruct (Nat.ltb_spec (length df) (lookback + 1)) as [|_]; [lia|].
    cbv zeta. set (recent := tail (lookback + 1) df).
    assert (Hrl : last recent = Some cur).
    { subst recent. unfold tail. rewrite last_lookup, length_drop, lookup_drop.
      rewrite last_lookup in Hlast. rewrite <- Hlast. f_equal. lia. }
    assert (Hany : forallb (λ r, negb (bool_decide (is_Some (MA200 r)))) recent
                   = false).
    { apply not_true_is_false. intros Hall.
      rewrite forallb_forall in Hall.
      assert (Hin : In cur recent).
      { apply list_elem_of_In. rewrite last_lookup in Hrl.
        by eapply list_elem_of_lookup_2. }
      specialize (Hall cur Hin). rewrite Hma in Hall.
      rewrite bool_decide_true in Hall by eauto. discriminate Hall. }
    rewrite Hany, Hrl, Hma. rewrite scan_crossovers_below.
    cbn [crossed_below_ma200]. split; [intros [H|H]; [discriminate H|done]|by right].
  - unfold detect_crossover. rewrite length_take.
    destruct (Nat.ltb_spec (lookback `min` length df) (lookback + 1)); [done|lia].
Qed.

Lemma death_cross_is_a_close_falling_through_ma200_witness :
  (crossed_below_ma200 (detect_crossover (calculate_ma50_ma200 whipsaw_bars) 7) = true ↔
   ∃ j prev next pm nm,
     tail (7 + 1) (calculate_ma50_ma200 whipsaw_bars) !! j = Some prev ∧
     tail (7 + 1) (calculate_ma50_ma200 whipsaw_bars) !! S j = Some next ∧
     MA200 prev = Some pm ∧ MA200 next = Some nm ∧
     pm <= Close (prices prev) ∧ Close (prices next) < nm) ∧
  detect_crossover (take 7 (calculate_ma50_ma200 whipsaw_bars)) 7 = crossover_default.
Proof.
  apply (death_cross_is_a_close_falling_through_ma200
           (calculate_ma50_ma200 whipsaw_bars) 7
           (default (Row (Bar 0 0 0 0 0 0) None None None)
              (last (calculate_ma50_ma200 whipsaw_bars)))
           (default 0
              (last (calculate_ma50_ma200 whipsaw_bars) ≫= MA200))).
  - vm_compute. lia.
  - vm_compute. reflexivity.
  - vm_compute. reflexivity.
Defined.

Lemma Qcle_refl' (x y : Qc) : x = y → x <= y.
Proof. intros ->. apply Qcle_refl. Qed.

Lemma Qcmult_le_compat_left (x y z : Qc) : 0 <= z → x <= y → z * x <= z * y.
Proof.
  intros Hz Hxy. rewrite !(Qcmult_comm z). by apply Qcmult_le_compat_r.
Qed.

Lemma ewm_from_bounds (alpha lo hi prev : Qc) (l : list Qc) :
  0 <= alpha → alpha <= 1 → lo <= prev → prev <= hi →
  Forall (λ x, lo <= x ∧ x <= hi) l →
  Forall (λ y, lo <= y ∧ y <= hi) (ewm_from alpha prev l).
Proof.
  intros Ha0 Ha1. revert prev. induction l as [|x l IH]; intros prev Hlo Hhi Hall.
  - constructor.
  - apply Forall_cons in Hall as [[Hxlo Hxhi] Hall]. cbn [ewm_from].
    assert (H1a : 0 <= 1 - alpha) by by apply Qcminus_nonneg.
    assert (Hy : lo <= (1 - alpha) * prev + alpha * x
                 ∧ (1 - alpha) * prev + alpha * x <= hi).
    { split.
      - apply Qcle_trans with ((1 - alpha) * lo + alpha * lo);
          [apply Qcle_refl'; ring|].
        apply Qcplus_le_compat; by apply Qcmult_le_compat_left.
      - apply Qcle_trans with ((1 - alpha) * hi + alpha * hi);
          [|apply Qcle_refl'; ring].
        apply Qcplus_le_compat; by apply Qcmult_le_compat_left. }
    cbv zeta. constructor; [done|]. apply IH; [apply Hy|apply Hy|done].
Qed.

Lemma ewm_alpha_range (span : Z) :
  (1 <= span)%Z →
  0 <= num 2 / Qc_of_Z (span + 1) ∧ num 2 / Qc_of_Z (span + 1) <= 1.
Proof.
  intros Hspan.
  assert (Hpos : 0 < Qc_of_Z (span + 1)).
  { apply Qclt_le_trans with (Qc_of_Z 1); [closed_cmp|].
    qc_unfold. rewrite <- Zle_Qle. lia. }
  split.
  - apply Qcdiv_nonneg; [closed_cmp|by apply Qclt_le_weak].
  - apply Qcdiv_le_upper; [done|]. rewrite Qcmult_1_l.
    apply Qcle_trans with (Qc_of_Z 2); [closed_cmp|].
    qc_unfold. rewrite <- Zle_Qle. lia.
Qed.

Lemma ewm_mean_bounds (span : Z) (lo hi : Qc) (l : list Qc) :
  (1 <= span)%Z → Forall (λ x, lo <= x ∧ x <= hi) l →
  Forall (λ y, lo <= y ∧ y <= hi) (ewm_mean span l).
Proof.
  intros Hspan Hall. destruct (ewm_alpha_range span Hspan) as [Ha0 Ha1].
  destruct Hall as [|x l [Hlo Hhi] Hall]; [constructor|].
  cbn [ewm_mean]. constructor; [done|]. by apply ewm_from_bounds.
Qed.

Lemma ewm_from_length (alpha prev : Qc) (l : list Qc) :
  length (ewm_from alpha prev l) = length l.
Proof.
  revert prev. induction l as [|x l IH]; intros prev; [done|].
  cbn [ewm_from length]. by rewrite IH.
Qed.

Lemma ewm_mean_length (span : Z) (l : list Qc) :
  length (ewm_mean span l) = length l.
Proof. destruct l; [done|]. cbn [ewm_mean length]. by rewrite ewm_from_length. Qed.

Lemma zip_with_minus_bounds (lo hi : Qc) (a b : list Qc) :
  Forall (λ x, lo <= x ∧ x <= hi) a → Forall (λ x, lo <= x ∧ x <= hi) b →
  Forall (λ d, lo - hi <= d ∧ d <= hi - lo) (zip_with Qcminus a b).
Proof.
  intros Ha. revert b. induction Ha as [|x a [Hx1 Hx2] _ IH]; intros b Hb.
  - constructor.
  - destruct Hb as [|y b [Hy1 Hy2] Hb]; [constructor|].
    cbn [zip_with]. constructor; [|by apply IH].
    split; qc_unfold; lra.
Qed.

(** With spans of at least 1, the MACD line and the signal line of closes
    that stay between [lo] and [hi] stay between [lo - hi] and [hi - lo],
    one value per close: each exponential average is a weighted mean of the
    closes so far.  On a flat series all three MACD columns are zero. *)
Theorem macd_is_bounded_by_the_price_range (close : list Qc)
    (fast slow signal : Z) (lo hi : Qc) :
  (1 <= fast)%Z → (1 <= slow)%Z → (1 <= signal)%Z →
  Forall (λ x, lo <= x ∧ x <= hi) close →
  let '(macd_line, signal_line, histogram) := calculate_macd close fast slow signal in
  length macd_line = length close ∧ length signal_line = length close ∧
  length histogram = length close ∧
  Forall (λ d, lo - hi <= d ∧ d <= hi - lo) macd_line ∧
  Forall (λ d, lo - hi <= d ∧ d <= hi - lo) signal_line ∧
  (lo = hi → Forall (λ d, d = 0) histogram).
Proof.
  intros Hf Hs Hg Hall. unfold calculate_macd. cbv zeta.
  set (macd_line := zip_with Qcminus (ewm_mean fast close) (ewm_mean slow close)).
  assert (Hlen : length macd_line = length close).
  { subst macd_line. rewrite length_zip_with, !ewm_mean_length. lia. }
  assert (Hmacd : Forall (λ d, lo - hi <= d ∧ d <= hi - lo) macd_line).
  { apply zip_with_minus_bounds; by apply ewm_mean_bounds. }
  assert (Hsig : Forall (λ d, lo - hi <= d ∧ d <= hi - lo) (ewm_mean signal macd_line))
    by by apply ewm_mean_bounds.
  split; [done|]. split; [by rewrite ewm_mean_length|].
  split; [rewrite length_zip_with, ewm_mean_length; lia|].
  split; [done|]. split; [done|].
  intros ->.
  assert (Hzero : ∀ l, Forall (λ d, hi - hi <= d ∧ d <= hi - hi) l →
                       Forall (λ d : Qc, 0 <= d ∧ d <= 0) l).
  { intros l Hl. eapply Forall_impl; [exact Hl|]. intros d. cbv beta.
    replace (hi - hi) with (0 : Qc) by ring. done. }
  apply Hzero in Hmacd, Hsig.
  pose proof (zip_with_minus_bounds 0 0 _ _ Hmacd Hsig) as Hh.
  eapply Forall_impl; [exact Hh|]. intros d [H1 H2]. cbv beta in *.
  apply Qcle_antisym; [|]; qc_unfold; lra.
Qed.

Lemma macd_is_bounded_by_the_price_range_witness :
  let '(macd_line, signal_line, histogram) := calculate_macd flat_closes 12 26 9 in
  length macd_line = length flat_closes ∧ length signal_line = length flat_closes ∧
  length histogram = length flat_closes ∧
  Forall (λ d, num 100 - num 100 <= d ∧ d <= num 100 - num 100) macd_line ∧
  Forall (λ d, num 100 - num 100 <= d ∧ d <= num 100 - num 100) signal_line ∧
  (num 100 = num 100 → Forall (λ d, d = 0) histogram).
Proof.
  apply (macd_is_bounded_by_the_price_range flat_closes 12 26 9 (num 100) (num 100)).
  - lia.
  - lia.
  - lia.
  - apply (bool_decide_unpack _). vm_compute. reflexivity.
Defined.

End Indicators.

(** ** Performance metrics *)

Section Performance.
Import Backtester.

(** With an initial capital other than zero, the total return of a run
    is its price return plus its dividend return, and the final value is
    the value of the last point of the equity curve; only an empty curve
    gives no metrics. *)
Theorem total_return_is_price_plus_dividend_return (curve : list equity_point)
    (initial_capital total_dividends total_isk_tax : Qc) :
  initial_capital ≠ 0 →
  match calculate_performance_metrics curve initial_capital total_dividends
          total_isk_tax with
  | Some m =>
      total_return m = price_return m + dividend_return m ∧
      (value <$> last curve) = Some (final_value m)
  | None => curve = []
  end.
Proof.
  intros Hcap. unfold calculate_performance_metrics, iloc_neg.
  assert (Hlast : curve !! (length curve - 1)%nat = last curve).
  { rewrite last_lookup. f_equal. lia. }
  rewrite Hlast. destruct (last curve) as [final|] eqn:Hfinal.
  - cbn [total_return price_return dividend_return final_value fmap option_fmap option_map].
    split; [|done]. field. done.
  - by apply last_None.
Qed.

Lemma total_return_is_price_plus_dividend_return_witness :
  match calculate_performance_metrics weekly_curve (num 100000) (num 1500) 0 with
  | Some m =>
      total_return m = price_return m + dividend_return m ∧
      (value <$> last weekly_curve) = Some (final_value m)
  | None => weekly_curve = []
  end.
Proof.
  apply (total_return_is_price_plus_dividend_return weekly_curve (num 100000)
           (num 1500) 0).
  intros H%(f_equal (λ x : Qc, Qnum x)). vm_compute in H. discriminate H.
Defined.

Lemma cummax_from_spec (peak : Qc) (l : list Qc) :
  0 < peak →
  Forall2 (λ v pk, v <= pk ∧ 0 < pk) l (cummax_from peak l).
Proof.
  revert peak. induction l as [|x l IH]; intros peak Hpeak; cbn [cummax_from].
  - constructor.
  - cbv zeta. constructor.
    + split; [apply py_max_ge_r|].
      eapply Qclt_le_trans; [exact Hpeak|apply py_max_ge_l].
    + apply IH. eapply Qclt_le_trans; [exact Hpeak|apply py_max_ge_l].
Qed.

Lemma drawdown_cell_range (v pk : Qc) :
  0 < v → v <= pk → 0 < pk →
  - num 100 < (v - pk) / pk * num 100 ∧ (v - pk) / pk * num 100 <= 0.
Proof.
  intros Hv Hle Hpk.
  assert (H1 : (v - pk) / pk <= 0).
  { apply Qcdiv_le_upper; [done|]. rewrite Qcmult_0_l. qc_unfold. lra. }
  assert (H2 : - (1) < (v - pk) / pk).
  { apply Qcnot_le_lt. intros Hc.
    assert (Hm : (v - pk) / pk * pk <= - (1) * pk).
    { apply Qcmult_le_compat_r; [done|by apply Qclt_le_weak]. }
    replace ((v - pk) / pk * pk) with (v - pk) in Hm
      by (field; by apply Qc_pos_neq_0).
    qc_unfold. lra. }
  set (q := (v - pk) / pk) in *. clearbody q.
  split; qc_unfold; lra.
Qed.

Lemma foldl_min_spec (h : Qc) (rest : list Qc) :
  let m := foldl py_min h rest in
  m ∈ h :: rest ∧ Forall (λ x, m <= x) (h :: rest).
Proof.
  revert h. induction rest as [|x rest IH]; intros h; cbn [foldl].
  - split; [left|]. constructor; [apply Qcle_refl|constructor].
  - destruct (IH (py_min h x)) as [Hin Hall].
    apply Forall_cons in Hall as [Hfirst Hall]. split.
    + apply elem_of_cons in Hin as [Hin|Hin].
      * rewrite Hin. unfold py_min. destruct (ltb x h); [right; left|left].
      * right. by right.
    + assert (Hh : py_min h x <= h).
      { unfold py_min. destruct (ltb x h) eqn:Hlt; [|apply Qcle_refl].
        by apply Qclt_le_weak, ltb_lt. }
      assert (Hx : py_min h x <= x).
      { unfold py_min. destruct (ltb x h) eqn:Hlt; [apply Qcle_refl|].
        by apply ltb_ge. }
      constructor; [by eapply Qcle_trans|]. constructor; [by eapply Qcle_trans|done].
Qed.

(** On an equity curve of positive values the maximum drawdown is at most
    zero and above −100 percent, and it is the drawdown of some point of
    the curve from the highest value up to that point. *)
Theorem max_drawdown_is_between_minus_100_and_0 (curve : list equity_point)
    (initial_capital total_dividends total_isk_tax : Qc) (m : performance) :
  Forall (λ pt, 0 < value pt) curve →
  calculate_performance_metrics curve initial_capital total_dividends
    total_isk_tax = Some m →
  - num 100 < max_drawdown m ∧ max_drawdown m <= 0 ∧
  max_drawdown m
  ∈ zip_with (λ v peak, (v - peak) / peak * num 100)
      (map value curve) (cummax (map value curve)).
Proof.
  intros Hpos. unfold calculate_performance_metrics.
  destruct (iloc_neg 1 curve) as [final|] eqn:Hfinal; [|done]. intros [= <-].
  cbn [max_drawdown].
  set (values := map value curve).
  assert (Hvals : Forall (λ v, 0 < v) values) by by apply Forall_fmap.
  assert (Hdd : Forall (λ d, - num 100 < d ∧ d <= 0)
                  (zip_with (λ v peak, (v - peak) / peak * num 100)
                     values (cummax values))).
  { destruct Hvals as [|v0 rest Hv0 Hrest]; [constructor|].
    cbn [cummax zip_with]. constructor.
    - apply drawdown_cell_range; [done|apply Qcle_refl|done].
    - pose proof (cummax_from_spec v0 rest Hv0) as Hcm.
      revert Hrest Hcm. generalize (cummax_from v0 rest). clear.
      induction rest as [|x rest IH]; intros pks Hrest Hcm.
      + constructor.
      + apply Forall_cons in Hrest as [Hx Hrest].
        apply Forall2_cons_inv_l in Hcm as (pk & pks' & [Hle Hpk] & Hcm & ->).
        cbn [zip_with]. constructor; [by apply drawdown_cell_range|by apply IH]. }
  destruct (zip_with _ values (cummax values)) as [|d rest] eqn:Hz.
  - destruct curve as [|pt curve]; [discriminate Hfinal|discriminate Hz].
  - destruct (foldl_min_spec d rest) as [Hin _]. cbv zeta in Hin.
    pose proof (proj1 (Forall_forall _ _) Hdd _ Hin) as [H1 H2].
    done.
Qed.

Lemma max_drawdown_is_between_minus_100_and_0_witness :
  - num 100
  < max_drawdown
      (default (Performance 0 0 0 0 None 0)
         (calculate_performance_metrics weekly_curve (num 100000) 0 0)) ∧
  max_drawdown
    (default (Performance 0 0 0 0 None 0)
       (calculate_performance_metrics weekly_curve (num 100000) 0 0)) <= 0 ∧
  max_drawdown
    (default (Performance 0 0 0 0 None 0)
       (calculate_performance_metrics weekly_curve (num 100000) 0 0))
  ∈ zip_with (λ v peak, (v - peak) / peak * num 100)
      (map value weekly_curve) (cummax (map value weekly_curve)).
Proof.
  apply (max_drawdown_is_between_minus_100_and_0 weekly_curve (num 100000) 0 0
           (default (Performance 0 0 0 0 None 0)
              (calculate_performance_metrics weekly_curve (num 100000) 0 0))).
  - apply (bool_decide_unpack _). vm_compute. reflexivity.
  - vm_compute. reflexivity.
Defined.

End Performance.

(** ** Position sizing *)

Lemma num_100_neq_0 : num 100 ≠ 0.
Proof. intros H%(f_equal (λ x : Qc, Qnum x)). vm_compute in H. discriminate H. Qed.

Ltac qc_field :=
  field; repeat split;
  first [assumption | by apply Qc_pos_neq_0 | apply num_100_neq_0].

Lemma py_int_nonneg_floor (x : Qc) : 0 <= x → py_int x = Qfloor x.
Proof.
  unfold py_int. destruct x as [[n d] Hc]. unfold Qcle, Qle. cbn.
  change (Qred 0) with 0%Q. cbn.
  intros Hn. apply Z.quot_div_nonneg; lia.
Qed.

Lemma py_int_nonneg (x : Qc) : 0 <= x → (0 <= py_int x)%Z ∧ Qc_of_Z (py_int x) <= x.
Proof.
  intros Hx. rewrite py_int_nonneg_floor by done. split.
  - change 0%Z with (Qfloor 0). by apply Qfloor_resp_le.
  - destruct x as [[n d] Hc]. unfold Qcle. simpl. apply (Qfloor_le (n # d)).
Qed.

Lemma py_int_monotone (x y : Qc) : 0 <= x → x <= y → (py_int x <= py_int y)%Z.
Proof.
  intros Hx Hxy. rewrite !py_int_nonneg_floor by (done || by eapply Qcle_trans).
  by apply Qfloor_resp_le.
Qed.

(** The shares bought for a target weight of [t] percent: not negative,
    and worth at most [t] percent of the capital. *)
Lemma sized_shares (capital price t : Qc) :
  0 < capital → 0 < price → 0 <= t →
  let shares := py_int (capital * (t / num 100) / price) in
  (0 <= shares)%Z ∧
  Qc_of_Z shares * price <= capital * (t / num 100) ∧
  0 <= Qc_of_Z shares * price / capital * num 100 ∧
  Qc_of_Z shares * price / capital * num 100 <= t.
Proof.
  intros Hcap Hprice Ht shares.
  assert (Hval : 0 <= capital * (t / num 100)).
  { apply Qcmult_nonneg; [by apply Qclt_le_weak|].
    apply Qcdiv_nonneg; [done|closed_cmp]. }
  destruct (py_int_nonneg (capital * (t / num 100) / price)) as [Hs Hle].
  { apply Qcdiv_nonneg; [done|by apply Qclt_le_weak]. }
  fold shares in Hs, Hle.
  assert (Hs' : 0 <= Qc_of_Z shares).
  { apply Qcle_trans with (Qc_of_Z 0); [closed_cmp|].
    qc_unfold. by rewrite <- Zle_Qle. }
  assert (Hcost : Qc_of_Z shares * price <= capital * (t / num 100)).
  { apply Qcle_trans with (capital * (t / num 100) / price * price).
    - apply Qcmult_le_compat_r; [done|by apply Qclt_le_weak].
    - apply Qcle_refl'. qc_field. }
  split; [done|]. split; [done|]. split.
  - apply Qcmult_nonneg; [|closed_cmp].
    apply Qcdiv_nonneg; [|by apply Qclt_le_weak].
    apply Qcmult_nonneg; [done|by apply Qclt_le_weak].
  - apply Qcle_trans with (capital * (t / num 100) / capital * num 100).
    + apply Qcmult_le_compat_r; [|closed_cmp].
      apply Qcdiv_le_upper; [done|].
      apply Qcle_trans with (capital * (t / num 100)); [done|].
      apply Qcle_refl'. qc_field.
    + apply Qcle_refl'. qc_field.
Qed.

Section Sizing.
Import PortfolioManager.

Lemma position_size_fixed (total_capital stock_price target_weight max_weight : Qc) :
  0 < total_capital → 0 < stock_price → 0 <= target_weight → 0 <= max_weight →
  ∃ shares w,
    calculate_position_size total_capital stock_price target_weight max_weight
    = Ok (shares, w) ∧
    (0 <= shares)%Z ∧ w = Qc_of_Z shares * stock_price / total_capital * num 100 ∧
    0 <= w ∧ w <= target_weight ∧ w <= max_weight ∧
    Qc_of_Z shares * stock_price <= total_capital * (target_weight / num 100).
Proof.
  intros Hcap Hprice Ht Hm.
  pose proof (Qc_pos_neq_0 _ Hcap) as Hcap0.
  pose proof (Qc_pos_neq_0 _ Hprice) as Hprice0.
  destruct (sized_shares total_capital stock_price target_weight Hcap Hprice Ht)
    as (Hs1 & Hc1 & Hw1 & Hw1').
  destruct (sized_shares total_capital stock_price max_weight Hcap Hprice Hm)
    as (Hs2 & Hc2 & Hw2 & Hw2').
  cbv zeta in *.
  unfold calculate_position_size. cbv zeta.
  rewrite (decide_False (P := stock_price = 0)), (decide_False (P := total_capital = 0))
    by done.
  destruct (ltb max_weight _) eqn:Hcmp.
  - apply ltb_lt in Hcmp.
    assert (Hmt : max_weight <= target_weight).
    { apply Qclt_le_weak. by eapply Qclt_le_trans. }
    eexists _, _. split; [done|]. repeat split; try done.
    + by eapply Qcle_trans.
    + eapply Qcle_trans; [exact Hc2|].
      apply Qcmult_le_compat_left; [by apply Qclt_le_weak|].
      apply Qcmult_le_compat_r; [done|closed_cmp].
  - apply ltb_ge in Hcmp. eexists _, _. split; [done|]. repeat split; done.
Qed.

Lemma position_size_conviction_capped
    (total_capital stock_price conviction_weight max_weight : Qc) :
  0 < total_capital → 0 < stock_price → 0 <= conviction_weight → 0 <= max_weight →
  ∃ shares w,
    calculate_position_size_conviction total_capital stock_price conviction_weight
      max_weight = Ok (shares, w) ∧
    (0 <= shares)%Z ∧ w = Qc_of_Z shares * stock_price / total_capital * num 100 ∧
    0 <= w ∧ w <= conviction_weight ∧ w <= max_weight ∧
    Qc_of_Z shares * stock_price <= total_capital * (conviction_weight / num 100).
Proof.
  intros Hcap Hprice Ht Hm.
  pose proof (Qc_pos_neq_0 _ Hcap) as Hcap0.
  pose proof (Qc_pos_neq_0 _ Hprice) as Hprice0.
  unfold calculate_position_size_conviction. cbv zeta.
  rewrite (decide_False (P := stock_price = 0)), (decide_False (P := total_capital = 0))
    by done.
  assert (Hmin : 0 <= py_min conviction_weight max_weight
                 ∧ py_min conviction_weight max_weight <= conviction_weight
                 ∧ py_min conviction_weight max_weight <= max_weight).
  { unfold py_min. destruct (ltb max_weight conviction_weight) eqn:Hcmp.
    - apply ltb_lt in Hcmp. split; [done|]. split; [by apply Qclt_le_weak|apply Qcle_refl].
    - apply ltb_ge in Hcmp. split; [done|]. split; [apply Qcle_refl|done]. }
  destruct Hmin as (Hmin0 & Hmin1 & Hmin2).
  destruct (sized_shares total_capital stock_price
              (py_min conviction_weight max_weight) Hcap Hprice Hmin0)
    as (Hs3 & Hc3 & Hw3 & Hw3').
  cbv zeta in *. eexists _, _. split; [done|]. repeat split; try done.
  - by eapply Qcle_trans.
  - by eapply Qcle_trans.
  - eapply Qcle_trans; [exact Hc3|].
    apply Qcmult_le_compat_left; [by apply Qclt_le_weak|].
    apply Qcmult_le_compat_r; [done|closed_cmp].
Qed.

(** With a positive capital and price and weights that are not negative,
    the fixed sizing and the conviction sizing both return a number of
    shares that is not negative and whose weight is at most the target
    weight and at most the maximum weight; the position costs at most the
    target value. *)
Theorem position_size_stays_within_target_and_maximum
    (total_capital stock_price target_weight max_weight : Qc) :
  0 < total_capital → 0 < stock_price → 0 <= target_weight → 0 <= max_weight →
  (∃ shares w,
     calculate_position_size total_capital stock_price target_weight max_weight
     = Ok (shares, w) ∧
     (0 <= shares)%Z ∧ w = Qc_of_Z shares * stock_price / total_capital * num 100 ∧
     0 <= w ∧ w <= target_weight ∧ w <= max_weight ∧
     Qc_of_Z shares * stock_price <= total_capital * (target_weight / num 100)) ∧
  (∃ shares w,
     calculate_position_size_conviction total_capital stock_price target_weight
       max_weight = Ok (shares, w) ∧
     (0 <= shares)%Z ∧ w = Qc_of_Z shares * stock_price / total_capital * num 100 ∧
     0 <= w ∧ w <= target_weight ∧ w <= max_weight ∧
     Qc_of_Z shares * stock_price <= total_capital * (target_weight / num 100)).
Proof.
  intros Hcap Hprice Ht Hm. split.
  - by apply position_size_fixed.
  - by apply position_size_conviction_capped.
Qed.

Lemma position_size_stays_within_target_and_maximum_witness :
  (∃ shares w,
     calculate_position_size (num 100000) (num 250) (num 2.5) (num 3)
     = Ok (shares, w) ∧
     (0 <= shares)%Z ∧ w = Qc_of_Z shares * num 250 / num 100000 * num 100 ∧
     0 <= w ∧ w <= num 2.5 ∧ w <= num 3 ∧
     Qc_of_Z shares * num 250 <= num 100000 * (num 2.5 / num 100)) ∧
  (∃ shares w,
     calculate_position_size_conviction (num 100000) (num 250) (num 2.5) (num 3)
     = Ok (shares, w) ∧
     (0 <= shares)%Z ∧ w = Qc_of_Z shares * num 250 / num 100000 * num 100 ∧
     0 <= w ∧ w <= num 2.5 ∧ w <= num 3 ∧
     Qc_of_Z shares * num 250 <= num 100000 * (num 2.5 / num 100)).
Proof.
  apply (position_size_stays_within_target_and_maximum
           (num 100000) (num 250) (num 2.5) (num 3)); closed_cmp.
Defined.

Lemma Qcinv_pos (z : Qc) : 0 < z → 0 < / z.
Proof. intros Hz. qc_unfold. by apply Qinv_lt_0_compat. Qed.

Lemma Qcdiv_le_compat_r (x y z : Qc) : 0 < z → x <= y → x / z <= y / z.
Proof.
  intros Hz Hxy. unfold Qcdiv. apply Qcmult_le_compat_r; [done|].
  by apply Qclt_le_weak, Qcinv_pos.
Qed.

Lemma Qcdiv_le_antitone (n d1 d2 : Qc) :
  0 <= n → 0 < d1 → d1 <= d2 → n / d2 <= n / d1.
Proof.
  intros Hn Hd1 Hd12.
  assert (Hd2 : 0 < d2) by by eapply Qclt_le_trans.
  apply Qcdiv_le_upper; [done|].
  apply Qcle_trans with (n / d1 * d1).
  - apply Qcle_refl'. qc_field.
  - apply Qcmult_le_compat_left; [|done].
    apply Qcdiv_nonneg; [done|by apply Qclt_le_weak].
Qed.

Lemma py_min_monotone (a x y : Qc) : x <= y → py_min a x <= py_min a y.
Proof.
  intros Hxy. unfold py_min.
  destruct (ltb x a) eqn:Hx, (ltb y a) eqn:Hy;
    try apply ltb_lt in Hx; try apply ltb_ge in Hx;
    try apply ltb_lt in Hy; try apply ltb_ge in Hy.
  - done.
  - by apply Qclt_le_weak.
  - by eapply Qcle_trans.
  - apply Qcle_refl.
Qed.

Lemma py_max_monotone (a x y : Qc) : x <= y → py_max a x <= py_max a y.
Proof.
  intros Hxy. unfold py_max.
  destruct (ltb a x) eqn:Hx, (ltb a y) eqn:Hy;
    try apply ltb_lt in Hx; try apply ltb_ge in Hx;
    try apply ltb_lt in Hy; try apply ltb_ge in Hy.
  - done.
  - by eapply Qcle_trans.
  - by apply Qclt_le_weak.
  - apply Qcle_refl.
Qed.

Lemma constrained_weight_range (min_weight max_weight raw : Qc) :
  min_weight <= max_weight →
  min_weight <= py_max min_weight (py_min max_weight raw) ∧
  py_max min_weight (py_min max_weight raw) <= max_weight.
Proof.
  intros Hmm. split; [apply py_max_ge_l|].
  unfold py_max. destruct (ltb min_weight _) eqn:H; [apply py_min_le_l|done].
Qed.

(** With a positive capital, price and multiplier, weight bounds
    0 <= min <= max and a target weight that is not negative,
    [calculate_position_size_atr] always returns a size, of shares that
    are not negative and of a weight from 0 to the maximum weight.  With a
    positive ATR the weight aimed at lies between the two bounds; with an
    ATR that is NaN, zero or negative the result is that of the fixed
    sizing at the target weight. *)
Theorem atr_position_size_stays_within_the_bounds
    (total_capital stock_price : Qc) (atr : option Qc)
    (account_risk_pct atr_multiplier min_weight max_weight target_weight : Qc) :
  0 < total_capital → 0 < stock_price → 0 < atr_multiplier →
  0 <= min_weight → min_weight <= max_weight → 0 <= target_weight →
  ∃ shares w info,
    calculate_position_size_atr total_capital stock_price atr account_risk_pct
      atr_multiplier min_weight max_weight target_weight = Ok (shares, w, info) ∧
    (0 <= shares)%Z ∧ 0 <= w ∧ w <= max_weight ∧
    match info with
    | Fixed a =>
        a = atr ∧ (atr = None ∨ ∃ x, atr = Some x ∧ x <= 0) ∧
        calculate_position_size total_capital stock_price target_weight max_weight
        = Ok (shares, w)
    | Atr a _ _ raw_weight constrained_weight _ =>
        atr = Some a ∧ 0 < a ∧
        constrained_weight = py_max min_weight (py_min max_weight raw_weight) ∧
        min_weight <= constrained_weight ∧ constrained_weight <= max_weight ∧
        w <= constrained_weight
    end.
Proof.
  intros Hcap Hprice Hmult Hmin Hmm Ht.
  assert (Hmax : 0 <= max_weight) by by apply Qcle_trans with min_weight.
  pose proof (Qc_pos_neq_0 _ Hcap) as Hcap0.
  pose proof (Qc_pos_neq_0 _ Hprice) as Hprice0.
  destruct (position_size_fixed total_capital stock_price target_weight max_weight
              Hcap Hprice Ht Hmax) as (fs & fw & Hfixed & Hfs & _ & Hfw0 & _ & Hfwm & _).
  unfold calculate_position_size_atr.
  destruct atr as [a|]; [destruct (leb a 0) eqn:Ha|].
  - apply leb_le in Ha. rewrite Hfixed. exists fs, fw, (Fixed (Some a)).
    repeat split; try done. right. by exists a.
  - apply leb_gt in Ha. cbv zeta.
    assert (Hstop : a * atr_multiplier ≠ 0) by by apply Qc_pos_neq_0, Qcmult_pos.
    rewrite (decide_False (P := a * atr_multiplier = 0)),
      (decide_False (P := total_capital = 0)),
      (decide_False (P := stock_price = 0)) by done.
    match goal with
    | |- context [py_max min_weight (py_min max_weight ?r)] => set (raw := r)
    end.
    destruct (constrained_weight_range min_weight max_weight raw Hmm) as [Hlo Hhi].
    set (cw := py_max min_weight (py_min max_weight raw)) in *.
    assert (Hcw : 0 <= cw) by by apply Qcle_trans with min_weight.
    destruct (sized_shares total_capital stock_price cw Hcap Hprice Hcw)
      as (Hs & _ & Hw0 & Hw).
    cbv zeta in Hs, Hw0, Hw.
    replace (total_capital * cw / num 100 / stock_price)
      with (total_capital * (cw / num 100) / stock_price) by qc_field.
    eexists _, _, _. split; [done|]. repeat split; try done.
    by eapply Qcle_trans.
  - rewrite Hfixed. exists fs, fw, (Fixed None). repeat split; try done. by left.
Qed.

Lemma atr_position_size_stays_within_the_bounds_witness :
  ∃ shares w info,
    calculate_position_size_atr (num 100000) (num 100) (Some (num 5)) (num 1)
      (num 2) (num 1) (num 5) (num 2.5) = Ok (shares, w, info) ∧
    (0 <= shares)%Z ∧ 0 <= w ∧ w <= num 5 ∧
    match info with
    | Fixed a =>
        a = Some (num 5) ∧ (Some (num 5) = None ∨ ∃ x, Some (num 5) = Some x ∧ x <= 0) ∧
        calculate_position_size (num 100000) (num 100) (num 2.5) (num 5)
        = Ok (shares, w)
    | Atr a _ _ raw_weight constrained_weight _ =>
        Some (num 5) = Some a ∧ 0 < a ∧
        constrained_weight = py_max (num 1) (py_min (num 5) raw_weight) ∧
        num 1 <= constrained_weight ∧ constrained_weight <= num 5 ∧
        w <= constrained_weight
    end.
Proof.
  apply (atr_position_size_stays_within_the_bounds (num 100000) (num 100)
           (Some (num 5)) (num 1) (num 2) (num 1) (num 5) (num 2.5)); closed_cmp.
Defined.

(** The more volatile the stock, the smaller the position: with the other
    arguments fixed, a larger ATR never gives more shares nor a larger
    weight. *)
Theorem atr_position_size_shrinks_with_volatility
    (total_capital stock_price atr1 atr2 : Qc)
    (account_risk_pct atr_multiplier min_weight max_weight target_weight : Qc) :
  0 < total_capital → 0 < stock_price → 0 <= account_risk_pct →
  0 < atr_multiplier → 0 <= min_weight → 0 < atr1 → atr1 <= atr2 →
  ∃ shares1 w1 info1 shares2 w2 info2,
    calculate_position_size_atr total_capital stock_price (Some atr1)
      account_risk_pct atr_multiplier min_weight max_weight target_weight
    = Ok (shares1, w1, info1) ∧
    calculate_position_size_atr total_capital stock_price (Some atr2)
      account_risk_pct atr_multiplier min_weight max_weight target_weight
    = Ok (shares2, w2, info2) ∧
    (shares2 <= shares1)%Z ∧ w2 <= w1.
Proof.
  intros Hcap Hprice Hrisk Hmult Hmin Ha1 Ha12.
  assert (Ha2 : 0 < atr2) by by eapply Qclt_le_trans.
  pose proof (Qc_pos_neq_0 _ Hcap) as Hcap0.
  pose proof (Qc_pos_neq_0 _ Hprice) as Hprice0.
  unfold calculate_position_size_atr.
  rewrite (proj2 (leb_gt atr1 0)), (proj2 (leb_gt atr2 0)) by done.
  cbv zeta.
  rewrite (decide_False (P := atr1 * atr_multiplier = 0)),
    (decide_False (P := atr2 * atr_multiplier = 0)),
    !(decide_False (P := total_capital = 0)),
    !(decide_False (P := stock_price = 0))
    by (done || by apply Qc_pos_neq_0, Qcmult_pos).
  set (risk := total_capital * (account_risk_pct / num 100)).
  assert (Hrd : 0 <= risk).
  { apply Qcmult_nonneg; [by apply Qclt_le_weak|].
    apply Qcdiv_nonneg; [done|closed_cmp]. }
  set (raw1 := risk / (atr1 * atr_multiplier) * stock_price / total_capital * num 100).
  set (raw2 := risk / (atr2 * atr_multiplier) * stock_price / total_capital * num 100).
  assert (Hraw : raw2 <= raw1).
  { subst raw1 raw2. apply Qcmult_le_compat_r; [|closed_cmp].
    apply Qcdiv_le_compat_r; [done|].
    apply Qcmult_le_compat_r; [|by apply Qclt_le_weak].
    apply Qcdiv_le_antitone; [done|by apply Qcmult_pos|].
    apply Qcmult_le_compat_r; [done|by apply Qclt_le_weak]. }
  set (cw1 := py_max min_weight (py_min max_weight raw1)).
  set (cw2 := py_max min_weight (py_min max_weight raw2)).
  assert (Hcw : cw2 <= cw1) by by apply py_max_monotone, py_min_monotone.
  assert (Hcw2 : 0 <= cw2).
  { eapply Qcle_trans; [exact Hmin|apply py_max_ge_l]. }
  assert (Hshares : (py_int (total_capital * cw2 / num 100 / stock_price)
                     <= py_int (total_capital * cw1 / num 100 / stock_price))%Z).
  { apply py_int_monotone.
    - apply Qcdiv_nonneg; [|by apply Qclt_le_weak].
      apply Qcdiv_nonneg; [|closed_cmp].
      apply Qcmult_nonneg; [by apply Qclt_le_weak|done].
    - apply Qcdiv_le_compat_r; [done|].
      apply Qcdiv_le_compat_r; [closed_cmp|].
      by apply Qcmult_le_compat_left; [apply Qclt_le_weak|]. }
  eexists _, _, _, _, _, _. split; [reflexivity|]. split; [reflexivity|].
  split; [exact Hshares|].
  apply Qcmult_le_compat_r; [|closed_cmp].
  apply Qcdiv_le_compat_r; [done|].
  apply Qcmult_le_compat_r; [|by apply Qclt_le_weak].
  qc_unfold. by rewrite <- Zle_Qle.
Qed.

Lemma atr_position_size_shrinks_with_volatility_witness :
  ∃ shares1 w1 info1 shares2 w2 info2,
    calculate_position_size_atr (num 100000) (num 100) (Some (num 2))
      (num 1) (num 2) (num 1) (num 5) (num 2.5)
    = Ok (shares1, w1, info1) ∧
    calculate_position_size_atr (num 100000) (num 100) (Some (num 40))
      (num 1) (num 2) (num 1) (num 5) (num 2.5)
    = Ok (shares2, w2, info2) ∧
    (shares2 <= shares1)%Z ∧ w2 <= w1.
Proof.
  apply (atr_position_size_shrinks_with_volatility (num 100000) (num 100)
           (num 2) (num 40) (num 1) (num 2) (num 1) (num 5) (num 2.5)); closed_cmp.
Defined.

Lemma sum_list_app (a b : list Qc) : sum_list (a ++ b) = sum_list a + sum_list b.
Proof.
  induction a as [|x a IH]; cbn [app sum_list foldr].
  - fold (sum_list b). ring.
  - fold (sum_list (a ++ b)) (sum_list a). rewrite IH. ring.
Qed.

Lemma sum_list_replicate (n : nat) (x : Qc) :
  sum_list (replicate n x) = Qc_of_Z (Z.of_nat n) * x.
Proof.
  destruct (sum_list_bounds x x (replicate n x)) as [Hlo Hhi].
  { apply Forall_replicate. split; apply Qcle_refl. }
  rewrite length_replicate in Hlo, Hhi. by apply Qcle_antisym.
Qed.

Lemma Forall2_seq_replicate {A} (f : nat → res A) (w : A) (start n : nat) :
  (∀ r, (start <= r < start + n)%nat → f r = Ok w) →
  Forall2 (λ r x, f r = Ok x) (seq start n) (replicate n w).
Proof.
  revert start. induction n as [|n IH]; intros start Hf; cbn [seq replicate].
  - constructor.
  - constructor; [apply Hf; lia|]. apply IH. intros r Hr. apply Hf. lia.
Qed.

(** In a portfolio of more stocks than the first two tiers hold, the
    conviction weights of the ranks 1 to [total_stocks] are all defined and
    add up to the three tier weights together: nothing of the capital
    assigned to the tiers is left over or counted twice. *)
Theorem conviction_weights_add_up_to_the_tier_weights (total_stocks : nat)
    (tier1_count tier2_count : Z)
    (tier1_weight_pct tier2_weight_pct tier3_weight_pct : Qc) :
  (1 <= tier1_count)%Z → (1 <= tier2_count)%Z →
  (tier1_count + tier2_count < Z.of_nat total_stocks)%Z →
  ∃ weights,
    Forall2 (λ rank w,
               calculate_conviction_weight (Z.of_nat rank) (Z.of_nat total_stocks)
                 tier1_count tier1_weight_pct tier2_count tier2_weight_pct
                 tier3_weight_pct = Ok w)
            (seq 1 total_stocks) weights ∧
    sum_list weights = tier1_weight_pct + tier2_weight_pct + tier3_weight_pct.
Proof.
  intros H1 H2 Hn.
  set (n1 := Z.to_nat tier1_count). set (n2 := Z.to_nat tier2_count).
  set (n3 := (total_stocks - n1 - n2)%nat).
  set (tier3 := Z.max 1 (Z.of_nat total_stocks - tier1_count - tier2_count)).
  exists (replicate n1 (tier1_weight_pct / Qc_of_Z tier1_count) ++
          replicate n2 (tier2_weight_pct / Qc_of_Z tier2_count) ++
          replicate n3 (tier3_weight_pct / Qc_of_Z tier3)).
  split.
  - replace total_stocks with (n1 + (n2 + n3))%nat at 1 by lia.
    rewrite !seq_app. apply Forall2_app; [|apply Forall2_app].
    + apply Forall2_seq_replicate. intros r Hr. unfold calculate_conviction_weight.
      destruct (Z.leb_spec (Z.of_nat r) tier1_count) as [_|]; [|lia].
      by rewrite decide_False by lia.
    + apply Forall2_seq_replicate. intros r Hr. unfold calculate_conviction_weight.
      destruct (Z.leb_spec (Z.of_nat r) tier1_count) as [|_]; [lia|].
      destruct (Z.leb_spec (Z.of_nat r) (tier1_count + tier2_count)) as [_|]; [|lia].
      by rewrite decide_False by lia.
    + apply Forall2_seq_replicate. intros r Hr. unfold calculate_conviction_weight.
      destruct (Z.leb_spec (Z.of_nat r) tier1_count) as [|_]; [lia|].
      destruct (Z.leb_spec (Z.of_nat r) (tier1_count + tier2_count)) as [|_]; [lia|].
      done.
  - rewrite !sum_list_app, !sum_list_replicate.
    replace (Z.of_nat n1) with tier1_count by lia.
    replace (Z.of_nat n2) with tier2_count by lia.
    replace (Z.of_nat n3) with tier3 by lia.
    assert (Hnz : ∀ z, (1 <= z)%Z → Qc_of_Z z ≠ 0).
    { intros z Hz Hq. apply Qc_of_Z_eq_0 in Hq. lia. }
    field. repeat split; apply Hnz; lia.
Qed.

Lemma conviction_weights_add_up_to_the_tier_weights_witness :
  ∃ weights,
    Forall2 (λ rank w,
               calculate_conviction_weight (Z.of_nat rank) (Z.of_nat 50)
                 15 (num 50) 25 (num 35) (num 15) = Ok w)
            (seq 1 50) weights ∧
    sum_list weights = num 50 + num 35 + num 15.
Proof.
  apply (conviction_weights_add_up_to_the_tier_weights 50 15 25
           (num 50) (num 35) (num 15)); lia.
Defined.

End Sizing.

(** ** Market regime *)

Section Regime.
Import MaCalculator MarketRegime.

Lemma index_factor_points_range (index_price : Qc) (ma50 ma100 ma200 : option Qc) :
  0 <= (index_factor index_price ma50 ma100 ma200).1 ∧
  (index_factor index_price ma50 ma100 ma200).1 <= num 40.
Proof.
  unfold index_factor. cbv zeta. cbn [fst].
  destruct ma200 as [m200|].
  - destruct (ltb m200 index_price).
    + destruct ma100 as [m100|], ma50 as [m50|]; try (split; closed_cmp).
      destruct (ltb m100 m50 && ltb m200 m100); [split; closed_cmp|].
      destruct (ltb m200 m50); split; closed_cmp.
    + destruct (flt _ _); split; closed_cmp.
  - destruct (flt _ _); split; closed_cmp.
Qed.

Lemma breadth_points_range (breadth_pct : Qc) :
  0 <= breadth_points breadth_pct ∧ breadth_points breadth_pct <= num 30.
Proof.
  unfold breadth_points. repeat (destruct (ltb _ breadth_pct)); split; closed_cmp.
Qed.

Lemma volatility_points_range (v : fval) :
  0 <= volatility_points v ∧ volatility_points v <= num 30.
Proof.
  unfold volatility_points. repeat (destruct (flt v _)); split; closed_cmp.
Qed.

Lemma count_breadth_range (universe : list (string * universe_frame)) :
  (0 <= (count_breadth universe).1 <= (count_breadth universe).2)%Z.
Proof.
  unfold count_breadth.
  assert (Hgen : ∀ acc : Z * Z, (0 <= acc.1 <= acc.2)%Z →
    (0 <= (foldl (λ '(stocks_above_ma200, total_stocks) '(ticker, frame),
             match frame with
             | Raw _ => (stocks_above_ma200, total_stocks)
             | WithMA df =>
                 match iloc_neg 1 df with
                 | None => (stocks_above_ma200, total_stocks)
                 | Some cur =>
                     let current_price := Close (prices cur) in
                     match MA200 cur with
                     | Some stock_ma200 =>
                         if ltb stock_ma200 current_price
                         then (stocks_above_ma200 + 1, total_stocks + 1)%Z
                         else (stocks_above_ma200, total_stocks + 1)%Z
                     | None => (stocks_above_ma200, total_stocks + 1)%Z
                     end
                 end
             end) acc universe).1
     <= (foldl (λ '(stocks_above_ma200, total_stocks) '(ticker, frame),
             match frame with
             | Raw _ => (stocks_above_ma200, total_stocks)
             | WithMA df =>
                 match iloc_neg 1 df with
                 | None => (stocks_above_ma200, total_stocks)
                 | Some cur =>
                     let current_price := Close (prices cur) in
                     match MA200 cur with
                     | Some stock_ma200 =>
                         if ltb stock_ma200 current_price
                         then (stocks_above_ma200 + 1, total_stocks + 1)%Z
                         else (stocks_above_ma200, total_stocks + 1)%Z
                     | None => (stocks_above_ma200, total_stocks + 1)%Z
                     end
                 end
             end) acc universe).2)%Z).
  { induction universe as [|[ticker frame] universe IH]; intros [a t] Hacc; [done|].
    cbn [foldl]. apply IH. cbn [fst snd] in *.
    destruct frame as [df|df]; [done|].
    destruct (iloc_neg 1 df) as [cur|]; [|done]. cbv zeta.
    destruct (MA200 cur) as [m|]; [destruct (ltb m _)|]; cbn [fst snd]; lia. }
  apply Hgen. done.
Qed.

Lemma count_breadth_raw (universe : list (string * universe_frame)) :
  Forall (λ kv, ∃ df, kv.2 = Raw df) universe → count_breadth universe = (0%Z, 0%Z).
Proof.
  intros Hall. unfold count_breadth. generalize (0%Z, 0%Z).
  induction Hall as [|[ticker frame] universe [df Hraw] _ IH]; intros [a t]; [done|].
  cbn [foldl]. cbn [snd] in Hraw. subst frame. apply IH.
Qed.

Lemma breadth_pct_range (above total : Z) :
  (0 <= above <= total)%Z →
  0 <= (if (0 <? total)%Z then Qc_of_Z above / Qc_of_Z total * num 100 else 0) ∧
  (if (0 <? total)%Z then Qc_of_Z above / Qc_of_Z total * num 100 else 0) <= num 100.
Proof.
  intros Hrange. destruct (Z.ltb_spec 0 total) as [Hpos|]; [|split; closed_cmp].
  assert (Ht : 0 < Qc_of_Z total).
  { apply Qclt_le_trans with (Qc_of_Z 1); [closed_cmp|].
    qc_unfold. rewrite <- Zle_Qle. lia. }
  assert (Ha : 0 <= Qc_of_Z above).
  { apply Qcle_trans with (Qc_of_Z 0); [closed_cmp|].
    qc_unfold. rewrite <- Zle_Qle. lia. }
  split.
  - apply Qcmult_nonneg; [|closed_cmp].
    apply Qcdiv_nonneg; [done|by apply Qclt_le_weak].
  - apply Qcle_trans with (1 * num 100); [|closed_cmp].
    apply Qcmult_le_compat_r; [|closed_cmp].
    apply Qcdiv_le_upper; [done|]. rewrite Qcmult_1_l.
    qc_unfold. rewrite <- Zle_Qle. lia.
Qed.

Lemma volatility_percentile_raises_nothing (column : list (option Qc)) (lookback : nat) :
  (0 < lookback)%nat →
  ∃ v, calculate_volatility_percentile (Some column) lookback = Ok v.
Proof.
  intros Hlb. unfold calculate_volatility_percentile.
  destruct (Nat.ltb_spec (length column) lookback) as [|Hlong]; [eauto|].
  unfold iloc_neg.
  destruct (column !! (length column - 1)%nat) as [[cur|]|] eqn:Hcur; [eauto|eauto|].
  apply lookup_ge_None in Hcur. lia.
Qed.

Lemma classify_cases (regime_score : Qc) :
  ∃ description,
    classify regime_score = ("STRONG_BULL"%string, 80%Z, description)
    ∧ num 75 <= regime_score ∨
    classify regime_score = ("BULL"%string, 60%Z, description)
    ∧ regime_score < num 75 ∨
    classify regime_score = ("NEUTRAL"%string, 40%Z, description)
    ∧ regime_score < num 55 ∨
    classify regime_score = ("BEAR"%string, 20%Z, description)
    ∧ regime_score < num 35 ∨
    classify regime_score = ("PANIC"%string, 5%Z, description)
    ∧ regime_score < num 20.
Proof.
  unfold classify.
  destruct (leb (num 75) regime_score) eqn:H75;
    [apply leb_le in H75; eexists; by left|apply leb_gt in H75].
  destruct (leb (num 55) regime_score) eqn:H55;
    [eexists; right; by left|apply leb_gt in H55].
  destruct (leb (num 35) regime_score) eqn:H35;
    [eexists; right; right; by left|apply leb_gt in H35].
  destruct (leb (num 20) regime_score) eqn:H20;
    [eexists; right; right; right; by left|apply leb_gt in H20].
  eexists; right; right; right; by right.
Qed.

(** On an index frame with at least one row [get_market_regime_dynamic]
    raises nothing: it returns a regime score from 0 to 100, a breadth from
    0 to 100 percent, and one of the five regimes with its number of
    stocks to hold. *)
Theorem regime_score_is_between_0_and_100 (index_data : index_frame)
    (stock_universe_data : list (string * universe_frame)) (as_of_date : Z) :
  rows index_data ≠ [] →
  ∃ info,
    get_market_regime_dynamic index_data stock_universe_data as_of_date = Ok info ∧
    0 <= regime_score info ∧ regime_score info <= num 100 ∧
    0 <= breadth_pct info ∧ breadth_pct info <= num 100 ∧
    (regime info, target_stocks info)
    ∈ [("STRONG_BULL"%string, 80%Z); ("BULL"%string, 60%Z);
       ("NEUTRAL"%string, 40%Z); ("BEAR"%string, 20%Z); ("PANIC"%string, 5%Z)].
Proof.
  intros Hrows. unfold get_market_regime_dynamic, iloc_neg.
  destruct (rows index_data !! (length (rows index_data) - 1)%nat) as [cur|] eqn:Hcur.
  2: { apply lookup_ge_None in Hcur. destruct (rows index_data); [done|].
       cbn [length] in Hcur. lia. }
  cbv zeta.
  pose proof (index_factor_points_range (Close (prices cur)) (MA50 cur)
                (if has_MA100 index_data then MA100 cur else None) (MA200 cur)) as Hp1.
  destruct (index_factor _ _ _ _) as [points1 index_vs]. cbn [fst] in Hp1.
  pose proof (count_breadth_range stock_universe_data) as Hcount.
  destruct (count_breadth stock_universe_data) as [above total]. cbn [fst snd] in Hcount.
  pose proof (breadth_pct_range above total Hcount) as Hb.
  set (breadth := if (0 <? total)%Z
                  then Qc_of_Z above / Qc_of_Z total * num 100 else 0) in *.
  pose proof (breadth_points_range breadth) as Hp2.
  destruct (volatility_percentile_raises_nothing
              match ATR index_data with
              | Some column => column
              | None => calculate_atr (map prices (rows index_data)) 14
              end 252 ltac:(lia)) as [v ->].
  pose proof (volatility_points_range v) as Hp3.
  set (s := 0 + points1 + breadth_points breadth + volatility_points v).
  assert (Hs : 0 <= s ∧ s <= num 100).
  { subst s. clear -Hp1 Hp2 Hp3.
    generalize dependent (breadth_points breadth). intros p2 Hp2.
    generalize dependent (volatility_points v). intros p3 Hp3.
    split; qc_unfold; lra. }
  destruct (classify_cases s) as (d & Hc).
  assert (Hround : 0 <= py_round1 s ∧ py_round1 s <= num 100).
  { split; eapply (py_round1_between s 0 (num 100) 0 1000);
      solve [qc_eq | apply Hs]. }
  assert (Hbr : 0 <= py_round1 breadth ∧ py_round1 breadth <= num 100).
  { split; eapply (py_round1_between breadth 0 (num 100) 0 1000);
      solve [qc_eq | apply Hb]. }
  destruct Hc as [[-> _]|[[-> _]|[[-> _]|[[-> _]|[-> _]]]]];
    (eexists; split; [reflexivity|];
     cbn [regime_score breadth_pct regime target_stocks];
     split; [apply Hround|]; split; [apply Hround|];
     split; [apply Hbr|]; split; [apply Hbr|];
     repeat (first [by left | right])).
Qed.

(** When no frame of the universe has an MA200 column, as with the raw
    frames of a snapshot, the breadth counts no stock: the breadth is 0,
    the regime score is at most 70, and the regime is never STRONG_BULL,
    so that at most 60 stocks are aimed at. *)
Theorem regime_of_raw_frames_is_never_strong_bull (index_data : index_frame)
    (stock_universe_data : list (string * universe_frame)) (as_of_date : Z)
    (info : regime_info) :
  Forall (λ kv, ∃ df, kv.2 = Raw df) stock_universe_data →
  get_market_regime_dynamic index_data stock_universe_data as_of_date = Ok info →
  breadth_pct info = 0 ∧ regime_score info <= num 70 ∧
  regime info ≠ "STRONG_BULL"%string ∧ (target_stocks info <= 60)%Z.
Proof.
  intros Hraw. unfold get_market_regime_dynamic.
  destruct (iloc_neg 1 (rows index_data)) as [cur|]; [|done].
  cbv zeta.
  pose proof (index_factor_points_range (Close (prices cur)) (MA50 cur)
                (if has_MA100 index_data then MA100 cur else None) (MA200 cur)) as Hp1.
  destruct (index_factor _ _ _ _) as [points1 index_vs]. cbn [fst] in Hp1.
  rewrite (count_breadth_raw _ Hraw).
  change (0 <? 0)%Z with false. cbv iota.
  replace (breadth_points 0) with (0 : Qc) by qc_eq.
  destruct (calculate_volatility_percentile _ 252) as [v|e]; [|done].
  pose proof (volatility_points_range v) as Hp3.
  set (s := 0 + points1 + 0 + volatility_points v).
  assert (Hs : 0 <= s ∧ s <= num 70).
  { subst s. clear -Hp1 Hp3.
    generalize dependent (volatility_points v). intros p3 Hp3.
    split; qc_unfold; lra. }
  assert (Hround : py_round1 s <= num 70).
  { eapply (py_round1_between s 0 (num 70) 0 700); solve [qc_eq | apply Hs]. }
  destruct (classify_cases s) as (d & Hc).
  destruct Hc as [[_ H75]|[[-> _]|[[-> _]|[[-> _]|[-> _]]]]].
  - exfalso. destruct Hs as [_ Hs]. apply (Qcle_not_lt _ _ (Qcle_trans _ _ _ H75 Hs)).
    closed_cmp.
  - intros [= <-]. cbn [regime_score breadth_pct regime target_stocks].
    split; [qc_eq|]. split; [done|]. split; [discriminate|lia].
  - intros [= <-]. cbn [regime_score breadth_pct regime target_stocks].
    split; [qc_eq|]. split; [done|]. split; [discriminate|lia].
  - intros [= <-]. cbn [regime_score breadth_pct regime target_stocks].
    split; [qc_eq|]. split; [done|]. split; [discriminate|lia].
  - intros [= <-]. cbn [regime_score breadth_pct regime target_stocks].
    split; [qc_eq|]. split; [done|]. split; [discriminate|lia].
Qed.

Lemma regime_of_raw_frames_is_never_strong_bull_witness :
  breadth_pct snapshot_regime = 0 ∧ regime_score snapshot_regime <= num 70 ∧
  regime snapshot_regime ≠ "STRONG_BULL"%string ∧
  (target_stocks snapshot_regime <= 60)%Z.
Proof.
  apply (regime_of_raw_frames_is_never_strong_bull
           (IndexFrame (calculate_ma50_ma200 (bars_of rising_closes)) true None)
           (prod_map id Raw
              <$> Backtester.fetch_historical_snapshot provider_on_day_200
                    ["VOLV-B.ST"%string] 200)
           200 snapshot_regime).
  - apply Forall_fmap, Forall_forall. intros [ticker df] _. by exists df.
  - vm_compute. reflexivity.
Defined.

Lemma regime_score_is_between_0_and_100_witness :
  ∃ info,
    get_market_regime_dynamic
      (IndexFrame (calculate_ma50_ma200 (bars_of rising_closes)) true None)
      [("VOLV-B.ST"%string, WithMA (calculate_ma50_ma200 (bars_of rising_closes)))]
      200 = Ok info ∧
    0 <= regime_score info ∧ regime_score info <= num 100 ∧
    0 <= breadth_pct info ∧ breadth_pct info <= num 100 ∧
    (regime info, target_stocks info)
    ∈ [("STRONG_BULL"%string, 80%Z); ("BULL"%string, 60%Z);
       ("NEUTRAL"%string, 40%Z); ("BEAR"%string, 20%Z); ("PANIC"%string, 5%Z)].
Proof.
  apply (regime_score_is_between_0_and_100
           (IndexFrame (calculate_ma50_ma200 (bars_of rising_closes)) true None)
           [("VOLV-B.ST"%string, WithMA (calculate_ma50_ma200 (bars_of rising_closes)))]
           200).
  intros H%(f_equal length). vm_compute in H. discriminate H.
Defined.

Lemma calculate_ma50_ma200_last (bars : list bar) (b : bar) :
  last bars = Some b → (200 <= length bars)%nat →
  iloc_neg 1 (calculate_ma50_ma200 bars)
  = Some (Row b
            (Some (sum_list (tail 50 (map Close bars)) / Qc_of_Z 50))
            (Some (sum_list (tail 100 (map Close bars)) / Qc_of_Z 100))
            (Some (sum_list (tail 200 (map Close bars)) / Qc_of_Z 200))).
Proof.
  intros Hlast Hlen. rewrite last_lookup in Hlast.
  assert (Hn : length (calculate_ma50_ma200 bars) = length bars).
  { unfold calculate_ma50_ma200. cbv zeta. unfold calculate_ma.
    rewrite !length_zip_with, !rolling_mean_length, !length_map. lia. }
  unfold iloc_neg. rewrite Hn.
  replace (length bars - 1)%nat with (pred (length bars)) by lia.
  unfold calculate_ma50_ma200. cbv zeta. unfold calculate_ma.
  rewrite !lookup_zip_with, Hlast.
  assert (Hma : ∀ w, (0 < w <= 200)%nat →
    rolling_mean w (map Close bars) !! pred (length bars)
    = Some (Some (sum_list (tail w (map Close bars)) / Qc_of_Z (Z.of_nat w)))).
  { intros w Hw. rewrite rolling_mean_lookup by (rewrite length_map; lia).
    destruct (Nat.leb_spec w (pred (length bars) + 1)) as [_|]; [|lia].
    do 3 f_equal. unfold tail. rewrite length_map.
    replace (pred (length bars) + 1 - w)%nat with (length bars - w)%nat by lia.
    f_equal. apply take_ge. rewrite length_drop, length_map. lia. }
  rewrite !Hma by lia. reflexivity.
Qed.

(** The simple regime check raises nothing and reads only the index bars
    dated at or before the date: it is "neutral" exactly when fewer than
    200 of them are known, and otherwise "bull" when the last known close
    is above the mean of the last 200 known closes and "bear" when not. *)
Theorem simple_regime_reads_only_known_bars (P : Backtester.provider)
    (as_of_date : Z) :
  Backtester.check_market_regime_historical P as_of_date
  = let known := known_bars P as_of_date "^OMX" in
    if (length known <? 200)%nat then Ok "neutral"%string
    else if ltb (sum_list (tail 200 (map Close known)) / Qc_of_Z 200)
                (from_option Close 0 (last known))
         then Ok "bull"%string else Ok "bear"%string.
Proof.
  cbv zeta. unfold Backtester.check_market_regime_historical.
  pose proof (fetch_up_to P as_of_date "^OMX") as Hknown.
  destruct (Backtester.fetch_stock_data P "^OMX") as [df|]; cbn in Hknown.
  - cbv zeta. rewrite Hknown.
    destruct (Nat.ltb_spec (length (known_bars P as_of_date "^OMX")) 200)
      as [|Hlen]; [done|].
    destruct (last (known_bars P as_of_date "^OMX")) as [b|] eqn:Hlast.
    + rewrite (calculate_ma50_ma200_last _ b Hlast Hlen).
      cbn [MA200 prices from_option]. by destruct (ltb _ _).
    + apply last_None in Hlast. rewrite Hlast in Hlen. cbn in Hlen. lia.
  - by rewrite <- Hknown.
Qed.

End Regime.
